(** * Cart recovery: the Recovery Engine (CartSyncService), the batch scan and
    the manual recovery endpoint, embedded from the TypeScript sources.

    - [src/lib/sync/cart-sync.ts]               : [CartSyncService]
    - [src/app/api/cron/cart-recovery/route.ts] : the scheduled scan ([Cron.GET])
    - the cart-recovery API route               : the manual endpoint ([Recover.GET])

    JavaScript [number]s are IEEE-754 binary64 values, embedded as Rocq's
    primitive floats; strings are byte sequences holding UTF-8.  The record
    store (Prisma) is embedded as finite maps keyed by primary key; the remote
    platform, the messaging API, the clock and the id generator of the record
    store are oracles indexed by a tick counter, so that two successive calls
    may answer differently.  A platform request is sent to the URL the
    service object carries: a service that was never initialised carries
    none, and its requests are rejected before they leave. *)

From Stdlib Require Import ZArith PrimFloat FloatOps SpecFloat Uint63 Ascii.
From stdpp Require Import gmap strings list fin_maps pretty.

Open Scope Z_scope.

(* ===================================================================== *)
(** * JavaScript values *)
(* ===================================================================== *)

Module JS.

(** A [number] is a binary64 float. *)
Definition number := float.

(** Counts returned by the record store are integers below 2^53. *)
Definition of_nat (n : nat) : number :=
  PrimFloat.of_uint63 (Uint63.of_Z (Z.of_nat n)).

(** Truthiness ([if (x)], [x ? a : b], [!x], [x || y]). *)
Definition truthy_num (x : number) : bool :=
  negb (PrimFloat.is_zero x || PrimFloat.is_nan x).

Definition truthy_str (s : string) : bool := bool_decide (s ≠ "").

(** [null]/[undefined] are [None]. *)
Definition truthy_onum (x : option number) : bool :=
  match x with Some v => truthy_num v | None => false end.

Definition truthy_ostr (x : option string) : bool :=
  match x with Some s => truthy_str s | None => false end.

(** [x || undefined] and [x || null] on a nullable string. *)
Definition or_null (x : option string) : option string :=
  if truthy_ostr x then x else None.

(** The text [Number.prototype.toFixed(f)] produces, kept structured:
    [TxtFixed neg n f] is the decimal numeral of [n] with a point before its
    last [f] digits and a leading minus sign when [neg]; a value of
    magnitude 1e21 or more is printed by [Number::toString] in exponent
    form, whose digits are left symbolic. *)
Inductive NumText :=
| TxtNaN
| TxtInfinity (neg : bool)
| TxtFixed (neg : bool) (n : Z) (f : nat)
| TxtExponent (x : number).

(** The integer [n] for which [n / 10^f - m * 2^e] is as close to zero as
    possible, the larger one when there are two. *)
Definition round_scaled (m : positive) (e : Z) (f : nat) : Z :=
  let s := Z.pos m * 10 ^ Z.of_nat f in
  if 0 <=? e then s * 2 ^ e
  else (2 * s + 2 ^ (- e)) / 2 ^ (- e + 1).

Definition toFixed (f : nat) (x : number) : NumText :=
  match Prim2SF x with
  | S754_nan => TxtNaN
  | S754_infinity s => TxtInfinity s
  | S754_zero _ => TxtFixed false 0 f
  | S754_finite s m e =>
      if (1e21 <=? PrimFloat.abs x)%float then TxtExponent x
      else TxtFixed s (round_scaled m e f) f
  end.

(** [String.prototype.trim] strips white space and line terminators from
    both ends: TAB, LF, VT, FF, CR, SP, U+00A0, U+1680, U+2000 to U+200A,
    U+2028, U+2029, U+202F, U+205F, U+3000 and U+FEFF.  A string is a sequence
    of bytes holding its text in UTF-8; [space_width s] is the number of bytes
    of the white space character [s] starts with, and 0 when it starts with
    none. *)
Definition space_width (s : string) : nat :=
  match s with
  | String a rest =>
      let a := nat_of_ascii a in
      if ((a =? 32) || (9 <=? a) && (a <=? 13))%nat then 1%nat
      else
        match rest with
        | String b rest =>
            let b := nat_of_ascii b in
            if ((a =? 194) && (b =? 160))%nat then 2%nat
            else
              match rest with
              | String c _ =>
                  let c := nat_of_ascii c in
                  if ((a =? 225) && (b =? 154) && (c =? 128)
                      || (a =? 226) && (b =? 128)
                         && ((128 <=? c) && (c <=? 138)
                             || (c =? 168) || (c =? 169) || (c =? 175))
                      || (a =? 226) && (b =? 129) && (c =? 159)
                      || (a =? 227) && (b =? 128) && (c =? 128)
                      || (a =? 239) && (b =? 187) && (c =? 191))%nat
                  then 3%nat else 0%nat
              | EmptyString => 0%nat
              end
        | EmptyString => 0%nat
        end
  | EmptyString => 0%nat
  end.

Fixpoint skip (n : nat) (s : string) : string :=
  match n, s with
  | S n, String _ rest => skip n rest
  | _, _ => s
  end.

(** The string without its leading white space; [fuel] bounds the number of
    characters stripped. *)
Fixpoint trim_left_upto (fuel : nat) (s : string) : string :=
  match fuel with
  | O => s
  | S fuel =>
      match space_width s with
      | O => s
      | n => trim_left_upto fuel (skip n s)
      end
  end.

Definition trim_left (s : string) : string := trim_left_upto (String.length s) s.

Definition all_space (s : string) : bool :=
  bool_decide (trim_left s = EmptyString).

(** The string without its trailing white space: the longest suffix made of
    white space characters is cut off. *)
Fixpoint trim_right (s : string) : string :=
  match s with
  | String c rest => if all_space s then EmptyString else String c (trim_right rest)
  | EmptyString => EmptyString
  end.

Definition trim (s : string) : string := trim_right (trim_left s).

End JS.

(* ===================================================================== *)
(** * Data model (the record store's entities) *)
(* ===================================================================== *)

(** Modelled from the spec: the schema of the record store ([@prisma/client]:
    the [RecoveryStatus] enum and the [Cart], [Store], [Product] and
    [ProductMapping] models) is not among the sources.  The entities below
    have the attributes of the design's data model, under the names by which
    the code reads and writes them; a nullable attribute is an [option]. *)
Inductive RecoveryStatus :=
| NONE | ABANDONED | NOTIFIED_FIRST | NOTIFIED_FINAL | RECOVERED | LOST.

#[global] Instance RecoveryStatus_eq_dec : EqDecision RecoveryStatus.
Proof. solve_decision. Defined.

(** A point in time, in milliseconds since the epoch ([Date]). *)
Definition Time := Z.

Record MetastoreCartItem := {
  item_id : string;
  item_name : string;
  item_price : JS.number;
  item_quantity : JS.number;
  item_image : option string;
}.

(** The primary key [id] of a record is its key in the table. *)
Record Cart := {
  storeId : string;
  customerName : option string;
  customerEmail : option string;
  customerPhone : option string;
  items : list MetastoreCartItem;
  total : JS.number;
  createdAt : Time;
  updatedAt : Time;
  abandonedAt : option Time;
  recoveryStatus : RecoveryStatus;
  lastNotifiedAt : option Time;
  recoveredAt : option Time;
  discountCode : option string;
  discountAmount : option JS.number;
  shopifyCartId : option string;
}.

Record Store := {
  name : string;
  isActive : bool;
  shopifyAccessToken : option string;
  shopifyStoreUrl : option string;
  whatsappPhoneNumberId : option string;
  whatsappAccessToken : option string;
}.

Record Product := {
  product_name : string;
  product_price : JS.number;
  product_images : list string;
}.

Record ProductMapping := {
  metastoreProductId : string;
  shopifyVariantId : string;
  mapping_storeId : string;
}.

Record DB := {
  stores : gmap string Store;
  carts : gmap string Cart;
  products : gmap string Product;
  productMappings : list ProductMapping;
}.

(** Field updates written by [prisma.cart.update] / [updateMany]: exactly the
    fields listed under [data] change. *)
Definition set_recoveryStatus (s : RecoveryStatus) (c : Cart) : Cart :=
  {| storeId := storeId c; customerName := customerName c;
     customerEmail := customerEmail c; customerPhone := customerPhone c;
     items := items c; total := total c; createdAt := createdAt c;
     updatedAt := updatedAt c; abandonedAt := abandonedAt c;
     recoveryStatus := s;
     lastNotifiedAt := lastNotifiedAt c; recoveredAt := recoveredAt c;
     discountCode := discountCode c; discountAmount := discountAmount c;
     shopifyCartId := shopifyCartId c |}.

Definition set_abandonedAt (t : Time) (c : Cart) : Cart :=
  {| storeId := storeId c; customerName := customerName c;
     customerEmail := customerEmail c; customerPhone := customerPhone c;
     items := items c; total := total c; createdAt := createdAt c;
     updatedAt := updatedAt c; abandonedAt := Some t;
     recoveryStatus := recoveryStatus c;
     lastNotifiedAt := lastNotifiedAt c; recoveredAt := recoveredAt c;
     discountCode := discountCode c; discountAmount := discountAmount c;
     shopifyCartId := shopifyCartId c |}.

Definition set_lastNotifiedAt (t : Time) (c : Cart) : Cart :=
  {| storeId := storeId c; customerName := customerName c;
     customerEmail := customerEmail c; customerPhone := customerPhone c;
     items := items c; total := total c; createdAt := createdAt c;
     updatedAt := updatedAt c; abandonedAt := abandonedAt c;
     recoveryStatus := recoveryStatus c;
     lastNotifiedAt := Some t; recoveredAt := recoveredAt c;
     discountCode := discountCode c; discountAmount := discountAmount c;
     shopifyCartId := shopifyCartId c |}.

Definition set_recoveredAt (t : Time) (c : Cart) : Cart :=
  {| storeId := storeId c; customerName := customerName c;
     customerEmail := customerEmail c; customerPhone := customerPhone c;
     items := items c; total := total c; createdAt := createdAt c;
     updatedAt := updatedAt c; abandonedAt := abandonedAt c;
     recoveryStatus := recoveryStatus c;
     lastNotifiedAt := lastNotifiedAt c; recoveredAt := Some t;
     discountCode := discountCode c; discountAmount := discountAmount c;
     shopifyCartId := shopifyCartId c |}.

Definition set_shopifyCartId (r : string) (c : Cart) : Cart :=
  {| storeId := storeId c; customerName := customerName c;
     customerEmail := customerEmail c; customerPhone := customerPhone c;
     items := items c; total := total c; createdAt := createdAt c;
     updatedAt := updatedAt c; abandonedAt := abandonedAt c;
     recoveryStatus := recoveryStatus c;
     lastNotifiedAt := lastNotifiedAt c; recoveredAt := recoveredAt c;
     discountCode := discountCode c; discountAmount := discountAmount c;
     shopifyCartId := Some r |}.

Definition set_carts (m : gmap string Cart) (d : DB) : DB :=
  {| stores := stores d; carts := m; products := products d;
     productMappings := productMappings d |}.

(* ===================================================================== *)
(** * The remote collaborators *)
(* ===================================================================== *)

(** A line of a remote cart: [ShopifyCartItem]. *)
Record ShopifyCartItem := {
  quantity : JS.number;
  merchandiseId : string;
}.

(** [ShopifyCart], as [getShopifyCart] formats it. *)
Record ShopifyCart := {
  shopify_id : string;
  lines : list ShopifyCartItem;
  buyer_email : option string;
  buyer_phone : option string;
  cost_amount : option string;
  discountCodes : list string;
}.

(** A line item and a record of the abandoned-checkout listing.  [variant_id]
    is [None] for [null] or [undefined], on which [.toString()] throws, and
    otherwise holds the result of [.toString()], as [checkout_id] does; the
    two dates hold the result of [new Date(...)]. *)
Record LineItem := {
  variant_id : option string;
  line_quantity : JS.number;
}.

Record Checkout := {
  checkout_id : string;
  created_at : Time;
  updated_at : Time;
  checkout_email : option string;
  checkout_phone : option string;
  customer_first_name : option string;
  customer_last_name : option string;
  line_items : list LineItem;
}.

(** The discount sentence of the recovery message: [UseCode code pct] is
    "Use code <code> for <pct>% off!", with [pct = None] for the empty text. *)
Inductive DiscountLine :=
| UseCode (code : string) (pct : option JS.NumText)
| AskComplete.

Record ItemLine := {
  line_name : string;
  line_count : JS.number;
  line_price : JS.NumText;
}.

Record RecoveryMessage := {
  msg_greeting : option string;
  msg_store : string;
  msg_items : list ItemLine;
  msg_total : JS.NumText;
  msg_discount : DiscountLine;
  msg_url : string;
}.

(** Every answer from outside the process, indexed by the tick at which it is
    asked for, so that the same question may be answered differently later.
    A remote call that fails in any way (transport error, a status that is
    not ok, errors reported in the body) answers [None] / [false] / [[]], as
    the [try]/[catch] and the checks around each [fetch] make it.
    - [clock]: [Date.now()] and [new Date()];
    - [newCartId]: the primary key the record store generates on [create];
    - [cartCreate lines email phone]: [data.cartCreate.cart.id];
    - [cartLinesUpdate id lines]: whether [cartLinesUpdate] went through;
    - [cartQuery id]: the cart [getShopifyCart] formats;
    - [checkoutUrlQuery id]: [data.cart.checkoutUrl];
    - [checkoutsQuery]: [data.checkouts || []];
    - [whatsappSend phoneNumberId accessToken to message]: [response.ok].
    The one answer that does not depend on the time:
    - [absoluteUrl url]: whether [new URL(url)] parses [url], which it does
      for an absolute URL only. *)
Record Env := {
  clock : nat → Time;
  newCartId : nat → string;
  cartCreate : nat → list ShopifyCartItem → option string → option string → option string;
  cartLinesUpdate : nat → string → list ShopifyCartItem → bool;
  cartQuery : nat → string → option ShopifyCart;
  checkoutUrlQuery : nat → string → option string;
  checkoutsQuery : nat → list Checkout;
  whatsappSend : nat → string → string → string → RecoveryMessage → bool;
  absoluteUrl : string → bool;
}.

(* ===================================================================== *)
(** * State, exceptions and the record store *)
(* ===================================================================== *)

Record World := { db : DB; tick : nat }.

Inductive Outcome (A : Type) :=
| Ret (a : A)
| Throw.
Arguments Ret {A} a.
Arguments Throw {A}.

(** A computation reads and writes a state and returns or throws; what it
    wrote before throwing stays written. *)
Definition St (S A : Type) : Type := S → Outcome A * S.

(** The computations of the engine run on the world. *)
Abbreviation M := (St World).

Definition ret {S A} (a : A) : St S A := λ s, (Ret a, s).

Definition throw {S A} : St S A := λ s, (Throw, s).

Definition bind {S A B} (m : St S A) (k : A → St S B) : St S B :=
  λ s, match m s with
       | (Ret a, s') => k a s'
       | (Throw, s') => (Throw, s')
       end.

(** [try { m } catch { h }] *)
Definition try_catch {S A} (m : St S A) (h : St S A) : St S A :=
  λ s, match m s with
       | (Ret a, s') => (Ret a, s')
       | (Throw, s') => h s'
       end.

Notation "'do' x ← m ; k" := (bind m (λ x, k))
  (at level 10, x binder, m at level 100, k at level 200,
   format "'[v' 'do'  x  ←  m ; '/' k ']'").
Notation "m ;; k" := (bind m (λ _, k))
  (at level 100, k at level 200, right associativity).

(** [for (const x of xs) { acc = body(acc, x) }] *)
Fixpoint for_of {S A B} (xs : list A) (body : B → A → St S B) (acc : B) : St S B :=
  match xs with
  | [] => ret acc
  | x :: rest => do acc' ← body acc x; for_of rest body acc'
  end.

(** [for (const x of xs) { body(x) }] *)
Definition for_each {S A} (xs : list A) (body : A → St S unit) : St S unit :=
  for_of xs (λ _ x, body x) tt.

Definition get_db : M DB := λ w, (Ret (db w), w).

Definition put_db (d : DB) : M unit := λ w, (Ret tt, {| db := d; tick := tick w |}).

(** Consult an oracle at the current tick and advance the tick. *)
Definition ask {A} (f : nat → A) : M A :=
  λ w, (Ret (f (tick w)), {| db := db w; tick := S (tick w) |}).

Module prisma.

(** [findMany({ where })]: the rows that satisfy the filter, with their id. *)
Definition rows {V} (P : V → bool) (m : gmap string V) : list (string * V) :=
  filter (λ kv, P kv.2 = true) (map_to_list m).

Module store.
Definition findUnique (id : string) : M (option Store) :=
  do d ← get_db; ret (stores d !! id).
Definition findMany (P : Store → bool) : M (list (string * Store)) :=
  do d ← get_db; ret (rows P (stores d)).
End store.

Module product.
Definition findUnique (id : string) : M (option Product) :=
  do d ← get_db; ret (products d !! id).
End product.

Module productMapping.
Definition findFirst (P : ProductMapping → bool) : M (option ProductMapping) :=
  do d ← get_db; ret (List.find P (productMappings d)).
End productMapping.

Module cart.
Definition findUnique (id : string) : M (option Cart) :=
  do d ← get_db; ret (carts d !! id).

Definition findMany (P : Cart → bool) : M (list (string * Cart)) :=
  do d ← get_db; ret (rows P (carts d)).

Definition findFirst (P : Cart → bool) : M (option (string * Cart)) :=
  do d ← get_db; ret (head (rows P (carts d))).

Definition count (P : Cart → bool) : M nat :=
  do d ← get_db; ret (length (rows P (carts d))).

(** [update({ where: { id }, data })] throws when no row has the id. *)
Definition update (id : string) (data : Cart → Cart) : M unit :=
  do d ← get_db;
  match carts d !! id with
  | Some c => put_db (set_carts (<[id := data c]> (carts d)) d)
  | None => throw
  end.

(** [updateMany({ where, data })]: one set-based update, returning the
    number of rows it matched. *)
Definition updateMany (P : Cart → bool) (data : Cart → Cart) : M nat :=
  do d ← get_db;
  put_db (set_carts ((λ c, if P c then data c else c) <$> carts d) d);;
  ret (length (rows P (carts d))).

(** [create({ data })]: the store generates the id; a duplicate key
    violates the primary-key constraint and throws. *)
Definition create (env : Env) (c : Cart) : M unit :=
  do id ← ask (newCartId env);
  do d ← get_db;
  match carts d !! id with
  | Some _ => throw
  | None => put_db (set_carts (<[id := c]> (carts d)) d)
  end.
End cart.

End prisma.

(* ===================================================================== *)
(** * The Recovery Engine: [CartSyncService] *)
(* ===================================================================== *)

Record RecoveryStats := {
  stats_abandoned : nat;
  stats_notified : nat;
  stats_recovered : nat;
  stats_lost : nat;
  stats_recoveryRate : JS.number;
  stats_revenue : JS.number;
}.

Module CartSyncService.

(** The fields of the service object. *)
Record t := {
  this_storeId : string;
  this_shopifyAccessToken : option string;
  this_shopifyStoreUrl : option string;
}.

Definition new (storeId : string) : t :=
  {| this_storeId := storeId;
     this_shopifyAccessToken := None;
     this_shopifyStoreUrl := None |}.

Section Methods.
Variable env : Env.
Variable this : t.

(** [initialize] assigns the two credentials on success; the service
    object it leaves behind is returned next to the boolean. *)
Definition initialize : M (bool * t) :=
  try_catch
    (do store ← prisma.store.findUnique (this_storeId this);
     match store with
     | Some st =>
         if negb (JS.truthy_ostr (shopifyAccessToken st))
            || negb (JS.truthy_ostr (shopifyStoreUrl st))
         then ret (false, this)
         else ret (true, {| this_storeId := this_storeId this;
                            this_shopifyAccessToken := shopifyAccessToken st;
                            this_shopifyStoreUrl := shopifyStoreUrl st |})
     | None => ret (false, this)
     end)
    (ret (false, this)).

(** One iteration of the loop of [mapMetastoreItemsToShopify]. *)
Definition mapMetastoreItem (shopifyItems : list ShopifyCartItem)
    (item : MetastoreCartItem) : M (list ShopifyCartItem) :=
  do productMapping ← prisma.productMapping.findFirst
       (λ pm, bool_decide (metastoreProductId pm = item_id item)
              && bool_decide (mapping_storeId pm = this_storeId this));
  match productMapping with
  | None => ret shopifyItems
  | Some pm =>
      ret (shopifyItems ++ [{| merchandiseId := shopifyVariantId pm;
                               quantity := item_quantity item |}])
  end.

Definition mapMetastoreItemsToShopify (items : list MetastoreCartItem)
  : M (list ShopifyCartItem) :=
  try_catch (for_of items mapMetastoreItem []) (ret []).

(** [fetch] on the platform.  The URL of every platform request starts with
    [this.shopifyStoreUrl]; on a service whose URL was never assigned the
    template prints [undefined/...], which is no absolute URL, and [fetch]
    rejects it before any request is sent.  Otherwise the answer is the
    platform's. *)
Definition fetch {A} (request : nat → A) : M A :=
  match this_shopifyStoreUrl this with
  | Some _ => ask request
  | None => throw
  end.

Definition createShopifyCart (items : list MetastoreCartItem)
    (customerInfo : option (option string * option string)) : M (option string) :=
  try_catch
    (do shopifyItems ← mapMetastoreItemsToShopify items;
     fetch (λ t, cartCreate env t shopifyItems
                   (customerInfo ≫= fst) (customerInfo ≫= snd)))
    (ret None).

Definition updateShopifyCart (shopifyCartId : string)
    (items : list MetastoreCartItem) : M bool :=
  try_catch
    (do shopifyItems ← mapMetastoreItemsToShopify items;
     fetch (λ t, cartLinesUpdate env t shopifyCartId shopifyItems))
    (ret false).

Definition getShopifyCart (shopifyCartId : string) : M (option ShopifyCart) :=
  try_catch (fetch (λ t, cartQuery env t shopifyCartId)) (ret None).

Definition syncCartToShopify (cartId : string) : M (option string) :=
  try_catch
    (do cart ← prisma.cart.findUnique cartId;
     match cart with
     | None => ret None
     | Some cart =>
         let items := items cart in
         let create_new : M (option string) :=
           let customerInfo :=
             (JS.or_null (customerEmail cart), JS.or_null (customerPhone cart)) in
           do shopifyCartId ← createShopifyCart items (Some customerInfo);
           match shopifyCartId with
           | Some r =>
               if JS.truthy_str r
               then prisma.cart.update cartId (set_shopifyCartId r)
               else ret tt
           | None => ret tt
           end;;
           ret shopifyCartId in
         match shopifyCartId cart with
         | Some r =>
             if JS.truthy_str r then
               do updated ← updateShopifyCart r items;
               if updated then ret (Some r) else create_new
             else create_new
         | None => create_new
         end
     end)
    (ret None).

Definition getAbandonedCarts : M (list Checkout) :=
  try_catch (fetch (checkoutsQuery env)) (ret []).

(** One iteration of the loop of [mapShopifyItemsToMetastore];
    [item.variant_id.toString()] throws when the line has no variant id. *)
Definition mapShopifyItem (cartItems : list MetastoreCartItem)
    (item : LineItem) : M (list MetastoreCartItem) :=
  match variant_id item with
  | None => throw
  | Some variant =>
      do productMapping ← prisma.productMapping.findFirst
           (λ pm, bool_decide (shopifyVariantId pm = variant)
                  && bool_decide (mapping_storeId pm = this_storeId this));
      match productMapping with
      | None => ret cartItems
      | Some pm =>
          do product ← prisma.product.findUnique (metastoreProductId pm);
          match product with
          | None => ret cartItems
          | Some p =>
              ret (cartItems ++ [{| item_id := metastoreProductId pm;
                                    item_name := product_name p;
                                    item_price := product_price p;
                                    item_quantity := line_quantity item;
                                    item_image := JS.or_null (head (product_images p)) |}])
          end
      end
  end.

Definition mapShopifyItemsToMetastore (lineItems : list LineItem)
  : M (list MetastoreCartItem) :=
  try_catch (for_of lineItems mapShopifyItem []) (ret []).

(** [cartItems.reduce((sum, item) => sum + (item.price * item.quantity), 0)] *)
Definition cart_total (cartItems : list MetastoreCartItem) : JS.number :=
  fold_left (λ sum item, (sum + item_price item * item_quantity item)%float)
            cartItems 0%float.

Definition checkout_customerName (checkout : Checkout) : option string :=
  match customer_first_name checkout with
  | Some first =>
      if JS.truthy_str first
      then Some (JS.trim (first +:+ " " +:+ default "" (JS.or_null (customer_last_name checkout))))
      else None
  | None => None
  end.

(** The row [importAbandonedCarts] creates.  Modelled from the spec: the
    defaults of the fields [create] does not list come from the schema, which
    is not among the sources; the creation time is the current time and the
    nullable attributes are null. *)
Definition imported_cart (now : Time) (checkout : Checkout)
    (cartItems : list MetastoreCartItem) : Cart :=
  {| storeId := this_storeId this;
     shopifyCartId := Some (checkout_id checkout);
     customerName := checkout_customerName checkout;
     customerEmail := checkout_email checkout;
     customerPhone := checkout_phone checkout;
     items := cartItems;
     total := cart_total cartItems;
     recoveryStatus := ABANDONED;
     abandonedAt := Some (created_at checkout);
     updatedAt := updated_at checkout;
     createdAt := now;
     lastNotifiedAt := None;
     recoveredAt := None;
     discountCode := None;
     discountAmount := None |}.

(** One iteration of the loop of [importAbandonedCarts]. *)
Definition importCheckout (importedCount : nat) (checkout : Checkout) : M nat :=
  do existingCart ← prisma.cart.findFirst
       (λ c, bool_decide (shopifyCartId c = Some (checkout_id checkout))
             && bool_decide (storeId c = this_storeId this));
  match existingCart with
  | Some _ => ret importedCount
  | None =>
      do cartItems ← mapShopifyItemsToMetastore (line_items checkout);
      if (length cartItems =? 0)%nat then ret importedCount
      else
        do now ← ask (clock env);
        prisma.cart.create env (imported_cart now checkout cartItems);;
        ret (S importedCount)
  end.

Definition importAbandonedCarts : M nat :=
  try_catch
    (do abandonedCheckouts ← getAbandonedCarts;
     for_of abandonedCheckouts importCheckout 0%nat)
    (ret 0%nat).

Definition getShopifyCheckoutUrl (shopifyCartId : string) : M (option string) :=
  try_catch
    (do url ← fetch (λ t, checkoutUrlQuery env t shopifyCartId);
     ret (JS.or_null url))
    (ret None).

Definition getCartRecoveryUrl (cartId : string) : M (option string) :=
  try_catch
    (do cart ← prisma.cart.findUnique cartId;
     match cart ≫= (λ c, JS.or_null (shopifyCartId c)), cart with
     | Some r, Some cart =>
         syncCartToShopify cartId;;
         do shopifyCart ← getShopifyCart r;
         match shopifyCart with
         | None => ret None
         | Some _ =>
             do checkoutUrl ← getShopifyCheckoutUrl r;
             match JS.or_null (discountCode cart), JS.or_null checkoutUrl with
             | Some code, Some url => ret (Some (url +:+ "&discount=" +:+ code))
             | _, _ => ret checkoutUrl
             end
         end
     | _, _ => ret None
     end)
    (ret None).

(** The discount sentence of the message template. *)
Definition discount_line (cart : Cart) : DiscountLine :=
  match JS.or_null (discountCode cart) with
  | Some code =>
      UseCode code
        (match discountAmount cart with
         | Some amount =>
             if JS.truthy_num amount
             then Some (JS.toFixed 0 (amount / total cart * 100)%float)
             else None
         | None => None
         end)
  | None => AskComplete
  end.

Definition recovery_message (cart : Cart) (store : Store) (recoveryUrl : string)
  : RecoveryMessage :=
  {| msg_greeting := JS.or_null (customerName cart);
     msg_store := name store;
     msg_items := map (λ item, {| line_name := item_name item;
                                  line_count := item_quantity item;
                                  line_price := JS.toFixed 2 (item_price item) |})
                      (items cart);
     msg_total := JS.toFixed 2 (total cart);
     msg_discount := discount_line cart;
     msg_url := recoveryUrl |}.

(** The status written after a successful send, from the status read at
    the start of [sendCartRecoveryMessage]. *)
Definition next_notified (s : RecoveryStatus) : RecoveryStatus :=
  if decide (s = ABANDONED) then NOTIFIED_FIRST else NOTIFIED_FINAL.

Definition sendCartRecoveryMessage (cartId : string) : M bool :=
  try_catch
    (do cart ← prisma.cart.findUnique cartId;
     match cart with
     | None => ret false
     | Some cart =>
         match JS.or_null (customerPhone cart) with
         | None => ret false
         | Some phone =>
             (* [include: { store }]; reading a field of a missing store throws *)
             do store ← prisma.store.findUnique (storeId cart);
             match store with
             | None => throw
             | Some store =>
                 match JS.or_null (whatsappPhoneNumberId store),
                       JS.or_null (whatsappAccessToken store) with
                 | Some phoneNumberId, Some accessToken =>
                     do recoveryUrl ← getCartRecoveryUrl cartId;
                     match JS.or_null recoveryUrl with
                     | None => ret false
                     | Some url =>
                         let message := recovery_message cart store url in
                         do ok ← ask (λ t, whatsappSend env t phoneNumberId accessToken phone message);
                         if negb ok then ret false
                         else
                           do now ← ask (clock env);
                           prisma.cart.update cartId
                             (λ c, set_recoveryStatus (next_notified (recoveryStatus cart))
                                     (set_lastNotifiedAt now c));;
                           ret true
                     end
                 | _, _ => ret false
                 end
             end
         end
     end)
    (ret false).

Definition processRecovery (cartId : string) : M bool :=
  try_catch
    (do now ← ask (clock env);
     prisma.cart.update cartId
       (λ c, set_recoveredAt now (set_recoveryStatus RECOVERED c));;
     ret true)
    (ret false).

Definition has_status (s : RecoveryStatus) (c : Cart) : bool :=
  bool_decide (storeId c = this_storeId this)
  && bool_decide (recoveryStatus c = s).

(** [notified > 0 ? (recovered / notified) * 100 : 0] *)
Definition recoveryRate (recovered notified : nat) : JS.number :=
  if (0 <? notified)%nat
  then (JS.of_nat recovered / JS.of_nat notified * 100)%float
  else 0%float.

(** The callback of the revenue [reduce]. *)
Definition add_revenue (sum : JS.number) (cart : Cart) : JS.number :=
  let cartTotal :=
    if JS.truthy_onum (discountAmount cart)
    then (total cart - default 0%float (discountAmount cart))%float
    else total cart in
  (sum + cartTotal)%float.

Definition empty_stats : RecoveryStats :=
  {| stats_abandoned := 0; stats_notified := 0; stats_recovered := 0;
     stats_lost := 0; stats_recoveryRate := 0%float; stats_revenue := 0%float |}.

Definition getRecoveryStats : M RecoveryStats :=
  try_catch
    (do abandoned ← prisma.cart.count (has_status ABANDONED);
     do notifiedFirst ← prisma.cart.count (has_status NOTIFIED_FIRST);
     do notifiedFinal ← prisma.cart.count (has_status NOTIFIED_FINAL);
     do recovered ← prisma.cart.count (has_status RECOVERED);
     do lost ← prisma.cart.count (has_status LOST);
     let notified := (notifiedFirst + notifiedFinal)%nat in
     let recoveryRate := recoveryRate recovered notified in
     do recoveredCarts ← prisma.cart.findMany (has_status RECOVERED);
     let revenue := fold_left add_revenue (map snd recoveredCarts) 0%float in
     ret {| stats_abandoned := abandoned;
            stats_notified := notified;
            stats_recovered := recovered;
            stats_lost := lost;
            stats_recoveryRate := recoveryRate;
            stats_revenue := revenue |})
    (ret empty_stats).

End Methods.

End CartSyncService.

(* ===================================================================== *)
(** * The scheduled scan: [GET] of the cron route *)
(* ===================================================================== *)

Module Cron.

Record Results := {
  r_stores : nat;
  r_imported : nat;
  r_abandoned : nat;
  r_notified : nat;
  r_followUp : nat;
  r_recovered : nat;
  r_lost : nat;
  r_errors : nat;
}.

Definition no_results : Results :=
  {| r_stores := 0; r_imported := 0; r_abandoned := 0; r_notified := 0;
     r_followUp := 0; r_recovered := 0; r_lost := 0; r_errors := 0 |}.

(** The handler's state: the world and its local, mutable [results]. *)
Record State := { world : World; results : Results }.

Abbreviation H := (St State).

Definition lift {A} (m : M A) : H A :=
  λ s, let (o, w) := m (world s) in (o, {| world := w; results := results s |}).

Definition update_results (f : Results → Results) : H unit :=
  λ s, (Ret tt, {| world := world s; results := f (results s) |}).

Definition set_stores (n : nat) (r : Results) : Results :=
  {| r_stores := n; r_imported := r_imported r; r_abandoned := r_abandoned r;
     r_notified := r_notified r; r_followUp := r_followUp r;
     r_recovered := r_recovered r; r_lost := r_lost r; r_errors := r_errors r |}.
Definition add_imported (n : nat) (r : Results) : Results :=
  {| r_stores := r_stores r; r_imported := r_imported r + n; r_abandoned := r_abandoned r;
     r_notified := r_notified r; r_followUp := r_followUp r;
     r_recovered := r_recovered r; r_lost := r_lost r; r_errors := r_errors r |}.
Definition add_abandoned (n : nat) (r : Results) : Results :=
  {| r_stores := r_stores r; r_imported := r_imported r; r_abandoned := r_abandoned r + n;
     r_notified := r_notified r; r_followUp := r_followUp r;
     r_recovered := r_recovered r; r_lost := r_lost r; r_errors := r_errors r |}.
Definition add_notified (n : nat) (r : Results) : Results :=
  {| r_stores := r_stores r; r_imported := r_imported r; r_abandoned := r_abandoned r;
     r_notified := r_notified r + n; r_followUp := r_followUp r;
     r_recovered := r_recovered r; r_lost := r_lost r; r_errors := r_errors r |}.
Definition add_followUp (n : nat) (r : Results) : Results :=
  {| r_stores := r_stores r; r_imported := r_imported r; r_abandoned := r_abandoned r;
     r_notified := r_notified r; r_followUp := r_followUp r + n;
     r_recovered := r_recovered r; r_lost := r_lost r; r_errors := r_errors r |}.
Definition add_recovered (n : nat) (r : Results) : Results :=
  {| r_stores := r_stores r; r_imported := r_imported r; r_abandoned := r_abandoned r;
     r_notified := r_notified r; r_followUp := r_followUp r;
     r_recovered := r_recovered r + n; r_lost := r_lost r; r_errors := r_errors r |}.
Definition add_lost (n : nat) (r : Results) : Results :=
  {| r_stores := r_stores r; r_imported := r_imported r; r_abandoned := r_abandoned r;
     r_notified := r_notified r; r_followUp := r_followUp r;
     r_recovered := r_recovered r; r_lost := r_lost r + n; r_errors := r_errors r |}.
Definition add_errors (n : nat) (r : Results) : Results :=
  {| r_stores := r_stores r; r_imported := r_imported r; r_abandoned := r_abandoned r;
     r_notified := r_notified r; r_followUp := r_followUp r;
     r_recovered := r_recovered r; r_lost := r_lost r; r_errors := r_errors r + n |}.

Definition hours (n : Z) : Z := n * 60 * 60 * 1000.

(** The [where] filters of the three queries of a store's scan. *)
Definition abandoned_filter (store_id : string) (now : Time) (c : Cart) : bool :=
  bool_decide (storeId c = store_id)
  && bool_decide (updatedAt c < now - hours 1)
  && bool_decide (recoveryStatus c = NONE)
  && bool_decide (customerPhone c ≠ None).

Definition followUp_filter (store_id : string) (now : Time) (c : Cart) : bool :=
  bool_decide (storeId c = store_id)
  && bool_decide (recoveryStatus c = NOTIFIED_FIRST)
  && match lastNotifiedAt c with
     | Some t => bool_decide (t < now - hours 24)
     | None => false
     end
  && bool_decide (customerPhone c ≠ None).

Definition lost_filter (store_id : string) (now : Time) (c : Cart) : bool :=
  bool_decide (storeId c = store_id)
  && bool_decide (recoveryStatus c = NOTIFIED_FINAL)
  && match lastNotifiedAt c with
     | Some t => bool_decide (t < now - hours 48)
     | None => false
     end.

Section Handler.
Variable env : Env.

(** 2. the carts inactive for more than an hour are marked abandoned and
    get their first message. *)
Definition processAbandoned (svc : CartSyncService.t) (store_id : string) : H unit :=
  do now ← lift (ask (clock env));
  do abandonedCarts ← lift (prisma.cart.findMany (abandoned_filter store_id now));
  update_results (add_abandoned (length abandonedCarts));;
  for_each abandonedCarts
    (λ row,
       try_catch
         (do now ← lift (ask (clock env));
          lift (prisma.cart.update row.1
                  (λ c, set_recoveryStatus ABANDONED (set_abandonedAt now c)));;
          if JS.truthy_ostr (customerPhone row.2) then
            do sent ← lift (CartSyncService.sendCartRecoveryMessage env svc row.1);
            if sent then update_results (add_notified 1) else ret tt
          else ret tt)
         (update_results (add_errors 1))).

(** 3. the carts notified more than 24 hours ago get the final message. *)
Definition processFollowUp (svc : CartSyncService.t) (store_id : string) : H unit :=
  do now ← lift (ask (clock env));
  do followUpCarts ← lift (prisma.cart.findMany (followUp_filter store_id now));
  update_results (add_followUp (length followUpCarts));;
  for_each followUpCarts
    (λ row,
       try_catch
         (if JS.truthy_ostr (customerPhone row.2) then
            do sent ← lift (CartSyncService.sendCartRecoveryMessage env svc row.1);
            if sent then update_results (add_notified 1) else ret tt
          else ret tt)
         (update_results (add_errors 1))).

(** 4. the carts whose final message is more than 48 hours old are lost. *)
Definition markLost (store_id : string) : H unit :=
  do now ← lift (ask (clock env));
  do count ← lift (prisma.cart.updateMany (lost_filter store_id now)
                     (set_recoveryStatus LOST));
  update_results (add_lost count).

(** The body of the loop over the stores. *)
Definition processStore (store_id : string) : H unit :=
  try_catch
    (do init ← lift (CartSyncService.initialize (CartSyncService.new store_id));
     if negb init.1 then update_results (add_errors 1)
     else
       let cartSyncService := init.2 in
       do importedCount ← lift (CartSyncService.importAbandonedCarts env cartSyncService);
       update_results (add_imported importedCount);;
       processAbandoned cartSyncService store_id;;
       processFollowUp cartSyncService store_id;;
       markLost store_id;;
       do stats ← lift (CartSyncService.getRecoveryStats cartSyncService);
       update_results (add_recovered (stats_recovered stats)))
    (update_results (add_errors 1)).

Definition eligible_store (s : Store) : bool :=
  isActive s
  && bool_decide (shopifyAccessToken s ≠ None)
  && bool_decide (shopifyStoreUrl s ≠ None).

Inductive Response :=
| Completed (duration_ms : Z) (results : Results) (timestamp : Time)
| Failed.

Definition scan : H Response :=
  try_catch
    (do startTime ← lift (ask (clock env));
     do stores ← lift (prisma.store.findMany eligible_store);
     update_results (set_stores (length stores));;
     for_each stores (λ store, processStore store.1);;
     do endTime ← lift (ask (clock env));
     do timestamp ← lift (ask (clock env));
     λ s, (Ret (Completed (endTime - startTime) (results s) timestamp), s))
    (ret Failed).

Definition GET : M Response :=
  λ w, let (o, s) := scan {| world := w; results := no_results |} in (o, world s).

End Handler.

End Cron.

(* ===================================================================== *)
(** * The manual recovery endpoint: [GET] of the recovery route *)
(* ===================================================================== *)

Module Recover.

Record Request := {
  param_cartId : option string;
  param_code : option string;
}.

(** [NextResponse.json({ error }, { status })] and
    [NextResponse.redirect(url)]. *)
Inductive Response :=
| Json (status : nat) (error : string)
| Redirect (url : string).

(** [code && cart.discountCode && code !== cart.discountCode] *)
Definition code_mismatch (code : option string) (cart : Cart) : bool :=
  match JS.or_null code, JS.or_null (discountCode cart) with
  | Some given, Some expected => bool_decide (given ≠ expected)
  | _, _ => false
  end.

Section Handler.
Variable env : Env.

Definition GET (request : Request) : M Response :=
  try_catch
    (match JS.or_null (param_cartId request) with
     | None => ret (Json 400 "Cart ID is required")
     | Some cartId =>
         do cart ← prisma.cart.findUnique cartId;
         match cart with
         | None => ret (Json 404 "Cart not found")
         | Some cart =>
             if code_mismatch (param_code request) cart
             then ret (Json 400 "Invalid discount code")
             else
               do init ← CartSyncService.initialize (CartSyncService.new (storeId cart));
               if negb init.1
               then ret (Json 500 "Failed to initialize cart sync service")
               else
                 let cartSyncService := init.2 in
                 do recovered ← CartSyncService.processRecovery env cartId;
                 if negb recovered
                 then ret (Json 500 "Failed to process recovery")
                 else
                   do recoveryUrl ← CartSyncService.getCartRecoveryUrl env cartSyncService cartId;
                   match JS.or_null recoveryUrl with
                   | None => ret (Json 500 "Failed to get recovery URL")
                   | Some url =>
                       (* [redirect] throws on a URL that [new URL] rejects *)
                       if absoluteUrl env url then ret (Redirect url) else throw
                   end
         end
     end)
    (ret (Json 500 "Internal server error")).

End Handler.

End Recover.

(* ===================================================================== *)
(** * The synchronisation route: [POST] and [GET] of the sync route *)
(* ===================================================================== *)

Module SyncRoute.

(** The JSON body of [POST]; a body that does not parse is [None] where the
    handler takes it. *)
Record Body := {
  body_cartId : option string;
  body_storeId : option string;
}.

(** The query of [GET]. *)
Record Query := {
  param_storeId : option string;
  param_action : option string;
}.

Inductive Response :=
| Json (status : nat) (error : string)
| Synced (shopifyCartId : string)
| Imported (imported : nat)
| Stats (stats : RecoveryStats)
| Carts (carts : list Checkout).

Section Handler.
Variable env : Env.

Definition POST (request : option Body) : M Response :=
  try_catch
    (match request with
     | None => throw
     | Some body =>
         match JS.or_null (body_cartId body), JS.or_null (body_storeId body) with
         | Some cartId, Some storeId =>
             do init ← CartSyncService.initialize (CartSyncService.new storeId);
             if negb init.1
             then ret (Json 500 "Failed to initialize cart sync service. Shopify integration may not be configured.")
             else
               let cartSyncService := init.2 in
               do shopifyCartId ← CartSyncService.syncCartToShopify env cartSyncService cartId;
               match JS.or_null shopifyCartId with
               | None => ret (Json 500 "Failed to sync cart to Shopify")
               | Some id => ret (Synced id)
               end
         | _, _ => ret (Json 400 "Cart ID and Store ID are required")
         end
     end)
    (ret (Json 500 "Internal server error")).

Definition GET (request : Query) : M Response :=
  try_catch
    (match JS.or_null (param_storeId request) with
     | None => ret (Json 400 "Store ID is required")
     | Some storeId =>
         do init ← CartSyncService.initialize (CartSyncService.new storeId);
         if negb init.1
         then ret (Json 500 "Failed to initialize cart sync service. Shopify integration may not be configured.")
         else
           let cartSyncService := init.2 in
           if bool_decide (param_action request = Some "import") then
             do importedCount ← CartSyncService.importAbandonedCarts env cartSyncService;
             ret (Imported importedCount)
           else if bool_decide (param_action request = Some "stats") then
             do stats ← CartSyncService.getRecoveryStats cartSyncService;
             ret (Stats stats)
           else
             do abandonedCarts ← CartSyncService.getAbandonedCarts env cartSyncService;
             ret (Carts abandonedCarts)
     end)
    (ret (Json 500 "Internal server error")).

End Handler.

End SyncRoute.

(* ===================================================================== *)
(** * Specification vocabulary *)
(* ===================================================================== *)

(** [keeps I m]: running [m] from a state in [I] ends in [I], whether [m]
    returns or throws. *)
Definition keeps {S A} (I : S → Prop) (m : St S A) : Prop :=
  ∀ s, I s → I (m s).2.

(** [returns m]: [m] never throws. *)
Definition returns {S A} (m : St S A) : Prop :=
  ∀ s, ∃ a, (m s).1 = Ret a.

(** The row of cart [k]. *)
Definition cart_at (w : World) (k : string) : option Cart := carts (db w) !! k.

(** Item mapping, local to remote, in the words of the design: each item
    whose product has a mapping for the store becomes a remote line; the
    others are dropped. *)
Definition to_remote_items (d : DB) (store_id : string)
    (items : list MetastoreCartItem) : list ShopifyCartItem :=
  omap (λ item,
          pm ← List.find (λ pm, bool_decide (metastoreProductId pm = item_id item)
                                && bool_decide (mapping_storeId pm = store_id))
                         (productMappings d);
          Some {| merchandiseId := shopifyVariantId pm;
                  quantity := item_quantity item |})
       items.

(** The mapping the record store answers for a variant of the store. *)
Definition mapping_of (d : DB) (store_id variant : string) : option ProductMapping :=
  List.find (λ pm, bool_decide (shopifyVariantId pm = variant)
                   && bool_decide (mapping_storeId pm = store_id))
            (productMappings d).

(** Item mapping, remote to local: a line item resolves to a local item when
    it names a variant, the variant has a mapping for the store and the mapped
    product exists.  The items of a record are those its lines resolve to;
    one line without a variant id and the whole record maps to nothing. *)
Definition resolve_line (d : DB) (store_id : string) (item : LineItem)
  : option MetastoreCartItem :=
  variant ← variant_id item;
  pm ← mapping_of d store_id variant;
  p ← products d !! metastoreProductId pm;
  Some {| item_id := metastoreProductId pm;
          item_name := product_name p;
          item_price := product_price p;
          item_quantity := line_quantity item;
          item_image := JS.or_null (head (product_images p)) |}.

Definition to_local_items (d : DB) (store_id : string)
    (lineItems : list LineItem) : list MetastoreCartItem :=
  if forallb (λ item, bool_decide (is_Some (variant_id item))) lineItems
  then omap (resolve_line d store_id) lineItems
  else [].

(** The dedup key of an import: (store, remote id). *)
Definition imported_as (store_id remote_id : string) (c : Cart) : bool :=
  bool_decide (shopifyCartId c = Some remote_id)
  && bool_decide (storeId c = store_id).

(** How many local carts of the store carry the remote id. *)
Definition copies (store_id remote_id : string) (w : World) : nat :=
  length (prisma.rows (imported_as store_id remote_id) (carts (db w))).

(** Two rows that differ at most in their remote cart id. *)
Definition same_but_remote (c c' : Cart) : Prop :=
  c' = c ∨ ∃ r, c' = set_shopifyCartId r c.

(** Cart [k] is still the row [c], up to its remote cart id. *)
Definition still (k : string) (c : Cart) (w : World) : Prop :=
  ∃ c', cart_at w k = Some c' ∧ same_but_remote c c'.

(** Everything but the cart table and the tick is as in [w0]. *)
Definition same_catalog (w0 w : World) : Prop :=
  stores (db w) = stores (db w0)
  ∧ products (db w) = products (db w0)
  ∧ productMappings (db w) = productMappings (db w0).

(** Sync, in the words of the design.  [persist_remote_id] writes a newly
    created remote id onto the local cart; [create_remote] is the creation
    path; [sync_spec] tries the update in place first when the cart has a
    remote id and falls back to creation when the update fails. *)
Definition persist_remote_id (cartId : string) (cart : Cart)
    (created : option string) (d : DB) : DB :=
  match JS.or_null created with
  | Some r => set_carts (<[cartId := set_shopifyCartId r cart]> (carts d)) d
  | None => d
  end.

Definition create_remote (env : Env) (store_id cartId : string) (cart : Cart)
    (w : World) : Outcome (option string) * World :=
  let created :=
    cartCreate env (tick w) (to_remote_items (db w) store_id (items cart))
      (JS.or_null (customerEmail cart)) (JS.or_null (customerPhone cart)) in
  (Ret created,
   {| db := persist_remote_id cartId cart created (db w); tick := S (tick w) |}).

Definition sync_spec (env : Env) (store_id cartId : string) (w : World)
  : Outcome (option string) * World :=
  match cart_at w cartId with
  | None => (Ret None, w)
  | Some cart =>
      match JS.or_null (shopifyCartId cart) with
      | Some r =>
          if cartLinesUpdate env (tick w) r (to_remote_items (db w) store_id (items cart))
          then (Ret (Some r), {| db := db w; tick := S (tick w) |})
          else create_remote env store_id cartId cart {| db := db w; tick := S (tick w) |}
      | None => create_remote env store_id cartId cart w
      end
  end.

(** The only write of a synchronisation: between [w] and [w'] time went on
    and nothing changed in the record store, or cart [k] received a new
    remote id. *)
Definition remote_id_written (k : string) (w w' : World) : Prop :=
  (tick w ≤ tick w')%nat
  ∧ (db w' = db w
     ∨ ∃ c r, cart_at w k = Some c
              ∧ db w' = set_carts (<[k := set_shopifyCartId r c]> (carts (db w))) (db w)).

(** Between [w] and [w'] time went on and no row other than cart [k]
    changed. *)
Definition frame (k : string) (w w' : World) : Prop :=
  same_catalog w w'
  ∧ (tick w ≤ tick w')%nat
  ∧ ∀ k', k' ≠ k → cart_at w' k' = cart_at w k'.

(** The sum of a list of numbers, taken in order from 0, and the amount of
    one line: unit price times quantity. *)
Definition sum_numbers (xs : list JS.number) : JS.number :=
  fold_left (λ sum x, (sum + x)%float) xs 0%float.

Definition line_total (item : MetastoreCartItem) : JS.number :=
  (item_price item * item_quantity item)%float.

(** Import of one remote record, in the words of the design: skipped when a
    local cart of the store carries its remote id, skipped when none of its
    line items is resolvable, otherwise created under the id the record store
    generates (a duplicate key throws). *)
Definition import_spec (env : Env) (this : CartSyncService.t) (n : nat)
    (checkout : Checkout) (w : World) : Outcome nat * World :=
  let store_id := CartSyncService.this_storeId this in
  if decide (copies store_id (checkout_id checkout) w = 0%nat) then
    match to_local_items (db w) store_id (line_items checkout) with
    | [] => (Ret n, w)
    | cartItems =>
        let id := newCartId env (S (tick w)) in
        let row := CartSyncService.imported_cart this (clock env (tick w))
                     checkout cartItems in
        match cart_at w id with
        | Some _ => (Throw, {| db := db w; tick := S (S (tick w)) |})
        | None => (Ret (S n), {| db := set_carts (<[id := row]> (carts (db w))) (db w);
                                  tick := S (S (tick w)) |})
        end
    end
  else (Ret n, w).

(** The service carries a platform URL: [initialize] succeeded on it. *)
Definition initialized (this : CartSyncService.t) : Prop :=
  is_Some (CartSyncService.this_shopifyStoreUrl this).

#[global] Instance initialized_dec this : Decision (initialized this).
Proof. unfold initialized. apply _. Defined.





(** The platform credentials of store [store_id] are present, and the
    messaging credentials of a store are present. *)
Definition shopify_configured (w : World) (store_id : string) : bool :=
  match stores (db w) !! store_id with
  | Some st => JS.truthy_ostr (shopifyAccessToken st)
               && JS.truthy_ostr (shopifyStoreUrl st)
  | None => false
  end.

Definition messaging_configured (st : Store) : bool :=
  JS.truthy_ostr (whatsappPhoneNumberId st)
  && JS.truthy_ostr (whatsappAccessToken st).

(** [importAbandonedCarts], run [times] times in a row. *)
Fixpoint import_times (env : Env) (this : CartSyncService.t) (times : nat)
    (w : World) : World :=
  match times with
  | O => w
  | S n => import_times env this n (CartSyncService.importAbandonedCarts env this w).2
  end.

(** The clock never runs backwards. *)
Definition clock_monotone (env : Env) : Prop :=
  ∀ a b : nat, (a ≤ b)%nat → clock env a ≤ clock env b.

(** Cart [k] is the row [c] and the tick counter has not gone below [t0]. *)
Definition unchanged_since (k : string) (c : Cart) (t0 : nat) (w : World) : Prop :=
  cart_at w k = Some c ∧ (t0 ≤ tick w)%nat.

(** The service object a successful [initialize] leaves for store [store_id]. *)
Definition service_of (w : World) (store_id : string) : CartSyncService.t :=
  match stores (db w) !! store_id with
  | Some st =>
      {| CartSyncService.this_storeId := store_id;
         CartSyncService.this_shopifyAccessToken := shopifyAccessToken st;
         CartSyncService.this_shopifyStoreUrl := shopifyStoreUrl st |}
  | None => CartSyncService.new store_id
  end.

(** The row [processRecovery] writes at time [now]. *)
Definition recovered_row (now : Time) (c : Cart) : Cart :=
  set_recoveredAt now (set_recoveryStatus RECOVERED c).

(** Cart [k] exists and its row satisfies [Q]. *)
Definition row_satisfies (Q : Cart → Prop) (k : string) (w : World) : Prop :=
  ∃ c, cart_at w k = Some c ∧ Q c.

(** [Q] survives every write the engine and the scan make to a row: a new
    remote id, a notification, the detection of abandonment, expiry and
    recovery. *)
Definition advancing (Q : Cart → Prop) : Prop :=
  ∀ c, Q c →
    (∀ r, Q (set_shopifyCartId r c))
    ∧ (∀ s t, s ≠ NONE → Q (set_recoveryStatus s (set_lastNotifiedAt t c)))
    ∧ (∀ t, Q (set_recoveryStatus ABANDONED (set_abandonedAt t c)))
    ∧ Q (set_recoveryStatus LOST c)
    ∧ (∀ t, Q (set_recoveredAt t (set_recoveryStatus RECOVERED c))).

(** Cart [k] exists, and cart [k] exists in a status other than [NONE]. *)
Definition alive (k : string) (w : World) : Prop := row_satisfies (λ _, True) k w.

Definition past_none (k : string) (w : World) : Prop :=
  row_satisfies (λ c, recoveryStatus c ≠ NONE) k w.

(** [effect R m]: the states before and after [m] are related by [R], whether
    [m] returns or throws. *)
Definition effect {S A} (R : S → S → Prop) (m : St S A) : Prop :=
  ∀ s, R s (m s).2.

(** Between [w] and [w'] stores, products and mappings did not change, no
    cart was deleted or moved to another store, and no cart that had left
    [NONE] went back to it. *)
Definition never_regresses (w w' : World) : Prop :=
  same_catalog w w'
  ∧ ∀ k c, cart_at w k = Some c →
      ∃ c', cart_at w' k = Some c' ∧ storeId c' = storeId c
            ∧ (recoveryStatus c ≠ NONE → recoveryStatus c' ≠ NONE).

(** The same for the state of the scan, whose count of stores is not touched
    after it is set. *)
Definition scan_effect (s s' : Cron.State) : Prop :=
  never_regresses (Cron.world s) (Cron.world s')
  ∧ Cron.r_stores (Cron.results s') = Cron.r_stores (Cron.results s).



(** From tick [t0] on, whatever the clock reads, none of the three filters of
    the scan of [store_id] selects the row [c]. *)
Definition never_selected (env : Env) (store_id : string) (t0 : nat) (c : Cart) : Prop :=
  ∀ tk, (t0 ≤ tk)%nat →
    Cron.abandoned_filter store_id (clock env tk) c = false
    ∧ Cron.followUp_filter store_id (clock env tk) c = false
    ∧ Cron.lost_filter store_id (clock env tk) c = false.

(** The carts of a store, and those of them in a given status. *)
Definition of_store (store_id : string) (c : Cart) : bool :=
  bool_decide (storeId c = store_id).

Definition carts_of (store_id : string) (w : World) : list (string * Cart) :=
  prisma.rows (of_store store_id) (carts (db w)).

Definition in_status (store_id : string) (s : RecoveryStatus) (w : World) : nat :=
  length (prisma.rows
            (CartSyncService.has_status (CartSyncService.new store_id) s)
            (carts (db w))).

(** A row that [importAbandonedCarts] of store [store_id] may have created. *)
Definition fresh_import (d : DB) (store_id : string) (c : Cart) : Prop :=
  storeId c = store_id
  ∧ recoveryStatus c = ABANDONED
  ∧ items c ≠ []
  ∧ total c = sum_numbers (map line_total (items c))
  ∧ (∃ remote_id, shopifyCartId c = Some remote_id)
  ∧ lastNotifiedAt c = None ∧ recoveredAt c = None
  ∧ discountCode c = None ∧ discountAmount c = None
  ∧ ∀ item, item ∈ items c →
      ∃ p, products d !! item_id item = Some p
           ∧ item_name item = product_name p ∧ item_price item = product_price p.

(** The mappings of a store are one-to-one on variants: two mappings of the
    store with the same variant name the same product. *)
Definition variants_unique (d : DB) (store_id : string) : Prop :=
  ∀ pm pm', pm ∈ productMappings d → pm' ∈ productMappings d →
    mapping_storeId pm = store_id → mapping_storeId pm' = store_id →
    shopifyVariantId pm = shopifyVariantId pm' →
    metastoreProductId pm = metastoreProductId pm'.

(** The line of a checkout listing that carries a remote cart line. *)
Definition as_line_item (l : ShopifyCartItem) : LineItem :=
  {| variant_id := Some (merchandiseId l); line_quantity := quantity l |}.

(** An item whose product has a mapping for the store, and the remote line
    such an item is sent as: its quantity, under the variant of a mapping of
    its product for the store. *)
Definition mapped (d : DB) (store_id : string) (item : MetastoreCartItem) : Prop :=
  Exists (λ pm, metastoreProductId pm = item_id item ∧ mapping_storeId pm = store_id)
         (productMappings d).

Definition sent_as (d : DB) (store_id : string) (l : ShopifyCartItem)
    (item : MetastoreCartItem) : Prop :=
  quantity l = item_quantity item
  ∧ ∃ pm, pm ∈ productMappings d
          ∧ metastoreProductId pm = item_id item
          ∧ mapping_storeId pm = store_id
          ∧ merchandiseId l = shopifyVariantId pm.

(** A line that names a variant whose mapping for the store leads to an
    existing product, and the local item such a line is received as: that
    product, with its name and price and the quantity of the line. *)
Definition resolvable (d : DB) (store_id : string) (line : LineItem) : Prop :=
  ∃ variant pm,
    variant_id line = Some variant
    ∧ mapping_of d store_id variant = Some pm
    ∧ is_Some (products d !! metastoreProductId pm).

Definition received_as (d : DB) (store_id : string) (item : MetastoreCartItem)
    (line : LineItem) : Prop :=
  item_quantity item = line_quantity line
  ∧ ∃ pm p, pm ∈ productMappings d
            ∧ variant_id line = Some (shopifyVariantId pm)
            ∧ mapping_storeId pm = store_id
            ∧ item_id item = metastoreProductId pm
            ∧ products d !! item_id item = Some p
            ∧ item_name item = product_name p
            ∧ item_price item = product_price p.

#[global] Instance mapped_dec d store_id item : Decision (mapped d store_id item).
Proof. unfold mapped. apply _. Defined.

#[global] Instance resolvable_dec d store_id line : Decision (resolvable d store_id line).
Proof.
  unfold resolvable.
  destruct (variant_id line) as [variant|]; [|right; by intros (? & ? & ? & _)].
  destruct (mapping_of d store_id variant) as [pm|] eqn:Hm;
    [|right; intros (v & pm & [= <-] & H & _); congruence].
  destruct (decide (is_Some (products d !! metastoreProductId pm))) as [Hp|Hp].
  - left. by exists variant, pm.
  - right. intros (v & pm' & [= <-] & H & Hp'). rewrite Hm in H. by injection H as <-.
Defined.

(** The ticks do not go backwards between two states of the scan. *)
Definition time_goes_on (s s' : Cron.State) : Prop :=
  (tick (Cron.world s) ≤ tick (Cron.world s'))%nat.

(* ===================================================================== *)
(** * Sample data *)
(* ===================================================================== *)

Module Sample.

Definition T0 : Time := 1700000000000.

Definition remote_cart (id : string) : ShopifyCart :=
  {| shopify_id := id; lines := []; buyer_email := None; buyer_phone := None;
     cost_amount := Some "100.0"; discountCodes := [] |}.

Definition checkout : Checkout :=
  {| checkout_id := "9001"; created_at := T0 - 7200000; updated_at := T0 - 3600000;
     checkout_email := Some "ann@example.org"; checkout_phone := Some "+15550100";
     customer_first_name := Some "Ann"; customer_last_name := None;
     line_items := [ {| variant_id := Some "v-1"; line_quantity := 2%float |};
                     {| variant_id := Some "v-unmapped"; line_quantity := 1%float |} ] |}.

(** A record with a mapped line and a line without variant id (a custom
    item), and a record with no resolvable line. *)
Definition custom_checkout : Checkout :=
  {| checkout_id := "9002"; created_at := T0 - 7200000; updated_at := T0 - 3600000;
     checkout_email := None; checkout_phone := Some "+15550101";
     customer_first_name := None; customer_last_name := None;
     line_items := [ {| variant_id := Some "v-1"; line_quantity := 1%float |};
                     {| variant_id := None; line_quantity := 1%float |} ] |}.

Definition unknown_checkout : Checkout :=
  {| checkout_id := "9003"; created_at := T0 - 7200000; updated_at := T0 - 3600000;
     checkout_email := None; checkout_phone := Some "+15550102";
     customer_first_name := None; customer_last_name := None;
     line_items := [ {| variant_id := Some "v-unmapped"; line_quantity := 1%float |} ] |}.

(** A remote platform whose in-place update fails and whose creation works;
    the clock advances by one millisecond per tick. *)
Definition env : Env :=
  {| clock := λ t, T0 + Z.of_nat t;
     newCartId := λ _, "cart-new";
     cartCreate := λ _ _ _ _, Some "gid-2";
     cartLinesUpdate := λ _ _ _, false;
     cartQuery := λ _ id, Some (remote_cart id);
     checkoutUrlQuery := λ _ _, Some "https://shop.example/checkout?key=1";
     checkoutsQuery := λ _, [checkout];
     whatsappSend := λ _ _ _ _ _, true;
     absoluteUrl := String.prefix "https://" |}.

(** The same, with the remote cart lookup failing. *)
Definition env_down : Env :=
  {| clock := clock env; newCartId := newCartId env; cartCreate := cartCreate env;
     cartLinesUpdate := cartLinesUpdate env;
     cartQuery := λ _ _, None;
     checkoutUrlQuery := checkoutUrlQuery env; checkoutsQuery := λ _, [];
     whatsappSend := whatsappSend env; absoluteUrl := absoluteUrl env |}.

(** The same as [env], with a clock that stands still at [T0] and nothing to
    import. *)
Definition env_frozen : Env :=
  {| clock := λ _, T0; newCartId := newCartId env; cartCreate := cartCreate env;
     cartLinesUpdate := cartLinesUpdate env; cartQuery := cartQuery env;
     checkoutUrlQuery := checkoutUrlQuery env; checkoutsQuery := λ _, [];
     whatsappSend := whatsappSend env; absoluteUrl := absoluteUrl env |}.

(** The same as [env], with a platform that answers a checkout URL without
    scheme or host. *)
Definition env_relative : Env :=
  {| clock := clock env; newCartId := newCartId env; cartCreate := cartCreate env;
     cartLinesUpdate := cartLinesUpdate env; cartQuery := cartQuery env;
     checkoutUrlQuery := λ _ _, Some "/checkouts/cn/abc?key=1";
     checkoutsQuery := checkoutsQuery env;
     whatsappSend := whatsappSend env; absoluteUrl := absoluteUrl env |}.

Definition shop : Store :=
  {| name := "Shop"; isActive := true;
     shopifyAccessToken := Some "shpat"; shopifyStoreUrl := Some "https://shop.example";
     whatsappPhoneNumberId := Some "1234"; whatsappAccessToken := Some "wa-token" |}.

(** A store without any credentials, and one without messaging credentials. *)
Definition bare_shop : Store :=
  {| name := "Bare"; isActive := true;
     shopifyAccessToken := None; shopifyStoreUrl := None;
     whatsappPhoneNumberId := None; whatsappAccessToken := None |}.

Definition mute_shop : Store :=
  {| name := "Mute"; isActive := true;
     shopifyAccessToken := Some "shpat"; shopifyStoreUrl := Some "https://mute.example";
     whatsappPhoneNumberId := None; whatsappAccessToken := Some "wa-token" |}.

Definition mug : MetastoreCartItem :=
  {| item_id := "p-1"; item_name := "Mug"; item_price := 50%float; item_quantity := 2%float;
     item_image := None |}.

(** An item of a product without mapping. *)
Definition unlisted : MetastoreCartItem :=
  {| item_id := "p-0"; item_name := "Gift card"; item_price := 10%float;
     item_quantity := 1%float; item_image := None |}.

Definition cart (store_id : string) (status : RecoveryStatus)
    (notified : option Time) : Cart :=
  {| storeId := store_id; customerName := Some "Ann"; customerEmail := None;
     customerPhone := Some "+15550100"; items := [mug]; total := 100%float;
     createdAt := T0 - 900000000; updatedAt := T0 - 800000000;
     abandonedAt := Some (T0 - 700000000);
     recoveryStatus := status; lastNotifiedAt := notified; recoveredAt := None;
     discountCode := Some "SAVE15"; discountAmount := Some 15%float;
     shopifyCartId := Some "gid-1" |}.

(** A cart with a discount and nothing in it. *)
Definition empty_cart : Cart :=
  {| storeId := "s1"; customerName := None; customerEmail := None;
     customerPhone := Some "+15550100"; items := []; total := 0%float;
     createdAt := T0; updatedAt := T0; abandonedAt := None;
     recoveryStatus := ABANDONED; lastNotifiedAt := None; recoveredAt := None;
     discountCode := Some "SAVE10"; discountAmount := Some 5%float;
     shopifyCartId := Some "gid-3" |}.

Definition database : DB :=
  {| stores := {[ "s1" := shop; "s0" := bare_shop; "s2" := mute_shop ]};
     carts := {[ "c1" := cart "s1" ABANDONED None;
                 "c0" := cart "s0" ABANDONED None;
                 "c2" := cart "s2" ABANDONED None;
                 "c48" := cart "s1" NOTIFIED_FINAL (Some (T0 - Cron.hours 48));
                 "c49" := cart "s1" NOTIFIED_FINAL (Some (T0 - Cron.hours 49));
                 "c50" := cart "s1" LOST (Some (T0 - Cron.hours 50)) ]};
     products := {[ "p-1" := {| product_name := "Mug"; product_price := 50%float;
                                product_images := ["mug.png"] |} ]};
     productMappings := [ {| metastoreProductId := "p-1"; shopifyVariantId := "v-1";
                             mapping_storeId := "s1" |} ] |}.

Definition world : World := {| db := database; tick := 0 |}.

(** Five notified carts and two recovered ones. *)
Definition stats_world : World :=
  {| db := {| stores := {[ "s1" := shop ]};
              carts := {[ "n1" := cart "s1" NOTIFIED_FIRST (Some T0);
                          "n2" := cart "s1" NOTIFIED_FIRST (Some T0);
                          "n3" := cart "s1" NOTIFIED_FIRST (Some T0);
                          "n4" := cart "s1" NOTIFIED_FINAL (Some T0);
                          "n5" := cart "s1" NOTIFIED_FINAL (Some T0);
                          "r1" := cart "s1" RECOVERED (Some T0);
                          "r2" := cart "s1" RECOVERED (Some T0) ]};
              products := ∅; productMappings := [] |};
     tick := 0 |}.

Definition service : CartSyncService.t :=
  {| CartSyncService.this_storeId := "s1";
     CartSyncService.this_shopifyAccessToken := Some "shpat";
     CartSyncService.this_shopifyStoreUrl := Some "https://shop.example" |}.

End Sample.

(** A platform that lists three abandoned checkouts (one with a mapped line,
    one with a line without variant id, one with no mapped line), before a
    record store that numbers its keys. *)
Module ImportSample.

Definition env : Env :=
  {| clock := clock Sample.env;
     newCartId := λ t, "cart-" +:+ pretty t;
     cartCreate := cartCreate Sample.env;
     cartLinesUpdate := cartLinesUpdate Sample.env;
     cartQuery := cartQuery Sample.env;
     checkoutUrlQuery := checkoutUrlQuery Sample.env;
     checkoutsQuery := λ _, [Sample.checkout; Sample.custom_checkout;
                             Sample.unknown_checkout];
     whatsappSend := whatsappSend Sample.env;
     absoluteUrl := absoluteUrl Sample.env |}.

End ImportSample.

(** A record store for the scheduled scan: an idle cart nobody was told
    about, a cart whose first message has just been sent, a recovered cart,
    and an idle cart of another store. *)
Module ScanSample.

Definition world : World :=
  {| db := {| stores := stores Sample.database;
              carts := {[ "idle" := Sample.cart "s1" NONE None;
                          "fresh" := Sample.cart "s1" NOTIFIED_FIRST (Some Sample.T0);
                          "back" := Sample.cart "s1" RECOVERED None;
                          "other" := Sample.cart "s2" NONE None ]};
              products := products Sample.database;
              productMappings := productMappings Sample.database |};
     tick := 0 |}.

Definition state : Cron.State :=
  {| Cron.world := world; Cron.results := Cron.no_results |}.

End ScanSample.

(* ===================================================================== *)
(** * Reasoning rules for computations *)
(* ===================================================================== *)

Section Rules.
Context {S : Type}.
Implicit Types I : S → Prop.

Lemma keeps_ret {A} I (a : A) : keeps I (ret a).
Proof. by intros s Hs. Qed.

Lemma keeps_throw {A} I : keeps I (throw (A := A)).
Proof. by intros s Hs. Qed.

Lemma keeps_bind {A B} I (m : St S A) (k : A → St S B) :
  keeps I m → (∀ a, keeps I (k a)) → keeps I (bind m k).
Proof.
  intros Hm Hk s Hs. unfold bind. specialize (Hm s Hs).
  destruct (m s) as [[a|] s']; simpl in *; [by apply Hk | done].
Qed.

Lemma keeps_try_catch {A} I (m h : St S A) :
  keeps I m → keeps I h → keeps I (try_catch m h).
Proof.
  intros Hm Hh s Hs. unfold try_catch. specialize (Hm s Hs).
  destruct (m s) as [[a|] s']; simpl in *; [done | by apply Hh].
Qed.

Lemma keeps_for_of {A B} I (xs : list A) (body : B → A → St S B) acc :
  (∀ b x, x ∈ xs → keeps I (body b x)) → keeps I (for_of xs body acc).
Proof.
  revert acc. induction xs as [|x xs IH]; intros acc Hbody; simpl.
  - apply keeps_ret.
  - apply keeps_bind; [apply Hbody; left | intros b; apply IH].
    intros b' y Hy. apply Hbody. by right.
Qed.

Lemma keeps_for_each {A} I (xs : list A) (body : A → St S unit) :
  (∀ x, x ∈ xs → keeps I (body x)) → keeps I (for_each xs body).
Proof. intros Hb. apply keeps_for_of. intros _ x Hx. by apply Hb. Qed.

Lemma returns_ret {A} (a : A) : returns (S := S) (ret a).
Proof. intros s. by exists a. Qed.

Lemma returns_try_catch {A} (m h : St S A) : returns h → returns (try_catch m h).
Proof.
  intros Hh s. unfold try_catch.
  destruct (m s) as [[a|] s']; simpl; [by exists a | apply Hh].
Qed.

Lemma returns_bind {A B} (m : St S A) (k : A → St S B) :
  returns m → (∀ a, returns (k a)) → returns (bind m k).
Proof.
  intros Hm Hk s. unfold bind. destruct (Hm s) as [a Ha].
  destruct (m s) as [[a'|] s']; simpl in *; [apply Hk | done].
Qed.

Lemma returns_for_of {A B} (xs : list A) (body : B → A → St S B) acc :
  (∀ b x, returns (body b x)) → returns (for_of xs body acc).
Proof.
  intros Hb. revert acc. induction xs as [|x xs IH]; intros acc; simpl.
  - apply returns_ret.
  - apply returns_bind; [apply Hb | intros b; apply IH].
Qed.

(** What a computation that returns evaluates to. *)
Lemma returns_run {A} (m : St S A) s :
  returns m → ∃ a, m s = (Ret a, (m s).2).
Proof. intros Hm. destruct (Hm s) as [a Ha]. exists a. destruct (m s); simpl in *; by subst. Qed.

(** Running a sequence, or a guarded block, whose first part is known to
    return. *)
Lemma bind_run {A B} (m : St S A) (k : A → St S B) s a s' :
  m s = (Ret a, s') → bind m k s = k a s'.
Proof. intros E. unfold bind. by rewrite E. Qed.

Lemma try_catch_run {A} (m h : St S A) s a s' :
  m s = (Ret a, s') → try_catch m h s = (Ret a, s').
Proof. intros E. unfold try_catch. by rewrite E. Qed.

(** One turn of a loop. *)
Lemma for_of_cons {A B} (x : A) (xs : list A) (body : B → A → St S B) acc s :
  for_of (x :: xs) body acc s
  = match body acc x s with
    | (Ret acc', s') => for_of xs body acc' s'
    | (Throw, s') => (Throw, s')
    end.
Proof. reflexivity. Qed.

End Rules.

(** [run_read] steps over a leading read or oracle call, which evaluates by
    computation; [run_with lem] steps over a leading call whose run is given
    by the equation [lem]. *)
Ltac run_read := erewrite bind_run by reflexivity.
Tactic Notation "run_with" uconstr(lem) := erewrite bind_run by apply lem.

(** An invariant of the record store alone survives an oracle call. *)
Lemma keeps_ask {A} (I : World → Prop) (f : nat → A) :
  (∀ d t, I {| db := d; tick := t |} → I {| db := d; tick := S t |}) →
  keeps I (ask f).
Proof. intros HI [d t] Hw. simpl. by apply HI. Qed.

Lemma keeps_fetch {A} (I : World → Prop) this (f : nat → A) :
  (∀ d t, I {| db := d; tick := t |} → I {| db := d; tick := S t |}) →
  keeps I (CartSyncService.fetch this f).
Proof.
  intros HI. unfold CartSyncService.fetch.
  destruct (CartSyncService.this_shopifyStoreUrl this);
    [by apply keeps_ask | apply keeps_throw].
Qed.

(* ===================================================================== *)
(** * Item mapping *)
(* ===================================================================== *)

Section Mapping.
Variable this : CartSyncService.t.

Lemma to_remote_loop items acc w :
  for_of items (CartSyncService.mapMetastoreItem this) acc w
  = (Ret (acc ++ to_remote_items (db w) (CartSyncService.this_storeId this) items), w).
Proof.
  revert acc. induction items as [|item items IH]; intros acc; cbn [for_of].
  - unfold ret. by rewrite app_nil_r.
  - unfold bind at 1.
    replace (CartSyncService.mapMetastoreItem this acc item w)
      with (Ret (acc ++ to_remote_items (db w) (CartSyncService.this_storeId this) [item]), w).
    + rewrite IH, <- app_assoc. do 3 f_equal. simpl.
      by destruct (List.find _ (productMappings (db w))).
    + unfold CartSyncService.mapMetastoreItem, bind, prisma.productMapping.findFirst,
        get_db, ret; simpl.
      destruct (List.find _ (productMappings (db w))); simpl; [done|].
      by rewrite app_nil_r.
Qed.

(** The local-to-remote mapping reads the record store only and computes
    [to_remote_items]. *)
Lemma mapMetastoreItemsToShopify_run items w :
  CartSyncService.mapMetastoreItemsToShopify this items w
  = (Ret (to_remote_items (db w) (CartSyncService.this_storeId this) items), w).
Proof.
  unfold CartSyncService.mapMetastoreItemsToShopify, try_catch.
  by rewrite to_remote_loop.
Qed.

Lemma mapShopifyItem_run acc item w :
  CartSyncService.mapShopifyItem this acc item w
  = match variant_id item with
    | Some _ =>
        (Ret (acc ++ option_list
                       (resolve_line (db w) (CartSyncService.this_storeId this) item)), w)
    | None => (Throw, w)
    end.
Proof.
  unfold CartSyncService.mapShopifyItem, resolve_line, mapping_of.
  destruct (variant_id item) as [variant|]; [|done].
  unfold bind, prisma.productMapping.findFirst, prisma.product.findUnique, get_db, ret; simpl.
  destruct (List.find _ (productMappings (db w))) as [pm|]; simpl.
  - destruct (products (db w) !! metastoreProductId pm); simpl; [done|].
    by rewrite app_nil_r.
  - by rewrite app_nil_r.
Qed.

Lemma to_local_loop lineItems acc w :
  for_of lineItems (CartSyncService.mapShopifyItem this) acc w
  = if forallb (λ item, bool_decide (is_Some (variant_id item))) lineItems
    then (Ret (acc ++ omap (resolve_line (db w) (CartSyncService.this_storeId this))
                           lineItems), w)
    else (Throw, w).
Proof.
  revert acc. induction lineItems as [|item lineItems IH]; intros acc; cbn [for_of forallb].
  - unfold ret. by rewrite app_nil_r.
  - unfold bind at 1. rewrite mapShopifyItem_run.
    destruct (variant_id item) as [variant|] eqn:Hv; [|done].
    rewrite bool_decide_eq_true_2 by done. simpl. rewrite IH.
    destruct (forallb _ lineItems); [|done].
    rewrite <- app_assoc. do 3 f_equal.
    by destruct (resolve_line _ _ item).
Qed.

(** The remote-to-local mapping reads the record store only and computes
    [to_local_items]. *)
Lemma mapShopifyItemsToMetastore_run lineItems w :
  CartSyncService.mapShopifyItemsToMetastore this lineItems w
  = (Ret (to_local_items (db w) (CartSyncService.this_storeId this) lineItems), w).
Proof.
  unfold CartSyncService.mapShopifyItemsToMetastore, try_catch, to_local_items.
  rewrite to_local_loop. by destruct (forallb _ lineItems).
Qed.

End Mapping.

(* ===================================================================== *)
(** * Remote calls and cart synchronisation *)
(* ===================================================================== *)

Lemma world_eta w : {| db := db w; tick := tick w |} = w.
Proof. by destruct w. Qed.

Section Remote.
Variable env : Env.
Variable this : CartSyncService.t.

(** A platform request of an initialised service is answered by the platform;
    one of a service without URL is rejected and nothing happens. *)
Lemma fetch_run {A} (request : nat → A) w :
  initialized this →
  CartSyncService.fetch this request w
  = (Ret (request (tick w)), {| db := db w; tick := S (tick w) |}).
Proof. intros [url Hurl]. unfold CartSyncService.fetch. by rewrite Hurl. Qed.

Lemma fetch_rejected {A} (request : nat → A) w :
  ¬ initialized this → CartSyncService.fetch this request w = (Throw, w).
Proof.
  intros Hno. unfold CartSyncService.fetch.
  destruct (CartSyncService.this_shopifyStoreUrl this) eqn:Hurl; [|done].
  destruct Hno. by eexists.
Qed.

Lemma createShopifyCart_run items customerInfo w :
  initialized this →
  CartSyncService.createShopifyCart env this items customerInfo w
  = (Ret (cartCreate env (tick w)
            (to_remote_items (db w) (CartSyncService.this_storeId this) items)
            (customerInfo ≫= fst) (customerInfo ≫= snd)),
     {| db := db w; tick := S (tick w) |}).
Proof.
  intros Hon. unfold CartSyncService.createShopifyCart.
  erewrite try_catch_run; [done|].
  run_with mapMetastoreItemsToShopify_run. by apply fetch_run.
Qed.

Lemma createShopifyCart_rejected items customerInfo w :
  ¬ initialized this →
  CartSyncService.createShopifyCart env this items customerInfo w = (Ret None, w).
Proof.
  intros Hoff. unfold CartSyncService.createShopifyCart, try_catch.
  run_with mapMetastoreItemsToShopify_run. by rewrite fetch_rejected.
Qed.

Lemma updateShopifyCart_run shopifyCartId items w :
  initialized this →
  CartSyncService.updateShopifyCart env this shopifyCartId items w
  = (Ret (cartLinesUpdate env (tick w) shopifyCartId
            (to_remote_items (db w) (CartSyncService.this_storeId this) items)),
     {| db := db w; tick := S (tick w) |}).
Proof.
  intros Hon. unfold CartSyncService.updateShopifyCart.
  erewrite try_catch_run; [done|].
  run_with mapMetastoreItemsToShopify_run. by apply fetch_run.
Qed.

Lemma updateShopifyCart_rejected shopifyCartId items w :
  ¬ initialized this →
  CartSyncService.updateShopifyCart env this shopifyCartId items w = (Ret false, w).
Proof.
  intros Hoff. unfold CartSyncService.updateShopifyCart, try_catch.
  run_with mapMetastoreItemsToShopify_run. by rewrite fetch_rejected.
Qed.

Lemma getShopifyCart_run shopifyCartId w :
  initialized this →
  CartSyncService.getShopifyCart env this shopifyCartId w
  = (Ret (cartQuery env (tick w) shopifyCartId), {| db := db w; tick := S (tick w) |}).
Proof.
  intros Hon. unfold CartSyncService.getShopifyCart, try_catch. by rewrite fetch_run.
Qed.

Lemma getShopifyCart_rejected shopifyCartId w :
  ¬ initialized this →
  CartSyncService.getShopifyCart env this shopifyCartId w = (Ret None, w).
Proof.
  intros Hoff. unfold CartSyncService.getShopifyCart, try_catch. by rewrite fetch_rejected.
Qed.

Lemma getShopifyCheckoutUrl_run shopifyCartId w :
  initialized this →
  CartSyncService.getShopifyCheckoutUrl env this shopifyCartId w
  = (Ret (JS.or_null (checkoutUrlQuery env (tick w) shopifyCartId)),
     {| db := db w; tick := S (tick w) |}).
Proof.
  intros Hon. unfold CartSyncService.getShopifyCheckoutUrl, try_catch, bind.
  by rewrite fetch_run.
Qed.

Lemma getShopifyCheckoutUrl_rejected shopifyCartId w :
  ¬ initialized this →
  CartSyncService.getShopifyCheckoutUrl env this shopifyCartId w = (Ret None, w).
Proof.
  intros Hoff. unfold CartSyncService.getShopifyCheckoutUrl, try_catch, bind.
  by rewrite fetch_rejected.
Qed.

Lemma getAbandonedCarts_run w :
  initialized this →
  CartSyncService.getAbandonedCarts env this w
  = (Ret (checkoutsQuery env (tick w)), {| db := db w; tick := S (tick w) |}).
Proof.
  intros Hon. unfold CartSyncService.getAbandonedCarts, try_catch. by rewrite fetch_run.
Qed.

Lemma getAbandonedCarts_rejected w :
  ¬ initialized this → CartSyncService.getAbandonedCarts env this w = (Ret [], w).
Proof.
  intros Hoff. unfold CartSyncService.getAbandonedCarts, try_catch. by rewrite fetch_rejected.
Qed.

Lemma cart_update_run cartId data w c :
  cart_at w cartId = Some c →
  prisma.cart.update cartId data w
  = (Ret tt, {| db := set_carts (<[cartId := data c]> (carts (db w))) (db w);
                tick := tick w |}).
Proof.
  intros Hc. unfold prisma.cart.update, bind, get_db. simpl.
  unfold cart_at in Hc. by rewrite Hc.
Qed.

(** [syncCartToShopify] of an initialised service refines [sync_spec]. *)
Lemma syncCartToShopify_run cartId w :
  initialized this →
  CartSyncService.syncCartToShopify env this cartId w
  = sync_spec env (CartSyncService.this_storeId this) cartId w.
Proof.
  intros Hon.
  unfold CartSyncService.syncCartToShopify, sync_spec, try_catch.
  unfold bind at 1. unfold prisma.cart.findUnique at 1, bind at 1, get_db, ret at 1.
  simpl. unfold cart_at.
  destruct (carts (db w) !! cartId) as [cart|] eqn:Hc; [|done].
  assert (Hcreate : ∀ w1, cart_at w1 cartId = Some cart → db w1 = db w →
    (do shopifyCartId ← CartSyncService.createShopifyCart env this (items cart)
           (Some (JS.or_null (customerEmail cart), JS.or_null (customerPhone cart)));
     match shopifyCartId with
     | Some r =>
         if JS.truthy_str r
         then prisma.cart.update cartId (set_shopifyCartId r)
         else ret tt
     | None => ret tt
     end;;
     ret shopifyCartId) w1
    = create_remote env (CartSyncService.this_storeId this) cartId cart w1).
  { intros w1 Hc1 Hdb.
    erewrite bind_run by (by apply createShopifyCart_run).
    unfold create_remote, persist_remote_id, JS.or_null. simpl.
    destruct (cartCreate env _ _ _ _) as [r|]; simpl; [|done].
    destruct (JS.truthy_str r); [|done].
    erewrite bind_run; [done|]. by erewrite cart_update_run. }
  destruct (shopifyCartId cart) as [r|]; simpl.
  - change (JS.or_null (Some r)) with (if JS.truthy_str r then Some r else None).
    destruct (JS.truthy_str r) eqn:Hr; simpl.
    + erewrite bind_run by (by apply updateShopifyCart_run).
      destruct (cartLinesUpdate env _ _ _); [done|].
      rewrite Hcreate; [|done..].
      by unfold create_remote.
    + rewrite Hcreate; [|done..].
      by unfold create_remote.
  - rewrite Hcreate; [|done..].
    by unfold create_remote.
Qed.

(** On a service without URL both paths of the synchronisation fail: null,
    and nothing happens. *)
Lemma syncCartToShopify_rejected cartId w :
  ¬ initialized this →
  CartSyncService.syncCartToShopify env this cartId w = (Ret None, w).
Proof.
  intros Hoff. unfold CartSyncService.syncCartToShopify, try_catch.
  run_read. simpl.
  destruct (carts (db w) !! cartId) as [cart|]; [|done].
  assert (Hcreate :
    (do shopifyCartId ← CartSyncService.createShopifyCart env this (items cart)
           (Some (JS.or_null (customerEmail cart), JS.or_null (customerPhone cart)));
     match shopifyCartId with
     | Some r =>
         if JS.truthy_str r
         then prisma.cart.update cartId (set_shopifyCartId r)
         else ret tt
     | None => ret tt
     end;;
     ret shopifyCartId) w = (Ret None, w)).
  { erewrite bind_run by (by apply createShopifyCart_rejected). done. }
  destruct (shopifyCartId cart) as [r|]; simpl; [|by rewrite Hcreate].
  destruct (JS.truthy_str r); [|by rewrite Hcreate].
  erewrite bind_run by (by apply updateShopifyCart_rejected).
  cbv iota. by rewrite Hcreate.
Qed.

End Remote.

Section Effects.
Variable env : Env.
Variable this : CartSyncService.t.

Lemma remote_id_written_refl k w : remote_id_written k w w.
Proof. split; [done | by left]. Qed.

Lemma remote_id_written_tick k w w' t :
  (tick w' ≤ t)%nat →
  remote_id_written k w w' → remote_id_written k w {| db := db w'; tick := t |}.
Proof. intros Ht [Hle H]. split; [simpl; lia | done]. Qed.

Lemma remote_id_written_frame k w w' : remote_id_written k w w' → frame k w w'.
Proof.
  intros [Hle [E | (c & r & Hc & E)]]; unfold frame, same_catalog, cart_at; rewrite E.
  - done.
  - simpl. repeat split; try done. intros k' Hk'. by rewrite lookup_insert_ne.
Qed.

Lemma remote_id_written_still k c w w' :
  remote_id_written k w w' → cart_at w k = Some c → still k c w'.
Proof.
  intros [Hle [E | (c' & r & Hc & E)]] Hk; unfold still, cart_at in *; rewrite E.
  - exists c. split; [done | by left].
  - simpl. rewrite lookup_insert_eq. exists (set_shopifyCartId r c).
    split; [congruence|]. right. by exists r.
Qed.

(** A synchronisation returns, and writes at most the remote id of its cart. *)
Lemma sync_spec_effect cartId w :
  ∃ r w', sync_spec env (CartSyncService.this_storeId this) cartId w = (Ret r, w')
          ∧ remote_id_written cartId w w'.
Proof.
  unfold sync_spec.
  assert (Hcreate : ∀ cart t, (tick w ≤ t)%nat → cart_at w cartId = Some cart →
    ∃ r w', create_remote env (CartSyncService.this_storeId this) cartId cart
              {| db := db w; tick := t |} = (Ret r, w')
            ∧ remote_id_written cartId w w').
  { intros cart t Ht Hc. unfold create_remote, persist_remote_id. simpl.
    eexists _, _. split; [done|]. split; [simpl; lia|].
    destruct (JS.or_null _) as [r|]; [by right; exists cart, r | by left]. }
  destruct (cart_at w cartId) as [cart|] eqn:Hc.
  - destruct (JS.or_null (shopifyCartId cart)) as [r|].
    + destruct (cartLinesUpdate env _ _ _).
      * eexists _, _. split; [done|]. split; [simpl; lia | by left].
      * apply Hcreate; [lia | done].
    + specialize (Hcreate cart (tick w) (le_n _) eq_refl).
      by rewrite world_eta in Hcreate.
  - eexists _, _. split; [done | apply remote_id_written_refl].
Qed.

Lemma syncCartToShopify_effect cartId w :
  ∃ r w', CartSyncService.syncCartToShopify env this cartId w = (Ret r, w')
          ∧ remote_id_written cartId w w'.
Proof.
  destruct (decide (initialized this)) as [Hon|Hoff].
  - rewrite syncCartToShopify_run by done. apply sync_spec_effect.
  - rewrite syncCartToShopify_rejected by done.
    eexists _, _. split; [done | apply remote_id_written_refl].
Qed.

(** The two lookups of the recovery URL return and write nothing. *)
Lemma getShopifyCart_effect shopifyCartId w :
  ∃ r t, CartSyncService.getShopifyCart env this shopifyCartId w
         = (Ret r, {| db := db w; tick := t |}) ∧ (tick w ≤ t)%nat.
Proof.
  destruct (decide (initialized this)) as [Hon|Hoff].
  - rewrite getShopifyCart_run by done. eexists _, _. split; [done | lia].
  - rewrite getShopifyCart_rejected by done. exists None, (tick w).
    by rewrite world_eta.
Qed.

Lemma getShopifyCheckoutUrl_effect shopifyCartId w :
  ∃ r t, CartSyncService.getShopifyCheckoutUrl env this shopifyCartId w
         = (Ret r, {| db := db w; tick := t |}) ∧ (tick w ≤ t)%nat.
Proof.
  destruct (decide (initialized this)) as [Hon|Hoff].
  - rewrite getShopifyCheckoutUrl_run by done. eexists _, _. split; [done | lia].
  - rewrite getShopifyCheckoutUrl_rejected by done. exists None, (tick w).
    by rewrite world_eta.
Qed.

(** Obtaining the recovery URL returns, and writes at most the remote id of
    its cart. *)
Lemma getCartRecoveryUrl_effect cartId w :
  ∃ url w', CartSyncService.getCartRecoveryUrl env this cartId w = (Ret url, w')
            ∧ remote_id_written cartId w w'.
Proof.
  unfold CartSyncService.getCartRecoveryUrl, try_catch.
  run_read. simpl.
  destruct (carts (db w) !! cartId) as [cart|] eqn:Hc; simpl;
    [|eexists _, _; split; [done | apply remote_id_written_refl]].
  destruct (JS.or_null (shopifyCartId cart)) as [r|];
    [|eexists _, _; split; [done | apply remote_id_written_refl]].
  destruct (syncCartToShopify_effect cartId w) as (r' & w1 & Hs & Hw).
  run_with Hs.
  destruct (getShopifyCart_effect r w1) as (remote & t1 & Hq & Ht1).
  run_with Hq.
  destruct remote;
    [|eexists _, _; split; [done | apply remote_id_written_tick; [simpl; lia | done]]].
  destruct (getShopifyCheckoutUrl_effect r {| db := db w1; tick := t1 |})
    as (checkoutUrl & t2 & Hu & Ht2).
  run_with Hu. simpl in *.
  destruct (JS.or_null (discountCode cart)); [destruct (JS.or_null checkoutUrl)|];
    eexists _, _; (split; [done | apply remote_id_written_tick; [simpl; lia | done]]).
Qed.

(** On a service without URL every operation that needs the platform gives
    up, and nothing happens. *)
Lemma getCartRecoveryUrl_rejected cartId w :
  ¬ initialized this →
  CartSyncService.getCartRecoveryUrl env this cartId w = (Ret None, w).
Proof.
  intros Hoff. unfold CartSyncService.getCartRecoveryUrl, try_catch.
  run_read. simpl.
  destruct (carts (db w) !! cartId) as [cart|]; simpl; [|done].
  destruct (JS.or_null (shopifyCartId cart)) as [r|]; [|done].
  erewrite bind_run by (by apply syncCartToShopify_rejected).
  erewrite bind_run by (by apply getShopifyCart_rejected). done.
Qed.

Lemma sendCartRecoveryMessage_rejected cartId w :
  ¬ initialized this →
  CartSyncService.sendCartRecoveryMessage env this cartId w = (Ret false, w).
Proof.
  intros Hoff. unfold CartSyncService.sendCartRecoveryMessage, try_catch.
  run_read. simpl.
  destruct (carts (db w) !! cartId) as [cart|]; simpl; [|done].
  destruct (JS.or_null (customerPhone cart)) as [phone|]; [|done].
  run_read. simpl.
  destruct (stores (db w) !! storeId cart) as [store|]; simpl; [|done].
  destruct (JS.or_null (whatsappPhoneNumberId store)); [|done].
  destruct (JS.or_null (whatsappAccessToken store)); [|done].
  erewrite bind_run by (by apply getCartRecoveryUrl_rejected). done.
Qed.

(** The import of an initialised service: the loop over the listing the
    platform answers, a failure of which leaves the count at 0. *)
Lemma importAbandonedCarts_run w :
  initialized this →
  CartSyncService.importAbandonedCarts env this w
  = match for_of (checkoutsQuery env (tick w))
            (CartSyncService.importCheckout env this) 0%nat
            {| db := db w; tick := S (tick w) |} with
    | (Ret imported, w') => (Ret imported, w')
    | (Throw, w') => (Ret 0%nat, w')
    end.
Proof.
  intros Hon. unfold CartSyncService.importAbandonedCarts, try_catch.
  erewrite bind_run by (by apply getAbandonedCarts_run). done.
Qed.

Lemma importAbandonedCarts_rejected w :
  ¬ initialized this →
  CartSyncService.importAbandonedCarts env this w = (Ret 0%nat, w).
Proof.
  intros Hoff. unfold CartSyncService.importAbandonedCarts, try_catch.
  erewrite bind_run by (by apply getAbandonedCarts_rejected). done.
Qed.

End Effects.

Section Send.
Variable env : Env.
Variable this : CartSyncService.t.

(** What [sendCartRecoveryMessage] does to the record store: it returns; when
    it answers [true] it has written the next status, computed from the
    status it read on entry, and the clock reading of its last tick, onto the
    row it found, after at most a new remote id was written to that row;
    when it answers [false] at most the remote id was written. *)
Lemma sendCartRecoveryMessage_effect cartId w :
  ∃ sent w', CartSyncService.sendCartRecoveryMessage env this cartId w = (Ret sent, w')
    ∧ if sent
      then ∃ cart c1 w1,
             cart_at w cartId = Some cart
             ∧ remote_id_written cartId w w1
             ∧ cart_at w1 cartId = Some c1
             ∧ (tick w1 ≤ tick w')%nat
             ∧ db w' = set_carts
                         (<[cartId :=
                              set_recoveryStatus
                                (CartSyncService.next_notified (recoveryStatus cart))
                                (set_lastNotifiedAt (clock env (pred (tick w'))) c1)]>
                            (carts (db w1)))
                         (db w1)
      else remote_id_written cartId w w'.
Proof.
  unfold CartSyncService.sendCartRecoveryMessage, try_catch.
  run_read. simpl.
  destruct (carts (db w) !! cartId) as [cart|] eqn:Hc; simpl;
    [|exists false; eexists; split; [done | apply remote_id_written_refl]].
  destruct (JS.or_null (customerPhone cart)) as [phone|];
    [|exists false; eexists; split; [done | apply remote_id_written_refl]].
  run_read. simpl.
  destruct (stores (db w) !! storeId cart) as [store|]; simpl;
    [|exists false; eexists; split; [done | apply remote_id_written_refl]].
  destruct (JS.or_null (whatsappPhoneNumberId store)) as [phoneNumberId|];
    [|exists false; eexists; split; [done | apply remote_id_written_refl]].
  destruct (JS.or_null (whatsappAccessToken store)) as [accessToken|];
    [|exists false; eexists; split; [done | apply remote_id_written_refl]].
  destruct (getCartRecoveryUrl_effect env this cartId w) as (url & w1 & Hu & Hw).
  run_with Hu.
  destruct (JS.or_null url) as [u|];
    [|exists false; eexists; split; [done | done]].
  run_read. simpl.
  destruct (whatsappSend env (tick w1) phoneNumberId accessToken phone _); simpl;
    [|exists false; eexists; split; [done | apply remote_id_written_tick; [simpl; lia | done]]].
  run_read. simpl.
  destruct (remote_id_written_still _ _ _ _ Hw Hc) as (c1 & Hc1 & _).
  erewrite bind_run by (by apply (cart_update_run _ _ _ c1)).
  exists true. eexists. split; [done|]. simpl.
  exists cart, c1, w1. split_and!; [done | done | done | lia | done].
Qed.

(** [sendCartRecoveryMessage] leaves every other row alone. *)
Lemma sendCartRecoveryMessage_frame cartId w :
  frame cartId w (CartSyncService.sendCartRecoveryMessage env this cartId w).2.
Proof.
  destruct (sendCartRecoveryMessage_effect cartId w) as (sent & w' & E & H).
  rewrite E. simpl. destruct sent.
  - destruct H as (cart & c1 & w1 & Hc & Hw & Hc1 & Hle & Hdb).
    destruct (remote_id_written_frame _ _ _ Hw) as ((Hs & Hp & Hm) & Hle1 & Hf).
    unfold frame, same_catalog, cart_at in *. rewrite Hdb. simpl.
    repeat split; try done; [lia|]. intros k' Hk'. rewrite lookup_insert_ne by done.
    by apply Hf.
  - by apply remote_id_written_frame.
Qed.

End Send.

(* ===================================================================== *)
(** * Import of abandoned checkouts *)
(* ===================================================================== *)

Lemma rows_insert_fresh {V} (P : V → bool) (m : gmap string V) k v :
  m !! k = None →
  prisma.rows P (<[k := v]> m) ≡ₚ (if P v then [(k, v)] else []) ++ prisma.rows P m.
Proof.
  intros Hk. unfold prisma.rows.
  rewrite (map_to_list_insert m k v Hk). rewrite filter_cons. simpl.
  destruct (P v); by case_decide.
Qed.

Lemma rows_elem {V} (P : V → bool) (m : gmap string V) k v :
  (k, v) ∈ prisma.rows P m ↔ m !! k = Some v ∧ P v = true.
Proof.
  unfold prisma.rows. rewrite list_elem_of_filter, elem_of_map_to_list. simpl. tauto.
Qed.

Lemma copies_insert_fresh store_id remote_id w k c t :
  cart_at w k = None →
  copies store_id remote_id
    {| db := set_carts (<[k := c]> (carts (db w))) (db w); tick := t |}
  = ((if imported_as store_id remote_id c then 1 else 0)
     + copies store_id remote_id w)%nat.
Proof.
  intros Hk. unfold copies. simpl.
  rewrite (rows_insert_fresh _ _ _ _ Hk), length_app.
  by destruct (imported_as store_id remote_id c).
Qed.

Lemma cart_total_sum cartItems :
  CartSyncService.cart_total cartItems = sum_numbers (map line_total cartItems).
Proof.
  unfold CartSyncService.cart_total, sum_numbers.
  generalize 0%float. induction cartItems as [|item rest IH]; intros acc; simpl; [done|].
  apply IH.
Qed.

Section ImportStep.
Variable env : Env.
Variable this : CartSyncService.t.

Lemma cart_create_run c w :
  prisma.cart.create env c w
  = match cart_at w (newCartId env (tick w)) with
    | Some _ => (Throw, {| db := db w; tick := S (tick w) |})
    | None =>
        (Ret tt, {| db := set_carts (<[newCartId env (tick w) := c]> (carts (db w))) (db w);
                    tick := S (tick w) |})
    end.
Proof.
  unfold prisma.cart.create.
  run_read. run_read.
  unfold cart_at. simpl. by destruct (carts (db w) !! newCartId env (tick w)).
Qed.

(** One iteration of the import loop refines [import_spec]. *)
Lemma importCheckout_run n checkout w :
  CartSyncService.importCheckout env this n checkout w
  = import_spec env this n checkout w.
Proof.
  unfold CartSyncService.importCheckout, import_spec.
  run_read. simpl.
  unfold copies, imported_as.
  destruct (prisma.rows _ (carts (db w))) as [|row rows] eqn:Hrows; simpl.
  - run_with mapShopifyItemsToMetastore_run.
    destruct (to_local_items _ _ _) as [|item cartItems]; [done|]. simpl.
    run_read. simpl.
    unfold bind at 1. rewrite cart_create_run. simpl.
    unfold cart_at. simpl.
    by destruct (carts (db w) !! newCartId env (S (tick w))).
  - done.
Qed.

Lemma import_spec_frame n checkout w k c :
  cart_at w k = Some c → cart_at (import_spec env this n checkout w).2 k = Some c.
Proof.
  intros Hk. unfold import_spec. case_decide; [|done].
  destruct (to_local_items _ _ _); [done|].
  destruct (cart_at w (newCartId env (S (tick w)))) eqn:Hid; simpl; [done|].
  unfold cart_at in *. simpl. rewrite lookup_insert_ne; [done|]. congruence.
Qed.

Lemma import_spec_tick n checkout w :
  (tick w ≤ tick (import_spec env this n checkout w).2)%nat.
Proof.
  unfold import_spec. case_decide; [|done].
  destruct (to_local_items _ _ _); [done|].
  destruct (cart_at w (newCartId env (S (tick w)))); simpl; lia.
Qed.

(** However many copies there were, an import step never makes a second one. *)
Lemma import_spec_copies n checkout w remote_id :
  let w' := (import_spec env this n checkout w).2 in
  let before := copies (CartSyncService.this_storeId this) remote_id w in
  let after := copies (CartSyncService.this_storeId this) remote_id w' in
  (before = 0 → after ≤ 1)%nat ∧ (0 < before → after = before)%nat.
Proof.
  cbv zeta. unfold import_spec. case_decide as Hz; [|simpl; lia].
  destruct (to_local_items _ _ _) as [|item cartItems]; [simpl; lia|].
  destruct (cart_at w (newCartId env (S (tick w)))) eqn:Hid; simpl.
  { unfold copies in *. simpl. lia. }
  rewrite (copies_insert_fresh _ _ _ _ _ _ Hid).
  unfold imported_as. simpl.
  rewrite (bool_decide_eq_true_2 (_ = CartSyncService.this_storeId this)) by done.
  rewrite andb_true_r.
  case_bool_decide as Hr; simpl; [|lia].
  assert (remote_id = checkout_id checkout) as -> by congruence. lia.
Qed.

End ImportStep.

(* ===================================================================== *)
(** * The Recovery Engine: the properties of the design *)
(* ===================================================================== *)

Section Engine.
Variable env : Env.
Variable this : CartSyncService.t.

Lemma getRecoveryStats_run w :
  CartSyncService.getRecoveryStats this w
  = (Ret {| stats_abandoned :=
              length (prisma.rows (CartSyncService.has_status this ABANDONED) (carts (db w)));
            stats_notified :=
              length (prisma.rows (CartSyncService.has_status this NOTIFIED_FIRST) (carts (db w)))
              + length (prisma.rows (CartSyncService.has_status this NOTIFIED_FINAL) (carts (db w)));
            stats_recovered :=
              length (prisma.rows (CartSyncService.has_status this RECOVERED) (carts (db w)));
            stats_lost :=
              length (prisma.rows (CartSyncService.has_status this LOST) (carts (db w)));
            stats_recoveryRate :=
              CartSyncService.recoveryRate
                (length (prisma.rows (CartSyncService.has_status this RECOVERED) (carts (db w))))
                (length (prisma.rows (CartSyncService.has_status this NOTIFIED_FIRST) (carts (db w)))
                 + length (prisma.rows (CartSyncService.has_status this NOTIFIED_FINAL) (carts (db w))));
            stats_revenue :=
              fold_left CartSyncService.add_revenue
                (map snd (prisma.rows (CartSyncService.has_status this RECOVERED) (carts (db w))))
                0%float |}, w).
Proof. reflexivity. Qed.

(** C7. [getRecoveryStats] returns, without touching the record store, the
    recovery rate [recovered / notified * 100], where [notified] is the number
    of the store's carts in [NOTIFIED_FIRST] plus those in [NOTIFIED_FINAL]
    and [recovered] the number in [RECOVERED]; the rate is 0 when [notified]
    is 0 (the division is not evaluated), and 5 notified with 2 recovered
    give exactly 40. *)
Theorem C7_recovery_rate w :
  let count := λ s, length (prisma.rows (CartSyncService.has_status this s) (carts (db w))) in
  let notified := (count NOTIFIED_FIRST + count NOTIFIED_FINAL)%nat in
  let recovered := count RECOVERED in
  ∃ stats,
    CartSyncService.getRecoveryStats this w = (Ret stats, w)
    ∧ stats_notified stats = notified
    ∧ stats_recovered stats = recovered
    ∧ (notified = 0%nat → stats_recoveryRate stats = 0%float)
    ∧ ((0 < notified)%nat →
       stats_recoveryRate stats = (JS.of_nat recovered / JS.of_nat notified * 100)%float)
    ∧ (notified = 5%nat → recovered = 2%nat → stats_recoveryRate stats = 40%float).
Proof.
  intros count notified recovered. eexists. split; [apply getRecoveryStats_run|].
  simpl. fold (count NOTIFIED_FIRST) (count NOTIFIED_FINAL) (count RECOVERED).
  fold notified recovered. unfold CartSyncService.recoveryRate.
  split_and!; try done.
  - by intros ->.
  - intros Hn. by destruct notified; [lia|].
  - by intros -> ->.
Qed.

(** C3. When [sendCartRecoveryMessage] succeeds on a cart, the cart's status
    becomes [NOTIFIED_FIRST] if it was [ABANDONED] and [NOTIFIED_FINAL] from
    any other status, and its last-notified timestamp is the reading of the
    clock at the moment of the write. *)
Theorem C3_send_advances_status cartId w cart :
  cart_at w cartId = Some cart →
  (CartSyncService.sendCartRecoveryMessage env this cartId w).1 = Ret true →
  let w' := (CartSyncService.sendCartRecoveryMessage env this cartId w).2 in
  ∃ cart',
    cart_at w' cartId = Some cart'
    ∧ (recoveryStatus cart = ABANDONED → recoveryStatus cart' = NOTIFIED_FIRST)
    ∧ (recoveryStatus cart ≠ ABANDONED → recoveryStatus cart' = NOTIFIED_FINAL)
    ∧ recoveryStatus cart' ≠ ABANDONED ∧ recoveryStatus cart' ≠ NONE
    ∧ lastNotifiedAt cart' = Some (clock env (pred (tick w'))).
Proof.
  intros Hc Hsent.
  destruct (sendCartRecoveryMessage_effect env this cartId w) as (sent & w1 & E & H).
  rewrite E in *. simpl in *. injection Hsent as ->.
  destruct H as (cart0 & c1 & w0 & Hc0 & Hw & Hc1 & Hle & Hdb).
  assert (cart0 = cart) as -> by congruence.
  eexists. unfold cart_at. rewrite Hdb. simpl. rewrite lookup_insert_eq.
  split; [done|]. simpl. unfold CartSyncService.next_notified.
  split_and!; try done; intros; by case_decide.
Qed.


End Engine.

(** C2. A cart with a discount code, a discount amount of 5 and a total of 0:
    the percentage is not omitted from the discount sentence; the division by
    the zero total is evaluated and its result, infinity, is what the
    sentence shows. *)
Theorem C2_percentage_with_zero_total :
  total Sample.empty_cart = 0%float
  ∧ discountAmount Sample.empty_cart = Some 5%float
  ∧ CartSyncService.discount_line Sample.empty_cart
    = UseCode "SAVE10" (Some (JS.TxtInfinity false))
  ∧ msg_discount (CartSyncService.recovery_message Sample.empty_cart Sample.shop "u")
    = UseCode "SAVE10" (Some (JS.TxtInfinity false)).
Proof. split_and!; reflexivity. Qed.

(** With a total that is not zero, the percentage shown is
    [discountAmount / total * 100] printed with no decimals. *)
Lemma discount_line_percentage cart code amount :
  JS.or_null (discountCode cart) = Some code →
  discountAmount cart = Some amount → JS.truthy_num amount = true →
  CartSyncService.discount_line cart
  = UseCode code (Some (JS.toFixed 0 (amount / total cart * 100)%float)).
Proof.
  intros Hcode Hamount Htruthy. unfold CartSyncService.discount_line.
  by rewrite Hcode, Hamount, Htruthy.
Qed.

(** [trim] strips the no-break space, and the white space inside a name
    stays. *)
Example trim_unicode_space :
  JS.trim (" Ann Lee " +:+ String (ascii_of_nat 194) (String (ascii_of_nat 160) ""))
  = "Ann Lee".
Proof. reflexivity. Qed.

Example discount_line_15_percent :
  CartSyncService.discount_line (Sample.cart "s1" ABANDONED None)
  = UseCode "SAVE15" (Some (JS.TxtFixed false 15 0)).
Proof. reflexivity. Qed.

(* ===================================================================== *)
(** * Idempotence of the import *)
(* ===================================================================== *)

Section ImportTwice.
Variable env : Env.
Variable this : CartSyncService.t.

(** An invariant of the import of one record is an invariant of
    [importAbandonedCarts]. *)
Lemma importAbandonedCarts_keeps (I : World → Prop) :
  (∀ d t, I {| db := d; tick := t |} → I {| db := d; tick := S t |}) →
  (∀ n checkout w, I w → I (import_spec env this n checkout w).2) →
  keeps I (CartSyncService.importAbandonedCarts env this).
Proof.
  intros Htick Hstep. unfold CartSyncService.importAbandonedCarts.
  apply keeps_try_catch; [|apply keeps_ret].
  apply keeps_bind.
  - unfold CartSyncService.getAbandonedCarts.
    apply keeps_try_catch; [by apply keeps_fetch | apply keeps_ret].
  - intros checkouts. apply keeps_for_of. intros n checkout _ w Hw.
    rewrite importCheckout_run. by apply Hstep.
Qed.

Lemma importAbandonedCarts_returns :
  returns (CartSyncService.importAbandonedCarts env this).
Proof. apply returns_try_catch, returns_ret. Qed.

Lemma import_times_keeps (I : World → Prop) times w :
  keeps I (CartSyncService.importAbandonedCarts env this) →
  I w → I (import_times env this times w).
Proof.
  intros HI. revert w. induction times as [|times IH]; intros w Hw; simpl; [done|].
  apply IH. by apply HI.
Qed.

(** The number of copies of a remote id, before and after any number of
    imports: none before, at most one after; some before, as many after. *)
Lemma import_times_copies times w remote_id :
  let store_id := CartSyncService.this_storeId this in
  let before := copies store_id remote_id w in
  let after := copies store_id remote_id (import_times env this times w) in
  (before = 0 → after ≤ 1)%nat ∧ (0 < before → after = before)%nat.
Proof.
  cbv zeta.
  set (store_id := CartSyncService.this_storeId this).
  remember (copies store_id remote_id w) as c0 eqn:Hc0.
  apply (import_times_keeps
           (λ w', ((c0 = 0 → copies store_id remote_id w' ≤ 1)
                   ∧ (0 < c0 → copies store_id remote_id w' = c0))%nat)).
  - apply importAbandonedCarts_keeps; [done|].
    intros n checkout w' [H0 H1].
    destruct (import_spec_copies env this n checkout w' remote_id) as [S0 S1].
    fold store_id in S0, S1. lia.
  - lia.
Qed.

(** C4. [importAbandonedCarts] deduplicates on (store, remote id): a record
    whose id is the remote cart id of a local cart of the store is skipped;
    however often the listing is imported and however often it names a remote
    id, a remote id without a local cart ends with at most one and a remote
    id with local carts keeps exactly those; and importing twice, on an
    initialised service, a listing that names a resolvable record produces
    exactly one local cart, the second import creating nothing. *)
Theorem C4_import_idempotent w remote_id :
  let store_id := CartSyncService.this_storeId this in
  (∀ n checkout,
     checkout_id checkout = remote_id → (0 < copies store_id remote_id w)%nat →
     CartSyncService.importCheckout env this n checkout w = (Ret n, w))
  ∧ (∀ times,
       let after := copies store_id remote_id (import_times env this times w) in
       (copies store_id remote_id w = 0 → after ≤ 1)%nat
       ∧ (0 < copies store_id remote_id w → after = copies store_id remote_id w)%nat)
  ∧ (∀ checkout,
       checkout_id checkout = remote_id →
       copies store_id remote_id w = 0%nat →
       to_local_items (db w) store_id (line_items checkout) ≠ [] →
       initialized this →
       checkoutsQuery env (tick w) = [checkout] →
       checkoutsQuery env (tick w + 3) = [checkout] →
       cart_at w (newCartId env (tick w + 2)) = None →
       let first := CartSyncService.importAbandonedCarts env this w in
       let second := CartSyncService.importAbandonedCarts env this first.2 in
       first.1 = Ret 1%nat ∧ second.1 = Ret 0%nat
       ∧ db second.2 = db first.2
       ∧ copies store_id remote_id second.2 = 1%nat).
Proof.
  intros store_id. split_and!.
  - intros n checkout <- Hpos. rewrite importCheckout_run. unfold import_spec.
    fold store_id. rewrite decide_False by lia. done.
  - intros times. apply import_times_copies.
  - intros checkout <- Hnone Hitems Hon Hq1 Hq2 Hfresh.
    assert (E1 : CartSyncService.importAbandonedCarts env this w
                 = (Ret 1%nat,
                    {| db := set_carts
                               (<[newCartId env (tick w + 2) :=
                                    CartSyncService.imported_cart this (clock env (S (tick w)))
                                      checkout
                                      (to_local_items (db w) store_id (line_items checkout))]>
                                  (carts (db w))) (db w);
                       tick := tick w + 3 |})).
    { unfold CartSyncService.importAbandonedCarts.
      erewrite try_catch_run; [done|].
      erewrite bind_run by (by apply getAbandonedCarts_run). rewrite Hq1. simpl.
      erewrite bind_run; [reflexivity|].
      rewrite importCheckout_run. unfold import_spec. fold store_id.
      change (copies store_id (checkout_id checkout) {| db := db w; tick := S (tick w) |})
        with (copies store_id (checkout_id checkout) w).
      rewrite decide_True by done. simpl.
      destruct (to_local_items (db w) store_id (line_items checkout)) eqn:Hl; [done|].
      replace (S (S (tick w))) with (tick w + 2)%nat by lia.
      unfold cart_at in *. simpl. rewrite Hfresh.
      do 2 f_equal. lia. }
    rewrite E1. simpl.
    set (w1 := {| db := _; tick := (tick w + 3)%nat |}).
    assert (Hone : copies store_id (checkout_id checkout) w1 = 1%nat).
    { unfold w1. rewrite copies_insert_fresh by done.
      rewrite Hnone. unfold imported_as. simpl.
      by rewrite !bool_decide_eq_true_2. }
    assert (E2 : CartSyncService.importAbandonedCarts env this w1 = (Ret 0%nat,
                    {| db := db w1; tick := S (tick w1) |})).
    { unfold CartSyncService.importAbandonedCarts.
      erewrite try_catch_run; [done|].
      erewrite bind_run by (by apply getAbandonedCarts_run).
      change (checkoutsQuery env (tick w1)) with (checkoutsQuery env (tick w + 3)).
      rewrite Hq2. simpl.
      erewrite bind_run; [reflexivity|].
      rewrite importCheckout_run. unfold import_spec. fold store_id.
      rewrite decide_False; [done|].
      change (copies store_id (checkout_id checkout) w1 ≠ 0%nat). lia. }
    rewrite E2. simpl. done.
Qed.

End ImportTwice.

(* ===================================================================== *)
(** * The import of a listing *)
(* ===================================================================== *)




Section ImportListing.
Variable env : Env.
Variable this : CartSyncService.t.





End ImportListing.

(* ===================================================================== *)
(** * Initialisation and recovery processing *)
(* ===================================================================== *)

Lemma initialize_run store_id w :
  CartSyncService.initialize (CartSyncService.new store_id) w
  = (Ret (shopify_configured w store_id,
          if shopify_configured w store_id then service_of w store_id
          else CartSyncService.new store_id), w).
Proof.
  unfold CartSyncService.initialize, try_catch, shopify_configured, service_of.
  run_read. simpl.
  destruct (stores (db w) !! store_id) as [st|]; [|done].
  by destruct (JS.truthy_ostr (shopifyAccessToken st)),
              (JS.truthy_ostr (shopifyStoreUrl st)).
Qed.

Lemma service_of_initialized w store_id :
  shopify_configured w store_id = true → initialized (service_of w store_id).
Proof.
  unfold shopify_configured, service_of, initialized.
  destruct (stores (db w) !! store_id) as [st|]; [|done].
  destruct (shopifyStoreUrl st); simpl; [by eexists | by rewrite andb_false_r].
Qed.

Lemma new_not_initialized store_id : ¬ initialized (CartSyncService.new store_id).
Proof. by intros [url Hurl]. Qed.

Lemma processRecovery_run env cartId w c :
  cart_at w cartId = Some c →
  CartSyncService.processRecovery env cartId w
  = (Ret true,
     {| db := set_carts (<[cartId := recovered_row (clock env (tick w)) c]> (carts (db w)))
                (db w);
        tick := S (tick w) |}).
Proof.
  intros Hc. unfold CartSyncService.processRecovery.
  erewrite try_catch_run; [done|].
  run_read.
  erewrite bind_run; [reflexivity|].
  by erewrite cart_update_run.
Qed.

(** Without messaging credentials no message is sent and nothing is written. *)
Lemma sendCartRecoveryMessage_unconfigured env this cartId w cart st :
  cart_at w cartId = Some cart →
  stores (db w) !! storeId cart = Some st →
  messaging_configured st = false →
  CartSyncService.sendCartRecoveryMessage env this cartId w = (Ret false, w).
Proof.
  intros Hc Hst Hm. unfold CartSyncService.sendCartRecoveryMessage, try_catch.
  run_read. simpl. unfold cart_at in Hc. rewrite Hc.
  destruct (JS.or_null (customerPhone cart)); [|done].
  run_read. simpl. rewrite Hst.
  unfold messaging_configured in Hm. unfold JS.or_null.
  destruct (JS.truthy_ostr (whatsappPhoneNumberId st)); [|done].
  simpl in Hm. rewrite Hm. by destruct (whatsappPhoneNumberId st).
Qed.

(* ===================================================================== *)
(** * The manual recovery endpoint *)
(* ===================================================================== *)

Section RecoverEndpoint.
Variable env : Env.

(** The endpoint, on a request that names an existing cart, passes the code
    check and whose store is configured: recovery is processed first, then
    the recovery URL is asked for, then the redirect is built, which fails on
    a URL that is not absolute. *)
Lemma Recover_GET_run request w cartId cart :
  JS.or_null (Recover.param_cartId request) = Some cartId →
  cart_at w cartId = Some cart →
  Recover.code_mismatch (Recover.param_code request) cart = false →
  shopify_configured w (storeId cart) = true →
  let recovered := CartSyncService.processRecovery env cartId w in
  let fetched :=
    CartSyncService.getCartRecoveryUrl env (service_of w (storeId cart)) cartId recovered.2 in
  ∃ url,
    fetched.1 = Ret url
    ∧ Recover.GET env request w
      = (Ret match JS.or_null url with
             | Some u =>
                 if absoluteUrl env u then Recover.Redirect u
                 else Recover.Json 500 "Internal server error"
             | None => Recover.Json 500 "Failed to get recovery URL"
             end, fetched.2).
Proof.
  intros Hid Hc Hcode Hconf. cbv zeta.
  rewrite (processRecovery_run env cartId w cart Hc). simpl.
  destruct (getCartRecoveryUrl_effect env (service_of w (storeId cart)) cartId
              {| db := set_carts (<[cartId := recovered_row (clock env (tick w)) cart]>
                                    (carts (db w))) (db w);
                 tick := S (tick w) |}) as (url & w' & E & _).
  exists url. rewrite E. simpl. split; [done|].
  unfold Recover.GET. rewrite Hid. unfold try_catch.
  run_read. simpl. unfold cart_at in Hc. rewrite Hc.
  rewrite Hcode.
  run_with initialize_run. simpl. rewrite Hconf. simpl.
  erewrite bind_run by (by apply processRecovery_run). simpl.
  run_with E.
  destruct (JS.or_null url) as [u|]; [|done].
  by destruct (absoluteUrl env u).
Qed.

(** C10. The manual endpoint marks the cart [RECOVERED] before it asks for the
    recovery URL, and does not undo it: when recovery processing succeeds and
    the URL retrieval then gives nothing, the response is the failure
    "Failed to get recovery URL" and the cart is left [RECOVERED], with its
    recovered timestamp set. *)
Theorem C10_recovered_without_redirect request w cartId cart :
  JS.or_null (Recover.param_cartId request) = Some cartId →
  cart_at w cartId = Some cart →
  Recover.code_mismatch (Recover.param_code request) cart = false →
  shopify_configured w (storeId cart) = true →
  let recovered := CartSyncService.processRecovery env cartId w in
  let fetched :=
    CartSyncService.getCartRecoveryUrl env (service_of w (storeId cart)) cartId recovered.2 in
  recovered.1 = Ret true
  ∧ (recoveryStatus <$> cart_at recovered.2 cartId) = Some RECOVERED
  ∧ (∀ url, fetched.1 = Ret url → JS.or_null url = None →
     ∃ w' cart',
       Recover.GET env request w = (Ret (Recover.Json 500 "Failed to get recovery URL"), w')
       ∧ cart_at w' cartId = Some cart'
       ∧ recoveryStatus cart' = RECOVERED
       ∧ recoveredAt cart' = Some (clock env (tick w))).
Proof.
  intros Hid Hc Hcode Hconf.
  destruct (Recover_GET_run request w cartId cart Hid Hc Hcode Hconf) as (url & Hu & HG).
  cbv zeta in *. rewrite (processRecovery_run env cartId w cart Hc) in *. simpl in *.
  split; [done|]. split.
  { unfold cart_at. simpl. by rewrite lookup_insert_eq. }
  intros url' Hurl' Hnone. rewrite Hu in Hurl'. injection Hurl' as <-.
  rewrite Hnone in HG.
  destruct (getCartRecoveryUrl_effect env (service_of w (storeId cart)) cartId
              {| db := set_carts (<[cartId := recovered_row (clock env (tick w)) cart]>
                                    (carts (db w))) (db w);
                 tick := S (tick w) |}) as (u & w' & E & Hw).
  rewrite E in HG. simpl in HG.
  assert (Hrow : cart_at {| db := set_carts (<[cartId := recovered_row (clock env (tick w)) cart]>
                                    (carts (db w))) (db w);
                 tick := S (tick w) |} cartId
                 = Some (recovered_row (clock env (tick w)) cart)).
  { unfold cart_at. simpl. by rewrite lookup_insert_eq. }
  destruct (remote_id_written_still _ _ _ _ Hw Hrow) as (cart' & Hc' & Hsame).
  exists w', cart'. split; [done|]. split; [done|].
  destruct Hsame as [-> | [r ->]]; done.
Qed.

(** The cart the endpoint leaves behind once recovery was processed: it is
    [RECOVERED], whatever the retrieval of the URL did afterwards. *)
Lemma recovered_stays request w cartId cart :
  JS.or_null (Recover.param_cartId request) = Some cartId →
  cart_at w cartId = Some cart →
  Recover.code_mismatch (Recover.param_code request) cart = false →
  shopify_configured w (storeId cart) = true →
  ∃ cart',
    cart_at (Recover.GET env request w).2 cartId = Some cart'
    ∧ recoveryStatus cart' = RECOVERED
    ∧ recoveredAt cart' = Some (clock env (tick w)).
Proof.
  intros Hid Hc Hcode Hconf.
  destruct (Recover_GET_run request w cartId cart Hid Hc Hcode Hconf) as (url & Hu & HG).
  cbv zeta in *. rewrite HG. simpl.
  rewrite (processRecovery_run env cartId w cart Hc). simpl.
  destruct (getCartRecoveryUrl_effect env (service_of w (storeId cart)) cartId
              {| db := set_carts (<[cartId := recovered_row (clock env (tick w)) cart]>
                                    (carts (db w))) (db w);
                 tick := S (tick w) |}) as (u & w' & E & Hw).
  rewrite E. simpl.
  assert (Hrow : cart_at {| db := set_carts (<[cartId := recovered_row (clock env (tick w)) cart]>
                                    (carts (db w))) (db w);
                 tick := S (tick w) |} cartId
                 = Some (recovered_row (clock env (tick w)) cart)).
  { unfold cart_at. simpl. by rewrite lookup_insert_eq. }
  destruct (remote_id_written_still _ _ _ _ Hw Hrow) as (cart' & Hc' & Hsame).
  exists cart'. split; [done|].
  destruct Hsame as [-> | [r ->]]; done.
Qed.

(** C9. The manual endpoint rejects a request whose code differs from the
    cart's, when the request gives a code and the cart carries one, and writes
    nothing; a request that gives no code is not checked.  When the request
    passes the check, the store is configured and [getCartRecoveryUrl] (which
    synchronises the cart before it asks for the checkout URL) gives a URL,
    the cart has been marked [RECOVERED]; the endpoint then redirects to that
    URL when it is absolute, and answers 500 when it is not, the cart staying
    [RECOVERED]. *)
Theorem C9_manual_recovery request w :
  (∀ cartId cart given expected,
     JS.or_null (Recover.param_cartId request) = Some cartId →
     cart_at w cartId = Some cart →
     JS.or_null (Recover.param_code request) = Some given →
     JS.or_null (discountCode cart) = Some expected →
     given ≠ expected →
     Recover.GET env request w = (Ret (Recover.Json 400 "Invalid discount code"), w))
  ∧ (∀ cartId cart,
       JS.or_null (Recover.param_cartId request) = Some cartId →
       cart_at w cartId = Some cart →
       Recover.code_mismatch (Recover.param_code request) cart = false →
       shopify_configured w (storeId cart) = true →
       ∀ url,
         (CartSyncService.getCartRecoveryUrl env (service_of w (storeId cart)) cartId
            (CartSyncService.processRecovery env cartId w).2).1 = Ret (Some url) →
         url ≠ "" →
         ∃ w' cart',
           Recover.GET env request w
           = (Ret (if absoluteUrl env url then Recover.Redirect url
                   else Recover.Json 500 "Internal server error"), w')
           ∧ cart_at w' cartId = Some cart'
           ∧ recoveryStatus cart' = RECOVERED
           ∧ recoveredAt cart' = Some (clock env (tick w)))
  ∧ (∀ url w',
       Recover.GET env request w = (Ret (Recover.Redirect url), w') →
       absoluteUrl env url = true
       ∧ ∃ cartId cart',
           JS.or_null (Recover.param_cartId request) = Some cartId
           ∧ cart_at w' cartId = Some cart'
           ∧ recoveryStatus cart' = RECOVERED).
Proof.
  split_and!.
  - intros cartId cart given expected Hid Hc Hgiven Hexp Hne.
    unfold Recover.GET. rewrite Hid.
    erewrite try_catch_run; [reflexivity|].
    run_read. simpl. unfold cart_at in Hc. rewrite Hc.
    unfold Recover.code_mismatch. rewrite Hgiven, Hexp.
    by rewrite bool_decide_eq_true_2.
  - intros cartId cart Hid Hc Hcode Hconf url Hurl Hne.
    destruct (recovered_stays request w cartId cart Hid Hc Hcode Hconf)
      as (cart' & Hc' & Hstatus & Hat).
    destruct (Recover_GET_run request w cartId cart Hid Hc Hcode Hconf) as (url' & Hu & HG).
    cbv zeta in *. rewrite Hurl in Hu. injection Hu as <-.
    assert (Hor : JS.or_null (Some url) = Some url).
    { unfold JS.or_null, JS.truthy_ostr, JS.truthy_str.
      by rewrite bool_decide_eq_true_2. }
    rewrite Hor in HG. rewrite HG in Hc'. simpl in Hc'.
    eexists _, cart'. split; [exact HG|]. done.
  - intros url w' HG.
    destruct (JS.or_null (Recover.param_cartId request)) as [cartId|] eqn:Hid.
    2:{ unfold Recover.GET in HG. rewrite Hid in HG. discriminate HG. }
    destruct (cart_at w cartId) as [cart|] eqn:Hc.
    2:{ unfold Recover.GET, try_catch in HG. rewrite Hid in HG.
        erewrite bind_run in HG by reflexivity. simpl in HG.
        unfold cart_at in Hc. rewrite Hc in HG. discriminate HG. }
    destruct (Recover.code_mismatch (Recover.param_code request) cart) eqn:Hcode.
    { unfold Recover.GET, try_catch in HG. rewrite Hid in HG.
      erewrite bind_run in HG by reflexivity. simpl in HG.
      unfold cart_at in Hc. rewrite Hc, Hcode in HG. discriminate HG. }
    destruct (shopify_configured w (storeId cart)) eqn:Hconf.
    2:{ unfold Recover.GET, try_catch in HG. rewrite Hid in HG.
        erewrite bind_run in HG by reflexivity. simpl in HG.
        unfold cart_at in Hc. rewrite Hc, Hcode in HG.
        erewrite bind_run in HG by apply initialize_run. simpl in HG.
        rewrite Hconf in HG. discriminate HG. }
    destruct (recovered_stays request w cartId cart Hid Hc Hcode Hconf)
      as (cart' & Hc' & Hstatus & _).
    destruct (Recover_GET_run request w cartId cart Hid Hc Hcode Hconf) as (u & _ & HG').
    cbv zeta in HG'. rewrite HG in Hc', HG'. simpl in Hc'.
    split.
    + injection HG' as Hresp _. destruct (JS.or_null u) as [u'|]; [|discriminate Hresp].
      destruct (absoluteUrl env u') eqn:Habs; [|discriminate Hresp].
      by injection Hresp as ->.
    + by exists cartId, cart'.
Qed.

End RecoverEndpoint.

(* ===================================================================== *)
(** * The scan of one store *)
(* ===================================================================== *)

Section Scan.
Variable env : Env.

Lemma lift_run {A} (m : M A) s o w' :
  m (Cron.world s) = (o, w') →
  Cron.lift m s = (o, {| Cron.world := w'; Cron.results := Cron.results s |}).
Proof. intros E. unfold Cron.lift. by rewrite E. Qed.

Lemma keeps_lift {A} (I : World → Prop) (m : M A) :
  keeps I m → keeps (λ s, I (Cron.world s)) (Cron.lift m).
Proof.
  intros Hm s Hs. unfold Cron.lift. specialize (Hm _ Hs).
  by destruct (m (Cron.world s)).
Qed.

Lemma keeps_update_results (I : World → Prop) f :
  keeps (λ s, I (Cron.world s)) (Cron.update_results f).
Proof. by intros s Hs. Qed.

Lemma returns_update_results f : returns (Cron.update_results f).
Proof. intros s. by exists tt. Qed.

(** Writing cart [k'] leaves cart [k] unchanged. *)
Lemma cart_update_keeps k c t0 k' data :
  k' ≠ k → keeps (unchanged_since k c t0) (prisma.cart.update k' data).
Proof.
  intros Hne w [Hk Ht]. unfold prisma.cart.update, bind, get_db. simpl.
  destruct (carts (db w) !! k'); simpl; [|done].
  split; [|done]. unfold cart_at in *. simpl. by rewrite lookup_insert_ne.
Qed.

Lemma send_keeps this k c t0 k' :
  k' ≠ k →
  keeps (unchanged_since k c t0) (CartSyncService.sendCartRecoveryMessage env this k').
Proof.
  intros Hne w [Hk Ht].
  destruct (sendCartRecoveryMessage_frame env this k' w) as (_ & Hle & Hf).
  split; [|lia]. rewrite Hf; done.
Qed.

Lemma ask_keeps {A} k c t0 (f : nat → A) : keeps (unchanged_since k c t0) (ask f).
Proof. apply keeps_ask. intros d t [Hk Ht]. split; [done | simpl in *; lia]. Qed.

Lemma import_keeps this k c t0 :
  keeps (unchanged_since k c t0) (CartSyncService.importAbandonedCarts env this).
Proof.
  apply importAbandonedCarts_keeps.
  - intros d t [Hk Ht]. split; [done | simpl in *; lia].
  - intros n checkout w [Hk Ht]. split.
    + by apply import_spec_frame.
    + pose proof (import_spec_tick env this n checkout w). lia.
Qed.

(** The rows a query selected do not include a row the filter rejects. *)
Lemma selected_other (P : Cart → bool) w k c row :
  cart_at w k = Some c → P c = false →
  row ∈ prisma.rows P (carts (db w)) → row.1 ≠ k.
Proof.
  intros Hk HP Hrow Heq. destruct row as [k' c']. simpl in Heq. subst k'.
  apply rows_elem in Hrow as [Hc' HP']. unfold cart_at in Hk. congruence.
Qed.

Lemma processAbandoned_keeps svc store_id k c t0 :
  recoveryStatus c ≠ NONE →
  keeps (λ s, unchanged_since k c t0 (Cron.world s)) (Cron.processAbandoned env svc store_id).
Proof.
  intros Hstatus s [Hk Ht]. unfold Cron.processAbandoned.
  run_read. run_read.
  run_read.
  apply keeps_for_each; [|split; [done | simpl; lia]].
  intros row Hrow. simpl in Hrow.
  assert (Hne : row.1 ≠ k).
  { eapply (selected_other _ (Cron.world s)); [exact Hk | | exact Hrow].
    unfold Cron.abandoned_filter. rewrite (bool_decide_eq_false_2 (_ = NONE)) by done.
    by rewrite andb_false_r. }
  apply keeps_try_catch; [|apply keeps_update_results].
  apply keeps_bind; [apply keeps_lift, ask_keeps|]. intros now.
  apply keeps_bind; [by apply keeps_lift, cart_update_keeps|]. intros _.
  destruct (JS.truthy_ostr (customerPhone row.2)); [|apply keeps_ret].
  apply keeps_bind; [by apply keeps_lift, send_keeps|]. intros sent.
  destruct sent; [apply keeps_update_results | apply keeps_ret].
Qed.

Lemma processFollowUp_keeps svc store_id k c t0 :
  recoveryStatus c ≠ NOTIFIED_FIRST →
  keeps (λ s, unchanged_since k c t0 (Cron.world s)) (Cron.processFollowUp env svc store_id).
Proof.
  intros Hstatus s [Hk Ht]. unfold Cron.processFollowUp.
  run_read. run_read.
  run_read.
  apply keeps_for_each; [|split; [done | simpl; lia]].
  intros row Hrow. simpl in Hrow.
  assert (Hne : row.1 ≠ k).
  { eapply (selected_other _ (Cron.world s)); [exact Hk | | exact Hrow].
    unfold Cron.followUp_filter.
    rewrite (bool_decide_eq_false_2 (_ = NOTIFIED_FIRST)) by done.
    by rewrite andb_false_r. }
  apply keeps_try_catch; [|apply keeps_update_results].
  destruct (JS.truthy_ostr (customerPhone row.2)); [|apply keeps_ret].
  apply keeps_bind; [by apply keeps_lift, send_keeps|]. intros sent.
  destruct sent; [apply keeps_update_results | apply keeps_ret].
Qed.

Lemma processAbandoned_returns svc store_id :
  returns (Cron.processAbandoned env svc store_id).
Proof.
  intros s. unfold Cron.processAbandoned.
  run_read. run_read.
  run_read.
  apply returns_for_of. intros _ row. apply returns_try_catch, returns_update_results.
Qed.

Lemma processFollowUp_returns svc store_id :
  returns (Cron.processFollowUp env svc store_id).
Proof.
  intros s. unfold Cron.processFollowUp.
  run_read. run_read.
  run_read.
  apply returns_for_of. intros _ row. apply returns_try_catch, returns_update_results.
Qed.

(** The expiry phase is one map over the cart table. *)
Lemma markLost_run store_id s :
  let now := clock env (tick (Cron.world s)) in
  Cron.markLost env store_id s
  = (Ret tt,
     {| Cron.world :=
          {| db := set_carts
                     ((λ c, if Cron.lost_filter store_id now c
                            then set_recoveryStatus LOST c else c)
                        <$> carts (db (Cron.world s)))
                     (db (Cron.world s));
             tick := S (tick (Cron.world s)) |};
        Cron.results :=
          Cron.add_lost
            (length (prisma.rows (Cron.lost_filter store_id now) (carts (db (Cron.world s)))))
            (Cron.results s) |}).
Proof. reflexivity. Qed.

(** A store without platform credentials is counted as an error and nothing
    else happens. *)
Lemma processStore_unconfigured store_id s :
  shopify_configured (Cron.world s) store_id = false →
  Cron.processStore env store_id s
  = (Ret tt, {| Cron.world := Cron.world s;
                Cron.results := Cron.add_errors 1 (Cron.results s) |}).
Proof.
  intros Hconf. unfold Cron.processStore.
  erewrite try_catch_run; [reflexivity|].
  erewrite bind_run by (apply lift_run, initialize_run).
  by rewrite Hconf.
Qed.

Lemma returns_lift {A} (m : M A) : returns m → returns (Cron.lift m).
Proof.
  intros Hm s. unfold Cron.lift. destruct (Hm (Cron.world s)) as [a Ha].
  exists a. by destruct (m (Cron.world s)); simpl in *.
Qed.

(** One step of a computation that returns and keeps an invariant. *)
Lemma step {S A} (m : St S A) (I : S → Prop) s :
  returns m → keeps I m → I s → ∃ a s', m s = (Ret a, s') ∧ I s'.
Proof.
  intros Hr Hk Hs. destruct (returns_run m s Hr) as [a E].
  exists a, (m s).2. split; [done | by apply Hk].
Qed.

(** The scan of a configured store reaches the expiry phase with every row
    that is neither [NONE] nor [NOTIFIED_FIRST] as it was, runs it, and ends
    with the cart table the expiry phase left. *)
Lemma processStore_configured store_id s k c :
  shopify_configured (Cron.world s) store_id = true →
  cart_at (Cron.world s) k = Some c →
  recoveryStatus c ≠ NONE → recoveryStatus c ≠ NOTIFIED_FIRST →
  ∃ s3 s',
    unchanged_since k c (tick (Cron.world s)) (Cron.world s3)
    ∧ Cron.processStore env store_id s = (Ret tt, s')
    ∧ Cron.world s' = Cron.world (Cron.markLost env store_id s3).2.
Proof.
  intros Hconf Hk Hnone Hfirst.
  set (I := λ st : Cron.State, unchanged_since k c (tick (Cron.world s)) (Cron.world st)).
  set (svc := service_of (Cron.world s) store_id).
  assert (I0 : I s) by (split; [done | lia]).
  destruct (step (Cron.lift (CartSyncService.importAbandonedCarts env svc)) I s)
    as (n & s1 & E1 & I1);
    [apply returns_lift, importAbandonedCarts_returns
    |apply (keeps_lift (unchanged_since k c (tick (Cron.world s)))), import_keeps | done |].
  destruct (step (Cron.processAbandoned env svc store_id) I
              {| Cron.world := Cron.world s1;
                 Cron.results := Cron.add_imported n (Cron.results s1) |})
    as ([] & s2 & E2 & I2);
    [apply processAbandoned_returns | by apply processAbandoned_keeps | done |].
  destruct (step (Cron.processFollowUp env svc store_id) I s2)
    as ([] & s3 & E3 & I3);
    [apply processFollowUp_returns | by apply processFollowUp_keeps | done |].
  exists s3. eexists. split; [exact I3|]. split.
  - unfold Cron.processStore.
    erewrite try_catch_run; [reflexivity|].
    erewrite bind_run by (apply lift_run, initialize_run). rewrite Hconf. simpl.
    erewrite bind_run by exact E1. run_read.
    erewrite bind_run by exact E2. erewrite bind_run by exact E3.
    run_with markLost_run.
    erewrite bind_run by (apply lift_run, getRecoveryStats_run). reflexivity.
  - reflexivity.
Qed.

End Scan.

Section Expiry.
Variable env : Env.

Lemma lost_filter_spec store_id now c :
  Cron.lost_filter store_id now c = true
  ↔ storeId c = store_id ∧ recoveryStatus c = NOTIFIED_FINAL
    ∧ ∃ t, lastNotifiedAt c = Some t ∧ t < now - Cron.hours 48.
Proof.
  unfold Cron.lost_filter. rewrite !andb_true_iff, !bool_decide_eq_true.
  destruct (lastNotifiedAt c) as [t|].
  - rewrite bool_decide_eq_true. split.
    + intros [[H1 H2] H3]. split_and!; [done | done |]. by exists t.
    + intros (H1 & H2 & t' & Ht & H3). injection Ht as ->. done.
  - split.
    + intros [_ H]. done.
    + intros (_ & _ & t' & Ht & _). done.
Qed.

(** C6. In the scan of a store whose platform credentials are present, with a
    clock that does not run backwards, every cart of the store that is in
    [NOTIFIED_FINAL] with a last-notified timestamp more than 48 hours old
    (strictly earlier than now minus 48 hours) ends [LOST]; the expiry phase
    is one update over the cart table that turns exactly the rows its filter
    selects to [LOST] and counts them; a [LOST] row is selected by none of the
    three filters, the two notification filters selecting only [NONE] and
    [NOTIFIED_FIRST] rows; and a [LOST] cart goes through the scan
    untouched. *)
Theorem C6_expiry store_id s :
  (shopify_configured (Cron.world s) store_id = true → clock_monotone env →
   ∀ k c t,
     cart_at (Cron.world s) k = Some c →
     storeId c = store_id → recoveryStatus c = NOTIFIED_FINAL →
     lastNotifiedAt c = Some t →
     t < clock env (tick (Cron.world s)) - Cron.hours 48 →
     cart_at (Cron.world (Cron.processStore env store_id s).2) k
     = Some (set_recoveryStatus LOST c))
  ∧ (let now := clock env (tick (Cron.world s)) in
     let expired := Cron.markLost env store_id s in
     (∀ k, cart_at (Cron.world expired.2) k
           = (λ c, if Cron.lost_filter store_id now c
                   then set_recoveryStatus LOST c else c) <$> cart_at (Cron.world s) k)
     ∧ Cron.r_lost (Cron.results expired.2)
       = (Cron.r_lost (Cron.results s)
          + length (prisma.rows (Cron.lost_filter store_id now)
                      (carts (db (Cron.world s)))))%nat)
  ∧ (∀ now c,
       (Cron.lost_filter store_id now c = true
        ↔ storeId c = store_id ∧ recoveryStatus c = NOTIFIED_FINAL
          ∧ ∃ t, lastNotifiedAt c = Some t ∧ t < now - Cron.hours 48)
       ∧ (Cron.abandoned_filter store_id now c = true → recoveryStatus c = NONE)
       ∧ (Cron.followUp_filter store_id now c = true → recoveryStatus c = NOTIFIED_FIRST)
       ∧ (recoveryStatus c = LOST →
          Cron.lost_filter store_id now c = false
          ∧ Cron.abandoned_filter store_id now c = false
          ∧ Cron.followUp_filter store_id now c = false))
  ∧ (∀ k c,
       cart_at (Cron.world s) k = Some c → recoveryStatus c = LOST →
       cart_at (Cron.world (Cron.processStore env store_id s).2) k = Some c).
Proof.
  split_and!.
  - intros Hconf Hmono k c t Hk Hstore Hstatus Hlast Hold.
    destruct (processStore_configured env store_id s k c Hconf Hk) as (s3 & s' & [Hk3 Ht3] & E & Hw);
      [congruence | congruence |].
    rewrite E. simpl. rewrite Hw, markLost_run. unfold cart_at in *. simpl.
    rewrite lookup_fmap, Hk3. simpl.
    assert (Hsel : Cron.lost_filter store_id (clock env (tick (Cron.world s3))) c = true).
    { apply lost_filter_spec. split_and!; try done. exists t. split; [done|].
      specialize (Hmono _ _ Ht3). lia. }
    by rewrite Hsel.
  - intros now expired. unfold expired. rewrite markLost_run. simpl. split; [|done].
    intros k. unfold cart_at. simpl. by rewrite lookup_fmap.
  - intros now c. split_and!.
    + apply lost_filter_spec.
    + unfold Cron.abandoned_filter. rewrite !andb_true_iff, !bool_decide_eq_true. tauto.
    + unfold Cron.followUp_filter. rewrite !andb_true_iff, !bool_decide_eq_true. tauto.
    + intros Hlost. unfold Cron.lost_filter, Cron.abandoned_filter, Cron.followUp_filter.
      rewrite Hlost. rewrite !(bool_decide_eq_false_2 (LOST = _)) by done.
      by rewrite !andb_false_r.
  - intros k c Hk Hlost.
    destruct (shopify_configured (Cron.world s) store_id) eqn:Hconf.
    + destruct (processStore_configured env store_id s k c Hconf Hk) as (s3 & s' & [Hk3 Ht3] & E & Hw);
        [congruence | congruence |].
      rewrite E. simpl. rewrite Hw, markLost_run. unfold cart_at in *. simpl.
      rewrite lookup_fmap, Hk3. simpl.
      unfold Cron.lost_filter. rewrite Hlost.
      rewrite (bool_decide_eq_false_2 (LOST = _)) by done.
      by rewrite andb_false_r.
    + by rewrite processStore_unconfigured.
Qed.

(** C1. [initialize] answers whether the store's two platform credentials are
    present and writes nothing; when they are, the service it leaves carries
    them, and when they are not, the service is left as it was constructed,
    without a platform URL.  On a service without platform URL every
    operation that needs the platform fails before a request is sent:
    [sendCartRecoveryMessage] answers false, [syncCartToShopify] and
    [getCartRecoveryUrl] null, [importAbandonedCarts] 0 and
    [getAbandonedCarts] the empty list, and nothing at all happens.  The
    scan and the manual endpoint stop when [initialize] answers false: the
    scan counts the store as an error, the endpoint answers 500.  When a
    messaging credential of the cart's store is absent,
    [sendCartRecoveryMessage] answers false and writes nothing, on any
    service.  [processRecovery] and [getRecoveryStats] use neither the
    platform nor a credential: the first marks any existing cart, the second
    counts the store's carts. *)
Theorem C1_initialization_gate store_id w :
  (∃ svc, CartSyncService.initialize (CartSyncService.new store_id) w
          = (Ret (shopify_configured w store_id, svc), w)
          ∧ (shopify_configured w store_id = true →
             svc = service_of w store_id ∧ initialized svc)
          ∧ (shopify_configured w store_id = false →
             svc = CartSyncService.new store_id ∧ ¬ initialized svc))
  ∧ (∀ this cartId,
       ¬ initialized this →
       CartSyncService.sendCartRecoveryMessage env this cartId w = (Ret false, w)
       ∧ CartSyncService.syncCartToShopify env this cartId w = (Ret None, w)
       ∧ CartSyncService.getCartRecoveryUrl env this cartId w = (Ret None, w)
       ∧ CartSyncService.importAbandonedCarts env this w = (Ret 0%nat, w)
       ∧ CartSyncService.getAbandonedCarts env this w = (Ret [], w))
  ∧ (shopify_configured w store_id = false →
     (∀ results,
        Cron.processStore env store_id {| Cron.world := w; Cron.results := results |}
        = (Ret tt, {| Cron.world := w; Cron.results := Cron.add_errors 1 results |}))
     ∧ (∀ request cartId cart,
          JS.or_null (Recover.param_cartId request) = Some cartId →
          cart_at w cartId = Some cart → storeId cart = store_id →
          Recover.code_mismatch (Recover.param_code request) cart = false →
          Recover.GET env request w
          = (Ret (Recover.Json 500 "Failed to initialize cart sync service"), w)))
  ∧ (∀ this cartId cart st,
       cart_at w cartId = Some cart → storeId cart = store_id →
       stores (db w) !! store_id = Some st →
       messaging_configured st = false →
       CartSyncService.sendCartRecoveryMessage env this cartId w = (Ret false, w))
  ∧ (∀ cartId cart,
       cart_at w cartId = Some cart →
       CartSyncService.processRecovery env cartId w
       = (Ret true,
          {| db := set_carts (<[cartId := recovered_row (clock env (tick w)) cart]>
                                (carts (db w))) (db w);
             tick := S (tick w) |}))
  ∧ (∃ stats,
       CartSyncService.getRecoveryStats (CartSyncService.new store_id) w = (Ret stats, w)
       ∧ stats_abandoned stats
         = length (prisma.rows
                     (CartSyncService.has_status (CartSyncService.new store_id) ABANDONED)
                     (carts (db w)))).
Proof.
  split_and!; [| | | |intros cartId cart Hc; by apply processRecovery_run
               |eexists; split; [apply getRecoveryStats_run | done]].
  - eexists. split; [apply initialize_run|].
    destruct (shopify_configured w store_id) eqn:Hconf.
    + split; [|done]. intros _. split; [done | by apply service_of_initialized].
    + split; [done|]. intros _. split; [done | apply new_not_initialized].
  - intros this cartId Hoff. split_and!.
    + by apply sendCartRecoveryMessage_rejected.
    + by apply syncCartToShopify_rejected.
    + by apply getCartRecoveryUrl_rejected.
    + by apply importAbandonedCarts_rejected.
    + by apply getAbandonedCarts_rejected.
  - intros Hconf. split.
    + intros results. by rewrite processStore_unconfigured.
    + intros request cartId cart Hid Hc Hstore Hcode.
      unfold Recover.GET. rewrite Hid.
      erewrite try_catch_run; [reflexivity|].
      run_read. simpl. unfold cart_at in Hc. rewrite Hc, Hcode.
      run_with initialize_run. simpl.
      by rewrite Hstore, Hconf.
  - intros this cartId cart st Hc Hstore Hst Hm.
    eapply sendCartRecoveryMessage_unconfigured; [done | by rewrite Hstore | done].
Qed.

End Expiry.

(* ===================================================================== *)
(** * The design's sentences that the code does not follow *)
(* ===================================================================== *)

(** C1, as the design states it: with either credential pair absent, the
    engine is uninitialised and [processRecovery] and [getRecoveryStats] fail
    fast.  Refuted on the store without credentials: [initialize] answers
    false, yet [processRecovery] answers true and marks the cart. *)
Lemma C1_counterexample :
  ¬ (∀ env w store_id st cartId,
       stores (db w) !! store_id = Some st →
       shopify_configured w store_id = false ∨ messaging_configured st = false →
       (CartSyncService.initialize (CartSyncService.new store_id) w).1
       = Ret (false, CartSyncService.new store_id)
       ∧ (CartSyncService.processRecovery env cartId w).1 = Ret false
       ∧ db (CartSyncService.processRecovery env cartId w).2 = db w
       ∧ (CartSyncService.getRecoveryStats (CartSyncService.new store_id) w).1
         = Ret CartSyncService.empty_stats).
Proof.
  intros H.
  destruct (H Sample.env Sample.world "s0" Sample.bare_shop "c0" eq_refl
              (or_introl eq_refl)) as (_ & Hrecovery & _).
  vm_compute in Hrecovery. discriminate.
Qed.

(** C6, as the design states it, at the boundary: a cart in [NOTIFIED_FINAL]
    whose last notification is exactly 48 hours old when the scan runs is at
    least 48 hours old, and the scan leaves it in [NOTIFIED_FINAL]. *)
Lemma C6_counterexample :
  (∀ t, clock Sample.env_frozen t = Sample.T0)
  ∧ cart_at Sample.world "c48"
    = Some (Sample.cart "s1" NOTIFIED_FINAL (Some (Sample.T0 - Cron.hours 48)))
  ∧ Cron.hours 48 ≤ Sample.T0 - (Sample.T0 - Cron.hours 48)
  ∧ shopify_configured Sample.world "s1" = true
  ∧ (recoveryStatus <$> cart_at (Cron.GET Sample.env_frozen Sample.world).2 "c48")
    = Some NOTIFIED_FINAL
  ∧ (recoveryStatus <$>
       cart_at (Cron.world
                  (Cron.processStore Sample.env_frozen "s1"
                     {| Cron.world := Sample.world; Cron.results := Cron.no_results |}).2)
               "c48")
    = Some NOTIFIED_FINAL.
Proof. split_and!; [done | reflexivity | done | reflexivity | reflexivity | reflexivity]. Qed.

(** C9, as the design states it: the code is validated whenever the cart
    carries one.  Refuted by a request without a code for a cart that carries
    one: it is not rejected. *)
Lemma C9_counterexample :
  ¬ (∀ env request w cartId cart expected,
       JS.or_null (Recover.param_cartId request) = Some cartId →
       cart_at w cartId = Some cart →
       JS.or_null (discountCode cart) = Some expected →
       Recover.param_code request ≠ Some expected →
       Recover.GET env request w
       = (Ret (Recover.Json 400 "Invalid discount code"), w)).
Proof.
  intros H.
  specialize (H Sample.env
                {| Recover.param_cartId := Some "c1"; Recover.param_code := None |}
                Sample.world "c1" (Sample.cart "s1" ABANDONED None) "SAVE15"
                eq_refl eq_refl eq_refl).
  assert (Hne : None ≠ Some "SAVE15") by discriminate.
  specialize (H Hne). vm_compute in H. discriminate.
Qed.

(* ===================================================================== *)
(** * The properties at the sample data *)
(* ===================================================================== *)

Lemma C1_initialization_gate_witness :
  shopify_configured Sample.world "s0" = false
  ∧ (CartSyncService.initialize (CartSyncService.new "s0") Sample.world).1
    = Ret (false, CartSyncService.new "s0")
  ∧ (CartSyncService.sendCartRecoveryMessage Sample.env Sample.service "c1" Sample.world).1
    = Ret true
  ∧ CartSyncService.sendCartRecoveryMessage Sample.env (CartSyncService.new "s1") "c1"
      Sample.world
    = (Ret false, Sample.world)
  ∧ CartSyncService.importAbandonedCarts Sample.env (CartSyncService.new "s1") Sample.world
    = (Ret 0%nat, Sample.world)
  ∧ Cron.processStore Sample.env "s0"
      {| Cron.world := Sample.world; Cron.results := Cron.no_results |}
    = (Ret tt, {| Cron.world := Sample.world;
                  Cron.results := Cron.add_errors 1 Cron.no_results |})
  ∧ Recover.GET Sample.env
      {| Recover.param_cartId := Some "c0"; Recover.param_code := None |} Sample.world
    = (Ret (Recover.Json 500 "Failed to initialize cart sync service"), Sample.world)
  ∧ messaging_configured Sample.mute_shop = false
  ∧ CartSyncService.sendCartRecoveryMessage Sample.env Sample.service "c2" Sample.world
    = (Ret false, Sample.world).
Proof.
  destruct (C1_initialization_gate Sample.env "s0" Sample.world)
    as ((svc & Einit & _ & Hfailed) & Hgate & Hscan & _).
  destruct (Hfailed eq_refl) as [-> _].
  destruct (Hgate (CartSyncService.new "s1") "c1" (new_not_initialized "s1"))
    as (Hnosend & _ & _ & Hnoimport & _).
  destruct (Hscan eq_refl) as [Hstore Hendpoint].
  destruct (C1_initialization_gate Sample.env "s2" Sample.world) as (_ & _ & _ & Hsend & _).
  split_and!.
  - reflexivity.
  - by rewrite Einit.
  - reflexivity.
  - exact Hnosend.
  - exact Hnoimport.
  - apply Hstore.
  - apply (Hendpoint _ "c0" (Sample.cart "s0" ABANDONED None)); reflexivity.
  - reflexivity.
  - apply (Hsend _ "c2" (Sample.cart "s2" ABANDONED None) Sample.mute_shop); reflexivity.
Defined.

Lemma C3_send_advances_status_witness :
  cart_at Sample.world "c1" = Some (Sample.cart "s1" ABANDONED None)
  ∧ ∃ cart',
      cart_at (CartSyncService.sendCartRecoveryMessage Sample.env Sample.service "c1"
                 Sample.world).2 "c1" = Some cart'
      ∧ recoveryStatus cart' = NOTIFIED_FIRST
      ∧ lastNotifiedAt cart' = Some (Sample.T0 + 5).
Proof.
  split; [reflexivity|].
  destruct (C3_send_advances_status Sample.env Sample.service "c1" Sample.world
              (Sample.cart "s1" ABANDONED None) eq_refl eq_refl)
    as (cart' & Hc & Hfirst & _ & _ & _ & Hlast).
  exists cart'. split; [exact Hc|]. split; [by apply Hfirst | exact Hlast].
Defined.

Lemma C4_import_idempotent_witness :
  copies "s1" "9001" Sample.world = 0%nat
  ∧ (copies "s1" "9001" (import_times Sample.env Sample.service 2 Sample.world) ≤ 1)%nat
  ∧ (CartSyncService.importAbandonedCarts Sample.env Sample.service Sample.world).1
    = Ret 1%nat
  ∧ (CartSyncService.importAbandonedCarts Sample.env Sample.service
       (CartSyncService.importAbandonedCarts Sample.env Sample.service Sample.world).2).1
    = Ret 0%nat
  ∧ copies "s1" "9001"
      (CartSyncService.importAbandonedCarts Sample.env Sample.service
         (CartSyncService.importAbandonedCarts Sample.env Sample.service Sample.world).2).2
    = 1%nat
  ∧ (0 < copies "s1" "gid-1" Sample.world)%nat
  ∧ CartSyncService.importCheckout Sample.env Sample.service 0
      {| checkout_id := "gid-1"; created_at := 0; updated_at := 0;
         checkout_email := None; checkout_phone := None;
         customer_first_name := None; customer_last_name := None;
         line_items := [] |} Sample.world
    = (Ret 0%nat, Sample.world).
Proof.
  destruct (C4_import_idempotent Sample.env Sample.service Sample.world "9001")
    as (_ & Htimes & Htwice).
  destruct (Htimes 2%nat) as [Hmost _].
  destruct (Htwice Sample.checkout eq_refl eq_refl) as (H1 & H2 & _ & H3);
    [by vm_compute | by eexists | reflexivity | reflexivity | reflexivity |].
  destruct (C4_import_idempotent Sample.env Sample.service Sample.world "gid-1")
    as (Hskip & _ & _).
  split_and!.
  - reflexivity.
  - apply Hmost. reflexivity.
  - exact H1.
  - exact H2.
  - exact H3.
  - vm_compute. lia.
  - apply Hskip; [reflexivity | vm_compute; lia].
Defined.



Lemma C7_recovery_rate_witness :
  ∃ stats,
    CartSyncService.getRecoveryStats Sample.service Sample.stats_world
    = (Ret stats, Sample.stats_world)
    ∧ stats_notified stats = 5%nat ∧ stats_recovered stats = 2%nat
    ∧ stats_recoveryRate stats = 40%float.
Proof.
  destruct (C7_recovery_rate Sample.service Sample.stats_world)
    as (stats & E & Hn & Hr & _ & _ & H40).
  exists stats. split_and!; [exact E | exact Hn | exact Hr | apply H40; reflexivity].
Defined.


Lemma C9_manual_recovery_witness :
  Recover.GET Sample.env
    {| Recover.param_cartId := Some "c1"; Recover.param_code := Some "WRONG" |} Sample.world
  = (Ret (Recover.Json 400 "Invalid discount code"), Sample.world)
  ∧ (∃ w' cart',
       Recover.GET Sample.env
         {| Recover.param_cartId := Some "c1"; Recover.param_code := Some "SAVE15" |}
         Sample.world
       = (Ret (Recover.Redirect "https://shop.example/checkout?key=1&discount=SAVE15"), w')
       ∧ cart_at w' "c1" = Some cart'
       ∧ recoveryStatus cart' = RECOVERED
       ∧ recoveredAt cart' = Some Sample.T0)
  ∧ (∃ w' cart',
       Recover.GET Sample.env_relative
         {| Recover.param_cartId := Some "c1"; Recover.param_code := Some "SAVE15" |}
         Sample.world
       = (Ret (Recover.Json 500 "Internal server error"), w')
       ∧ cart_at w' "c1" = Some cart'
       ∧ recoveryStatus cart' = RECOVERED
       ∧ recoveredAt cart' = Some Sample.T0).
Proof.
  split_and!.
  - destruct (C9_manual_recovery Sample.env
                {| Recover.param_cartId := Some "c1"; Recover.param_code := Some "WRONG" |}
                Sample.world) as [Hreject _].
    apply (Hreject "c1" (Sample.cart "s1" ABANDONED None) "WRONG" "SAVE15");
      [reflexivity | reflexivity | reflexivity | reflexivity | done].
  - destruct (C9_manual_recovery Sample.env
                {| Recover.param_cartId := Some "c1"; Recover.param_code := Some "SAVE15" |}
                Sample.world) as (_ & Hredirect & _).
    apply (Hredirect "c1" (Sample.cart "s1" ABANDONED None) eq_refl eq_refl eq_refl eq_refl
             "https://shop.example/checkout?key=1&discount=SAVE15");
      [reflexivity | done].
  - destruct (C9_manual_recovery Sample.env_relative
                {| Recover.param_cartId := Some "c1"; Recover.param_code := Some "SAVE15" |}
                Sample.world) as (_ & Hredirect & _).
    apply (Hredirect "c1" (Sample.cart "s1" ABANDONED None) eq_refl eq_refl eq_refl eq_refl
             "/checkouts/cn/abc?key=1&discount=SAVE15");
      [reflexivity | done].
Defined.

Lemma C10_recovered_without_redirect_witness :
  ∃ w' cart',
    Recover.GET Sample.env_down
      {| Recover.param_cartId := Some "c1"; Recover.param_code := None |} Sample.world
    = (Ret (Recover.Json 500 "Failed to get recovery URL"), w')
    ∧ cart_at w' "c1" = Some cart'
    ∧ recoveryStatus cart' = RECOVERED
    ∧ recoveredAt cart' = Some Sample.T0.
Proof.
  destruct (C10_recovered_without_redirect Sample.env_down
              {| Recover.param_cartId := Some "c1"; Recover.param_code := None |}
              Sample.world "c1" (Sample.cart "s1" ABANDONED None)
              eq_refl eq_refl eq_refl eq_refl) as (_ & _ & Hfail).
  apply (Hfail None); reflexivity.
Defined.

Lemma C6_expiry_witness :
  cart_at Sample.world "c49"
  = Some (Sample.cart "s1" NOTIFIED_FINAL (Some (Sample.T0 - Cron.hours 49)))
  ∧ cart_at (Cron.world
               (Cron.processStore Sample.env "s1"
                  {| Cron.world := Sample.world; Cron.results := Cron.no_results |}).2) "c49"
    = Some (set_recoveryStatus LOST
              (Sample.cart "s1" NOTIFIED_FINAL (Some (Sample.T0 - Cron.hours 49))))
  ∧ cart_at (Cron.world
               (Cron.processStore Sample.env "s1"
                  {| Cron.world := Sample.world; Cron.results := Cron.no_results |}).2) "c50"
    = Some (Sample.cart "s1" LOST (Some (Sample.T0 - Cron.hours 50))).
Proof.
  destruct (C6_expiry Sample.env "s1"
              {| Cron.world := Sample.world; Cron.results := Cron.no_results |})
    as (Hscan & _ & _ & Hlost).
  split_and!.
  - reflexivity.
  - apply (Hscan eq_refl) with (t := Sample.T0 - Cron.hours 49).
    + intros a b Hab. simpl. lia.
    + reflexivity.
    + reflexivity.
    + reflexivity.
    + reflexivity.
    + vm_compute. reflexivity.
  - apply Hlost; reflexivity.
Defined.

(* ===================================================================== *)
(** * Further properties: item mapping *)
(* ===================================================================== *)

Lemma find_found {A} (f : A → bool) (l : list A) x :
  x ∈ l → f x = true → ∃ y, List.find f l = Some y ∧ y ∈ l ∧ f y = true.
Proof.
  induction l as [|a l IH]; intros Hx Hf; [by apply elem_of_nil in Hx|].
  simpl. destruct (f a) eqn:Ha.
  - exists a. split_and!; [done | by left | done].
  - apply elem_of_cons in Hx as [-> | Hx]; [congruence|].
    destruct (IH Hx Hf) as (y & Hy & Hin & Hfy). exists y. split_and!; [done | by right | done].
Qed.

Lemma find_sound {A} (f : A → bool) (l : list A) y :
  List.find f l = Some y → y ∈ l ∧ f y = true.
Proof.
  intros H. apply find_some in H as [Hin Hf]. split; [by apply list_elem_of_In | done].
Qed.

(** The remote lines of a list of items are, in order, those of the items
    that have a mapping. *)
Lemma to_remote_items_spec d store_id items :
  Forall2 (sent_as d store_id) (to_remote_items d store_id items)
          (filter (mapped d store_id) items).
Proof.
  induction items as [|item rest IH]; simpl; [constructor|].
  destruct (List.find _ (productMappings d)) as [pm|] eqn:Hfind; simpl.
  - apply find_sound in Hfind as [Hin Hpm].
    apply andb_true_iff in Hpm as [Hp Hs]. apply bool_decide_eq_true in Hp, Hs.
    rewrite filter_cons_True.
    + constructor; [|done]. split; [done|]. by exists pm.
    + apply Exists_exists. by exists pm.
  - rewrite filter_cons_False; [done|].
    intros (pm & Hin & Hp & Hs)%Exists_exists.
    destruct (find_found
                (λ pm, bool_decide (metastoreProductId pm = item_id item)
                       && bool_decide (mapping_storeId pm = store_id))
                (productMappings d) pm Hin) as (y & Hy & _).
    { by rewrite !bool_decide_eq_true_2. }
    rewrite Hfind in Hy. done.
Qed.

(** What a line resolves to, and when it resolves to nothing. *)
Lemma resolve_line_Some d store_id line item :
  resolve_line d store_id line = Some item →
  resolvable d store_id line ∧ received_as d store_id item line.
Proof.
  unfold resolve_line, resolvable, received_as.
  destruct (variant_id line) as [variant|]; simpl; [|done].
  destruct (mapping_of d store_id variant) as [pm|] eqn:Hm; simpl; [|done].
  destruct (products d !! metastoreProductId pm) as [p|] eqn:Hp; simpl; [|done].
  intros [= <-]. simpl. split.
  - exists variant, pm. by rewrite Hp.
  - split; [done|]. apply find_sound in Hm as [Hin Hpm].
    apply andb_true_iff in Hpm as [Hv Hs]. apply bool_decide_eq_true in Hv, Hs.
    exists pm, p. split_and!; try done. by rewrite Hv.
Qed.

Lemma resolve_line_None d store_id line :
  resolve_line d store_id line = None → ¬ resolvable d store_id line.
Proof.
  unfold resolve_line, resolvable. intros Hnone (variant & pm & Hv & Hm & [p Hp]).
  rewrite Hv in Hnone. simpl in Hnone. rewrite Hm in Hnone. simpl in Hnone.
  rewrite Hp in Hnone. done.
Qed.

Lemma resolve_lines_spec d store_id lineItems :
  Forall2 (received_as d store_id) (omap (resolve_line d store_id) lineItems)
          (filter (resolvable d store_id) lineItems).
Proof.
  induction lineItems as [|line rest IH]; simpl; [constructor|].
  destruct (resolve_line d store_id line) as [item|] eqn:Hline.
  - apply resolve_line_Some in Hline as [Hres Hrec].
    rewrite filter_cons_True by done. by constructor.
  - apply resolve_line_None in Hline. by rewrite filter_cons_False.
Qed.

(** The items of a record: those its lines resolve to when every line names
    a variant, none when one does not. *)
Lemma to_local_items_named d store_id lineItems :
  Forall (λ line, is_Some (variant_id line)) lineItems →
  to_local_items d store_id lineItems = omap (resolve_line d store_id) lineItems.
Proof.
  intros Hall. unfold to_local_items.
  assert (H : forallb (λ item, bool_decide (is_Some (variant_id item))) lineItems = true).
  { apply forallb_forall. intros line Hin. apply bool_decide_eq_true.
    rewrite Forall_forall in Hall. by apply Hall, list_elem_of_In. }
  by rewrite H.
Qed.

Lemma to_local_items_unnamed d store_id lineItems :
  Exists (λ line, variant_id line = None) lineItems →
  to_local_items d store_id lineItems = [].
Proof.
  intros (line & Hin & Hnone)%Exists_exists. unfold to_local_items.
  destruct (forallb _ lineItems) eqn:H; [|done].
  rewrite forallb_forall in H. specialize (H line (proj1 (list_elem_of_In _ _) Hin)).
  rewrite Hnone in H. apply bool_decide_eq_true in H. by destruct H.
Qed.

Lemma to_local_items_sub d store_id lineItems item :
  item ∈ to_local_items d store_id lineItems →
  ∃ line, line ∈ lineItems ∧ resolve_line d store_id line = Some item.
Proof.
  unfold to_local_items. destruct (forallb _ lineItems); [|by intros H; apply elem_of_nil in H].
  intros (line & Hin & Hline)%list_elem_of_omap. by exists line.
Qed.

Section MappingProperties.
Variable this : CartSyncService.t.

(** X1. The local-to-remote item mapping never fails and writes nothing.  The
    remote lines it returns are, one for one and in order, the items that
    have a product mapping for the store, each sent with its own quantity
    under the variant of a mapping of its product; the items without a
    mapping are dropped and the others stay.  So there are never more lines
    than items, and when every item has a mapping there is a line for each. *)
Theorem X1_items_to_remote items w :
  let store_id := CartSyncService.this_storeId this in
  ∃ lines,
    CartSyncService.mapMetastoreItemsToShopify this items w = (Ret lines, w)
    ∧ Forall2 (sent_as (db w) store_id) lines (filter (mapped (db w) store_id) items)
    ∧ (length lines ≤ length items)%nat
    ∧ (Forall (mapped (db w) store_id) items →
       map quantity lines = map item_quantity items).
Proof.
  intros store_id. eexists. split; [apply mapMetastoreItemsToShopify_run|].
  fold store_id.
  pose proof (to_remote_items_spec (db w) store_id items) as Hspec.
  split; [exact Hspec|]. split.
  - rewrite (Forall2_length _ _ _ Hspec). apply length_filter.
  - intros Hall.
    assert (Hid : filter (mapped (db w) store_id) items = items).
    { clear Hspec. induction Hall as [|item rest Hitem Hrest IH]; [done|].
      rewrite filter_cons_True by done. by rewrite IH. }
    rewrite Hid in Hspec. clear Hid Hall.
    induction Hspec as [|l item lines rest [Hq _] _ IH]; [done|].
    simpl. by rewrite Hq, IH.
Qed.

(** X2. The remote-to-local item mapping never fails and writes nothing.  When
    every line names a variant, the items it returns are, one for one and in
    order, the lines whose variant has a mapping of the store that leads to an
    existing product, each received as that product, with its name and price
    and the quantity of the line; the other lines are dropped.  When one line
    names no variant, the mapping of the whole record is given up and no item
    is returned, whatever the other lines are. *)
Theorem X2_items_to_local lineItems w :
  let store_id := CartSyncService.this_storeId this in
  ∃ cartItems,
    CartSyncService.mapShopifyItemsToMetastore this lineItems w = (Ret cartItems, w)
    ∧ (Forall (λ line, is_Some (variant_id line)) lineItems →
       Forall2 (received_as (db w) store_id) cartItems
               (filter (resolvable (db w) store_id) lineItems))
    ∧ (Exists (λ line, variant_id line = None) lineItems → cartItems = [])
    ∧ (length cartItems ≤ length lineItems)%nat.
Proof.
  intros store_id. eexists. split; [apply mapShopifyItemsToMetastore_run|].
  fold store_id. split_and!.
  - intros Hall. rewrite to_local_items_named by done. apply resolve_lines_spec.
  - apply to_local_items_unnamed.
  - unfold to_local_items. destruct (forallb _ lineItems); [|simpl; lia].
    rewrite (Forall2_length _ _ _ (resolve_lines_spec (db w) store_id lineItems)).
    apply length_filter.
Qed.

(** X3. Round trip of the two mappings.  When the store's mappings are
    one-to-one on variants and every item of a cart has a mapping and an
    existing product, mapping the items to remote lines and mapping those
    lines, as line items of a listing, back to local items gives the same
    product ids with the same quantities, in the same order. *)
Theorem X3_mapping_round_trip items w :
  let store_id := CartSyncService.this_storeId this in
  variants_unique (db w) store_id →
  (∀ item, item ∈ items →
     (∃ pm, pm ∈ productMappings (db w)
            ∧ metastoreProductId pm = item_id item ∧ mapping_storeId pm = store_id)
     ∧ is_Some (products (db w) !! item_id item)) →
  ∃ lines cartItems,
    CartSyncService.mapMetastoreItemsToShopify this items w = (Ret lines, w)
    ∧ CartSyncService.mapShopifyItemsToMetastore this (map as_line_item lines) w
      = (Ret cartItems, w)
    ∧ map (λ item, (item_id item, item_quantity item)) cartItems
      = map (λ item, (item_id item, item_quantity item)) items.
Proof.
  intros store_id Huniq Hevery. eexists _, _.
  split; [apply mapMetastoreItemsToShopify_run|].
  split; [apply mapShopifyItemsToMetastore_run|].
  fold store_id.
  rewrite to_local_items_named by (apply Forall_fmap, Forall_true; by eexists).
  revert Huniq Hevery. generalize (db w). intros d Huniq Hevery.
  induction items as [|item rest IH]; [done|].
  destruct (Hevery item) as [(pm0 & Hin0 & Hp0 & Hs0) [p Hprod]]; [by left|].
  simpl.
  destruct (find_found
              (λ pm, bool_decide (metastoreProductId pm = item_id item)
                     && bool_decide (mapping_storeId pm = store_id))
              (productMappings d) pm0 Hin0) as (pm & Hfind & Hin & Hpm).
  { by rewrite !bool_decide_eq_true_2. }
  rewrite Hfind. simpl. unfold resolve_line at 1, mapping_of. simpl.
  apply andb_true_iff in Hpm as [Hp Hs]. apply bool_decide_eq_true in Hp, Hs.
  destruct (find_found
              (λ pm', bool_decide (shopifyVariantId pm' = shopifyVariantId pm)
                      && bool_decide (mapping_storeId pm' = store_id))
              (productMappings d) pm Hin) as (pm' & Hfind' & Hin' & Hpm').
  { by rewrite !bool_decide_eq_true_2. }
  rewrite Hfind'. simpl.
  apply andb_true_iff in Hpm' as [Hv' Hs']. apply bool_decide_eq_true in Hv', Hs'.
  assert (Hsame : metastoreProductId pm' = item_id item).
  { rewrite <- Hp. by apply Huniq. }
  rewrite Hsame, Hprod. simpl. f_equal.
  apply IH. intros item' Hi. apply Hevery. by right.
Qed.

End MappingProperties.

(* ===================================================================== *)
(** * Further properties: recovery URL, sending, synchronisation *)
(* ===================================================================== *)

Lemma or_null_idem x : JS.or_null (JS.or_null x) = JS.or_null x.
Proof.
  unfold JS.or_null. destruct (JS.truthy_ostr x) eqn:E; [by rewrite E | done].
Qed.

Lemma or_null_Some x r : JS.or_null x = Some r → x = Some r ∧ r ≠ "".
Proof.
  unfold JS.or_null, JS.truthy_ostr, JS.truthy_str. destruct x as [s|]; [|done].
  case_bool_decide; [|done]. by intros [= ->].
Qed.

Section UrlAndSend.
Variable env : Env.
Variable this : CartSyncService.t.

(** The run of [getCartRecoveryUrl] on a cart that carries a remote id [r]:
    the synchronisation comes first, then the remote cart [r] is looked up,
    then its checkout URL is asked for. *)
Lemma getCartRecoveryUrl_run cartId w cart r :
  initialized this →
  cart_at w cartId = Some cart →
  JS.or_null (shopifyCartId cart) = Some r →
  let synced := sync_spec env (CartSyncService.this_storeId this) cartId w in
  let t := tick synced.2 in
  CartSyncService.getCartRecoveryUrl env this cartId w
  = match cartQuery env t r with
    | None => (Ret None, {| db := db synced.2; tick := S t |})
    | Some _ =>
        (Ret match JS.or_null (discountCode cart),
                   JS.or_null (checkoutUrlQuery env (S t) r) with
             | Some code, Some url => Some (url +:+ "&discount=" +:+ code)
             | _, _ => JS.or_null (checkoutUrlQuery env (S t) r)
             end,
         {| db := db synced.2; tick := S (S t) |})
    end.
Proof.
  intros Hon Hc Hr. cbv zeta.
  unfold CartSyncService.getCartRecoveryUrl, try_catch.
  run_read. simpl. unfold cart_at in Hc. rewrite Hc. simpl. rewrite Hr.
  destruct (sync_spec_effect env this cartId w) as (r' & w1 & Hs & _).
  erewrite bind_run by (rewrite syncCartToShopify_run by done; apply Hs).
  rewrite Hs. simpl.
  erewrite bind_run by (by apply getShopifyCart_run).
  destruct (cartQuery env (tick w1) r); [|done].
  erewrite bind_run by (by apply getShopifyCheckoutUrl_run). simpl. rewrite or_null_idem.
  by destruct (JS.or_null (discountCode cart)), (JS.or_null (checkoutUrlQuery _ _ _)).
Qed.

(** Without a remote id on the cart nothing is asked and nothing written. *)
Lemma getCartRecoveryUrl_null cartId w :
  (cart_at w cartId = None →
   CartSyncService.getCartRecoveryUrl env this cartId w = (Ret None, w))
  ∧ (∀ cart,
       cart_at w cartId = Some cart → JS.or_null (shopifyCartId cart) = None →
       CartSyncService.getCartRecoveryUrl env this cartId w = (Ret None, w)).
Proof.
  split.
  - intros Hc. unfold CartSyncService.getCartRecoveryUrl, try_catch.
    run_read. simpl. unfold cart_at in Hc. by rewrite Hc.
  - intros cart Hc Hr. unfold CartSyncService.getCartRecoveryUrl, try_catch.
    run_read. simpl. unfold cart_at in Hc. rewrite Hc. simpl. by rewrite Hr.
Qed.

(** X4. Without a cart, or without a remote id on the cart, [getCartRecoveryUrl]
    answers null at once: nothing is synchronised, no remote call is made and
    nothing is written, not even when every remote call would succeed. *)
Theorem X4_recovery_url_needs_remote_id cartId w :
  (cart_at w cartId = None ∨
   ∃ cart, cart_at w cartId = Some cart ∧ JS.or_null (shopifyCartId cart) = None) →
  CartSyncService.getCartRecoveryUrl env this cartId w = (Ret None, w).
Proof.
  destruct (getCartRecoveryUrl_null cartId w) as [Hmissing Hnoid].
  intros [Hc | (cart & Hc & Hr)]; [by apply Hmissing | by apply (Hnoid cart)].
Qed.

(** X5. On a cart that carries a remote id, [getCartRecoveryUrl] of an
    initialised service answers null when the remote cart cannot be fetched or
    has no checkout URL; otherwise it answers the checkout URL of that remote
    id, followed by "&discount=" and the cart's discount code when the cart
    has one; the two remote questions are asked after the synchronisation,
    and the only thing written is what the synchronisation wrote.  On a
    service that was never initialised it answers null and nothing happens. *)
Theorem X5_recovery_url_shape cartId w cart r :
  cart_at w cartId = Some cart →
  JS.or_null (shopifyCartId cart) = Some r →
  let synced := sync_spec env (CartSyncService.this_storeId this) cartId w in
  let t := tick synced.2 in
  let run := CartSyncService.getCartRecoveryUrl env this cartId w in
  (initialized this →
   db run.2 = db synced.2
   ∧ (cartQuery env t r = None → run.1 = Ret None)
   ∧ (JS.or_null (checkoutUrlQuery env (S t) r) = None → run.1 = Ret None)
   ∧ (∀ remote checkoutUrl,
        cartQuery env t r = Some remote →
        JS.or_null (checkoutUrlQuery env (S t) r) = Some checkoutUrl →
        run.1 = Ret (Some match JS.or_null (discountCode cart) with
                          | Some code => checkoutUrl +:+ "&discount=" +:+ code
                          | None => checkoutUrl
                          end)))
  ∧ (¬ initialized this → run = (Ret None, w)).
Proof.
  intros Hc Hr. cbv zeta. split; [|apply getCartRecoveryUrl_rejected].
  intros Hon. rewrite (getCartRecoveryUrl_run cartId w cart r Hon Hc Hr).
  cbv zeta. split_and!.
  - by destruct (cartQuery env _ r).
  - by intros ->.
  - intros Hnone. rewrite Hnone.
    destruct (cartQuery env _ r); [|done]. by destruct (JS.or_null (discountCode cart)).
  - intros remote checkoutUrl -> ->. by destruct (JS.or_null (discountCode cart)).
Qed.

(** X6. [sendCartRecoveryMessage] never throws, and a send that answers false
    advances nothing: every cart is still there with the same status,
    timestamps, items and totals; at most the remote id of the cart it was
    called on has been replaced. *)
Theorem X6_failed_send_changes_no_status cartId w :
  let run := CartSyncService.sendCartRecoveryMessage env this cartId w in
  (∃ sent, run.1 = Ret sent)
  ∧ (run.1 = Ret false →
     (∀ k c, k ≠ cartId → cart_at w k = Some c → cart_at run.2 k = Some c)
     ∧ (∀ c, cart_at w cartId = Some c →
        ∃ c', cart_at run.2 cartId = Some c' ∧ same_but_remote c c'
              ∧ recoveryStatus c' = recoveryStatus c
              ∧ lastNotifiedAt c' = lastNotifiedAt c)).
Proof.
  cbv zeta.
  destruct (sendCartRecoveryMessage_effect env this cartId w) as (sent & w' & E & H).
  rewrite E. simpl. split; [by exists sent|].
  intros [= ->].
  destruct (remote_id_written_frame _ _ _ H) as (_ & _ & Hf).
  split.
  - intros k c Hk Hc. by rewrite Hf.
  - intros c Hc. destruct (remote_id_written_still _ _ _ _ H Hc) as (c' & Hc' & Hsame).
    exists c'. split_and!; [done | done | |]; by destruct Hsame as [-> | [r ->]].
Qed.

(** X7. [sendCartRecoveryMessage] answers true only for a cart that exists,
    has a customer phone number and a remote id, and belongs to a store with
    both messaging credentials. *)
Theorem X7_send_preconditions cartId w :
  (CartSyncService.sendCartRecoveryMessage env this cartId w).1 = Ret true →
  ∃ cart store phone r,
    cart_at w cartId = Some cart
    ∧ JS.or_null (customerPhone cart) = Some phone
    ∧ JS.or_null (shopifyCartId cart) = Some r
    ∧ stores (db w) !! storeId cart = Some store
    ∧ messaging_configured store = true.
Proof.
  unfold CartSyncService.sendCartRecoveryMessage, try_catch.
  run_read. simpl.
  destruct (cart_at w cartId) as [cart|] eqn:Hc; unfold cart_at in Hc; rewrite Hc;
    [|by intros [=]].
  destruct (JS.or_null (customerPhone cart)) as [phone|] eqn:Hphone; [|by intros [=]].
  run_read. simpl.
  destruct (stores (db w) !! storeId cart) as [store|] eqn:Hstore; simpl; [|by intros [=]].
  destruct (JS.or_null (whatsappPhoneNumberId store)) as [phoneNumberId|] eqn:Hid;
    [|by intros [=]].
  destruct (JS.or_null (whatsappAccessToken store)) as [accessToken|] eqn:Htoken;
    [|by intros [=]].
  destruct (JS.or_null (shopifyCartId cart)) as [r|] eqn:Hr.
  - intros _. exists cart, store, phone, r. split_and!; try done.
    unfold messaging_configured.
    unfold JS.or_null in Hid, Htoken.
    destruct (JS.truthy_ostr (whatsappPhoneNumberId store)); [|done].
    by destruct (JS.truthy_ostr (whatsappAccessToken store)).
  - destruct (getCartRecoveryUrl_null cartId w) as [_ Hnull].
    run_with (Hnull cart Hc Hr). simpl. by intros [=].
Qed.

(** X8. [syncCartToShopify] never throws and writes at most one field: the
    remote id of the cart it is called on.  Stores, products and mappings,
    every other cart, and every other field of that cart stay as they were;
    a cart that does not exist is not created. *)
Theorem X8_sync_writes_remote_id_only cartId w :
  let run := CartSyncService.syncCartToShopify env this cartId w in
  (∃ r, run.1 = Ret r)
  ∧ same_catalog w run.2
  ∧ (∀ k, k ≠ cartId → cart_at run.2 k = cart_at w k)
  ∧ (∀ c, cart_at w cartId = Some c →
     ∃ c', cart_at run.2 cartId = Some c' ∧ same_but_remote c c')
  ∧ (cart_at w cartId = None → cart_at run.2 cartId = None).
Proof.
  cbv zeta.
  destruct (syncCartToShopify_effect env this cartId w) as (r & w' & E & H).
  rewrite E. simpl.
  destruct (remote_id_written_frame _ _ _ H) as (Hcat & _ & Hf).
  split_and!; [by exists r | done | done | |].
  - intros c Hc. apply (remote_id_written_still _ _ _ _ H Hc).
  - intros Hc. destruct H as [_ [Hdb | (c & r' & Hc' & _)]]; [|congruence].
    unfold cart_at in *. by rewrite Hdb.
Qed.

(** X9. [processRecovery] answers whether the cart exists.  On a cart that
    does not exist it answers false and creates nothing; on any existing cart,
    whatever its status, it writes [RECOVERED] and the time; no other cart is
    touched. *)
Theorem X9_process_recovery cartId w :
  let run := CartSyncService.processRecovery env cartId w in
  run.1 = Ret (bool_decide (is_Some (cart_at w cartId)))
  ∧ (cart_at w cartId = None → db run.2 = db w)
  ∧ (∀ c, cart_at w cartId = Some c →
     cart_at run.2 cartId = Some (recovered_row (clock env (tick w)) c))
  ∧ (∀ k, k ≠ cartId → cart_at run.2 k = cart_at w k).
Proof.
  cbv zeta. destruct (cart_at w cartId) as [c|] eqn:Hc.
  - rewrite (processRecovery_run env cartId w c Hc). simpl.
    split_and!; [done | done | |].
    + intros c' [= <-]. unfold cart_at. simpl. by rewrite lookup_insert_eq.
    + intros k Hk. unfold cart_at. simpl. by rewrite lookup_insert_ne.
  - assert (E : CartSyncService.processRecovery env cartId w
                = (Ret false, {| db := db w; tick := S (tick w) |})).
    { unfold CartSyncService.processRecovery, try_catch.
      run_read. unfold bind, prisma.cart.update, bind, get_db. simpl.
      unfold cart_at in Hc. by rewrite Hc. }
    rewrite E. simpl. split_and!; try done.
Qed.

End UrlAndSend.

(* ===================================================================== *)
(** * Further properties: statistics and import *)
(* ===================================================================== *)

Lemma rows_cons_length {V} (P : V → bool) (kv : string * V) (l : list (string * V)) :
  length (filter (λ kv, P kv.2 = true) (kv :: l))
  = ((if P kv.2 then 1 else 0) + length (filter (λ kv, P kv.2 = true) l))%nat.
Proof. rewrite filter_cons. destruct (P kv.2); by case_decide. Qed.

(** Every cart of a store is in exactly one status. *)
Lemma status_partition store_id (l : list (string * Cart)) :
  let count := λ s,
    length (filter (λ kv, CartSyncService.has_status (CartSyncService.new store_id) s kv.2
                          = true) l) in
  length (filter (λ kv, of_store store_id kv.2 = true) l)
  = (count NONE + count ABANDONED + count NOTIFIED_FIRST + count NOTIFIED_FINAL
     + count RECOVERED + count LOST)%nat.
Proof.
  cbv zeta. induction l as [|kv l IH]; [done|].
  rewrite !rows_cons_length, IH.
  unfold CartSyncService.has_status, of_store. simpl.
  destruct (decide (storeId kv.2 = store_id)) as [Hs|Hs].
  - rewrite !(bool_decide_eq_true_2 (storeId kv.2 = store_id)) by done. simpl.
    destruct (recoveryStatus kv.2); simpl; lia.
  - rewrite !(bool_decide_eq_false_2 (storeId kv.2 = store_id)) by done. simpl. lia.
Qed.

Section StatsAndImport.
Variable env : Env.
Variable this : CartSyncService.t.

(** X10. [getRecoveryStats] never fails and writes nothing, and its four
    counts partition the store's carts that have left [NONE]: abandoned +
    notified + recovered + lost, plus the store's carts still in [NONE], is
    the number of carts of the store; carts of other stores are not counted. *)
Theorem X10_stats_partition w :
  let store_id := CartSyncService.this_storeId this in
  ∃ stats,
    CartSyncService.getRecoveryStats this w = (Ret stats, w)
    ∧ (stats_abandoned stats + stats_notified stats + stats_recovered stats
       + stats_lost stats + in_status store_id NONE w)%nat
      = length (carts_of store_id w)
    ∧ stats_abandoned stats = in_status store_id ABANDONED w
    ∧ stats_notified stats
      = (in_status store_id NOTIFIED_FIRST w + in_status store_id NOTIFIED_FINAL w)%nat
    ∧ stats_recovered stats = in_status store_id RECOVERED w
    ∧ stats_lost stats = in_status store_id LOST w.
Proof.
  intros store_id. eexists. split; [apply getRecoveryStats_run|]. simpl.
  split; [|done].
  unfold carts_of, in_status, prisma.rows.
  pose proof (status_partition store_id (map_to_list (carts (db w)))) as H.
  cbv zeta in H. rewrite H. clear H.
  change (CartSyncService.has_status this) with
    (CartSyncService.has_status (CartSyncService.new store_id)).
  lia.
Qed.

Lemma to_local_items_sound d store_id lineItems item :
  item ∈ to_local_items d store_id lineItems →
  ∃ p, products d !! item_id item = Some p
       ∧ item_name item = product_name p ∧ item_price item = product_price p.
Proof.
  intros (line & _ & Hline)%to_local_items_sub.
  apply resolve_line_Some in Hline as [_ (_ & pm & p & _ & _ & _ & _ & Hp & Hn & Hpr)].
  by exists p.
Qed.

(** X11. [importAbandonedCarts] only adds carts.  Stores, products and
    mappings and every cart that existed stay as they were, and every cart it
    adds belongs to the importing store, is [ABANDONED], carries a remote id,
    has at least one item, each an existing product with its name and price,
    has the in-order sum of price times quantity as total, and has no discount,
    no notification and no recovery recorded. *)
Theorem X11_import_only_adds w :
  let store_id := CartSyncService.this_storeId this in
  let w' := (CartSyncService.importAbandonedCarts env this w).2 in
  same_catalog w w'
  ∧ (∀ k c, cart_at w k = Some c → cart_at w' k = Some c)
  ∧ (∀ k c, cart_at w' k = Some c → cart_at w k = None →
     fresh_import (db w) store_id c).
Proof.
  intros store_id. cbv zeta.
  apply (importAbandonedCarts_keeps env this
           (λ w', same_catalog w w'
                  ∧ (∀ k c, cart_at w k = Some c → cart_at w' k = Some c)
                  ∧ (∀ k c, cart_at w' k = Some c → cart_at w k = None →
                     fresh_import (db w) store_id c))).
  - done.
  - intros n checkout w1 (Hcat & Hold & Hnew). unfold import_spec.
    case_decide as Hz; [|done].
    destruct (to_local_items (db w1) (CartSyncService.this_storeId this)
                (line_items checkout)) as [|item rest] eqn:Hitems; [done|].
    destruct (cart_at w1 (newCartId env (S (tick w1)))) eqn:Hid; simpl; [done|].
    split_and!.
    + done.
    + intros k c Hk. unfold cart_at. simpl.
      rewrite lookup_insert_ne; [by apply Hold|].
      intros <-. specialize (Hold _ _ Hk). congruence.
    + intros k c. unfold cart_at at 1. simpl.
      destruct (decide (newCartId env (S (tick w1)) = k)) as [<-|Hne].
      * rewrite lookup_insert_eq. intros [= <-] _.
        unfold fresh_import. simpl.
        split_and!; try done.
        -- apply cart_total_sum.
        -- by eexists.
        -- intros it Hit. destruct Hcat as (_ & Hprod & _). rewrite <- Hprod.
           apply (to_local_items_sound _ (CartSyncService.this_storeId this)
                    (line_items checkout)).
           by rewrite Hitems.
      * rewrite lookup_insert_ne by done. apply Hnew.
  - split_and!; [done | done | intros; congruence].
Qed.

Lemma import_loop_count checkouts n w :
  let run := for_of checkouts (CartSyncService.importCheckout env this) n w in
  (size (carts (db w)) ≤ size (carts (db run.2)))%nat
  ∧ ∀ n', run.1 = Ret n' →
      (n ≤ n')%nat ∧ size (carts (db run.2)) = (size (carts (db w)) + (n' - n))%nat.
Proof.
  cbv zeta. revert n w. induction checkouts as [|checkout rest IH]; intros n w.
  { simpl. split; [done|]. intros n' [= <-]. lia. }
  rewrite for_of_cons, importCheckout_run. unfold import_spec.
  case_decide as Hz; [|simpl; apply IH].
  destruct (to_local_items _ _ _) as [|item items]; [simpl; apply IH|].
  destruct (cart_at w (newCartId env (S (tick w)))) eqn:Hid; [by split|].
  cbv beta iota.
  match goal with
  | |- context [for_of rest _ (S n) ?w1] => destruct (IH (S n) w1) as [Hle Heq]
  end.
  simpl in Hle. rewrite map_size_insert_None in Hle by done.
  split; [lia|].
  intros n' Hn'. destruct (Heq n' Hn') as [Hle' Hsize].
  simpl in Hsize. rewrite map_size_insert_None in Hsize by done. lia.
Qed.

(** X12. The count [importAbandonedCarts] returns never exceeds the number of
    carts it added: the cart table grows by at least the returned count, and
    never shrinks. *)
Theorem X12_import_count w :
  let run := CartSyncService.importAbandonedCarts env this w in
  ∃ imported,
    run.1 = Ret imported
    ∧ (size (carts (db w)) + imported ≤ size (carts (db run.2)))%nat.
Proof.
  cbv zeta.
  destruct (decide (initialized this)) as [Hon|Hoff].
  2:{ rewrite importAbandonedCarts_rejected by done. exists 0%nat. split; [done | simpl; lia]. }
  rewrite (importAbandonedCarts_run env this w Hon).
  destruct (import_loop_count (checkoutsQuery env (tick w)) 0
              {| db := db w; tick := S (tick w) |}) as [Hle Heq].
  cbv zeta in Hle, Heq.
  destruct (for_of _ _ _ _) as [[n'|] w'] eqn:E; simpl in *.
  - exists n'. split; [done|]. destruct (Heq n' eq_refl). lia.
  - exists 0%nat. split; [done | lia].
Qed.

End StatsAndImport.

(* ===================================================================== *)
(** * Further properties: the scan *)
(* ===================================================================== *)

(** A computation that leaves the state alone keeps every invariant. *)
Lemma keeps_read {S A} (I : S → Prop) (m : St S A) :
  (∀ s, (m s).2 = s) → keeps I m.
Proof. intros Hm s Hs. by rewrite Hm. Qed.


Lemma lift_read {A} (m : M A) : (∀ w, (m w).2 = w) → ∀ s, (Cron.lift m s).2 = s.
Proof.
  intros Hm s. unfold Cron.lift. specialize (Hm (Cron.world s)).
  destruct (m (Cron.world s)) as [o w']. simpl in *. subst. by destruct s.
Qed.

Lemma initialize_read this w : (CartSyncService.initialize this w).2 = w.
Proof.
  unfold CartSyncService.initialize, try_catch. run_read. simpl.
  destruct (stores (db w) !! _) as [st|]; [|done].
  by destruct (negb _ || negb _).
Qed.

Lemma getRecoveryStats_read this w : (CartSyncService.getRecoveryStats this w).2 = w.
Proof. by rewrite getRecoveryStats_run. Qed.

Lemma findMany_read P w : (prisma.cart.findMany P w).2 = w.
Proof. done. Qed.

(** The rule for a loop whose body reaches a goal at one element: if every
    iteration returns, keeps [I] and keeps [J], and the iteration at [x] turns
    [I] into [J], the loop over a list that contains [x] turns [I] into [J]. *)
Lemma for_each_reaches {S A} (I J : S → Prop) (xs : list A) (body : A → St S unit) x :
  x ∈ xs →
  (∀ y, returns (body y)) →
  (∀ y, y ∈ xs → keeps I (body y)) →
  (∀ y, y ∈ xs → keeps J (body y)) →
  (∀ s, I s → J (body x s).2) →
  ∀ s, I s → J (for_each xs body s).2.
Proof.
  intros Hx Hret HI HJ Hreach. induction xs as [|y xs IH]; [by apply elem_of_nil in Hx|].
  intros s Hs. unfold for_each. rewrite for_of_cons.
  apply elem_of_cons in Hx as [<- | Hx].
  - specialize (Hreach s Hs). destruct (body x s) as [[[]|] s']; simpl in *; [|done].
    apply (keeps_for_each J); [|done]. intros z Hz. apply HJ. by right.
  - assert (Hy : I (body y s).2) by (apply HI; [by left | done]).
    destruct (Hret y s) as [[] Hr].
    destruct (body y s) as [[[]|] s'] eqn:E; simpl in *; [|done].
    apply IH; [done | | | done].
    + intros z Hz. apply HI. by right.
    + intros z Hz. apply HJ. by right.
Qed.

Section EffectRules.
Context {S : Type} (R : S → S → Prop) `{!Reflexive R, !Transitive R}.

Lemma effect_ret {A} (a : A) : effect R (ret a).
Proof. intros s. simpl. reflexivity. Qed.

Lemma effect_throw {A} : effect R (throw (A := A)).
Proof. intros s. simpl. reflexivity. Qed.

Lemma effect_read {A} (m : St S A) : (∀ s, (m s).2 = s) → effect R m.
Proof. intros Hm s. rewrite Hm. reflexivity. Qed.

Lemma effect_bind {A B} (m : St S A) (k : A → St S B) :
  effect R m → (∀ a, effect R (k a)) → effect R (bind m k).
Proof.
  intros Hm Hk s. unfold bind. specialize (Hm s).
  destruct (m s) as [[a|] s']; simpl in *; [|done].
  etransitivity; [exact Hm | apply Hk].
Qed.

Lemma effect_try_catch {A} (m h : St S A) :
  effect R m → effect R h → effect R (try_catch m h).
Proof.
  intros Hm Hh s. unfold try_catch. specialize (Hm s).
  destruct (m s) as [[a|] s']; simpl in *; [done|].
  etransitivity; [exact Hm | apply Hh].
Qed.

Lemma effect_for_of {A B} (xs : list A) (body : B → A → St S B) acc :
  (∀ b x, effect R (body b x)) → effect R (for_of xs body acc).
Proof.
  intros Hb. revert acc. induction xs as [|x xs IH]; intros acc; simpl.
  - apply effect_ret.
  - apply effect_bind; [apply Hb | intros b; apply IH].
Qed.

Lemma effect_for_each {A} (xs : list A) (body : A → St S unit) :
  (∀ x, effect R (body x)) → effect R (for_each xs body).
Proof. intros Hb. apply effect_for_of. intros _ x. apply Hb. Qed.

(** An invariant closed under [R] is kept by a computation of effect [R]. *)
Lemma effect_keeps {A} (I : S → Prop) (m : St S A) :
  (∀ s s', I s → R s s' → I s') → effect R m → keeps I m.
Proof. intros Hclosed Hm s Hs. eapply Hclosed; [exact Hs | apply Hm]. Qed.

End EffectRules.

#[global] Instance same_catalog_refl : Reflexive same_catalog.
Proof. by intros w. Qed.

#[global] Instance same_catalog_trans : Transitive same_catalog.
Proof.
  intros w1 w2 w3 (H1 & H2 & H3) (H4 & H5 & H6). unfold same_catalog. split_and!; congruence.
Qed.

#[global] Instance never_regresses_refl : Reflexive never_regresses.
Proof. intros w. split; [done|]. intros k c Hc. by exists c. Qed.

#[global] Instance never_regresses_trans : Transitive never_regresses.
Proof.
  intros w1 w2 w3 [Hc12 H12] [Hc23 H23]. split; [by etransitivity|].
  intros k c Hk. destruct (H12 k c Hk) as (c2 & Hk2 & Hs2 & Hn2).
  destruct (H23 k c2 Hk2) as (c3 & Hk3 & Hs3 & Hn3).
  exists c3. split_and!; [done | congruence | auto].
Qed.

#[global] Instance scan_effect_refl : Reflexive scan_effect.
Proof. intros s. split; reflexivity. Qed.

#[global] Instance scan_effect_trans : Transitive scan_effect.
Proof.
  intros s1 s2 s3 [H12 Hr12] [H23 Hr23]. split; [by etransitivity | congruence].
Qed.

Section ScanEffects.
Variable env : Env.

(** A write to one row that keeps its store and does not move it back to
    [NONE]. *)
Lemma never_regresses_insert w k c c' t :
  cart_at w k = Some c → storeId c' = storeId c →
  (recoveryStatus c ≠ NONE → recoveryStatus c' ≠ NONE) →
  never_regresses w {| db := set_carts (<[k := c']> (carts (db w))) (db w); tick := t |}.
Proof.
  intros Hk Hs Hn. split; [done|]. intros k0 c0 Hk0. unfold cart_at in *. simpl.
  destruct (decide (k = k0)) as [<-|Hne].
  - rewrite lookup_insert_eq. assert (c0 = c) as -> by congruence.
    exists c'. split_and!; [done | done | done].
  - rewrite lookup_insert_ne by done. by exists c0.
Qed.

Lemma never_regresses_tick w t : never_regresses w {| db := db w; tick := t |}.
Proof. split; [done|]. intros k c Hc. by exists c. Qed.

Lemma remote_id_written_regress k w w' : remote_id_written k w w' → never_regresses w w'.
Proof.
  intros [_ [Hdb | (c & r & Hc & Hdb)]].
  - destruct w' as [d' t']. simpl in Hdb. subst d'. apply never_regresses_tick.
  - destruct w' as [d' t']. simpl in Hdb. subst d'.
    by apply (never_regresses_insert w k c).
Qed.

Lemma ask_effect {A} (f : nat → A) : effect never_regresses (ask f).
Proof. intros w. apply never_regresses_tick. Qed.

Lemma cart_update_effect k data :
  (∀ c, storeId (data c) = storeId c
        ∧ (recoveryStatus c ≠ NONE → recoveryStatus (data c) ≠ NONE)) →
  effect never_regresses (prisma.cart.update k data).
Proof.
  intros Hdata w. unfold prisma.cart.update, bind, get_db. simpl.
  destruct (carts (db w) !! k) as [c|] eqn:Hc; simpl; [|reflexivity].
  destruct (Hdata c). rewrite <- (world_eta w) at 1.
  by apply (never_regresses_insert w k c).
Qed.

Lemma send_effect this k :
  effect never_regresses (CartSyncService.sendCartRecoveryMessage env this k).
Proof.
  intros w.
  destruct (sendCartRecoveryMessage_effect env this k w) as (sent & w' & E & H).
  rewrite E. simpl. destruct sent; [|by apply (remote_id_written_regress k)].
  destruct H as (cart & c1 & w1 & Hc & Hw & Hc1 & _ & Hdb).
  etransitivity; [apply (remote_id_written_regress k _ _ Hw)|].
  destruct w' as [d' t']. simpl in Hdb. subst d'.
  apply (never_regresses_insert w1 k c1); [done | done |].
  intros _. simpl. unfold CartSyncService.next_notified. by case_decide.
Qed.

Lemma import_effect this :
  effect never_regresses (CartSyncService.importAbandonedCarts env this).
Proof.
  intros w.
  apply (importAbandonedCarts_keeps env this (never_regresses w)); [| |reflexivity].
  - intros d t H. etransitivity; [exact H|].
    apply (never_regresses_tick {| db := d; tick := t |}).
  - intros n checkout w1 H. etransitivity; [exact H|]. clear H.
    unfold import_spec. case_decide; [|reflexivity].
    destruct (to_local_items _ _ _); [reflexivity|].
    destruct (cart_at w1 (newCartId env (S (tick w1)))) eqn:Hid; simpl.
    + apply never_regresses_tick.
    + split; [done|]. intros k c Hk. unfold cart_at in *. simpl.
      rewrite lookup_insert_ne by congruence. by exists c.
Qed.

Lemma updateMany_effect P data :
  (∀ c, storeId (data c) = storeId c
        ∧ (recoveryStatus c ≠ NONE → recoveryStatus (data c) ≠ NONE)) →
  effect never_regresses (prisma.cart.updateMany P data).
Proof.
  intros Hdata w. simpl. split; [done|]. intros k c Hk. unfold cart_at in *. simpl.
  rewrite lookup_fmap, Hk. simpl. destruct (P c); [|by exists c].
  exists (data c). destruct (Hdata c). done.
Qed.

Lemma lift_effect {A} (m : M A) :
  effect never_regresses m → effect scan_effect (Cron.lift m).
Proof.
  intros Hm s. unfold Cron.lift. specialize (Hm (Cron.world s)).
  destruct (m (Cron.world s)) as [o w']. by split.
Qed.

Lemma add_effect f :
  (∀ r, Cron.r_stores (f r) = Cron.r_stores r) → effect scan_effect (Cron.update_results f).
Proof. intros Hf s. split; [reflexivity | apply Hf]. Qed.

End ScanEffects.

(** The steps of the scan of a store, taken apart by the rules. *)
Ltac scan_effect_rules :=
  repeat first
    [ apply (effect_ret scan_effect)
    | apply (effect_try_catch scan_effect)
    | apply (effect_bind scan_effect); [|intros ?]
    | apply (effect_for_each scan_effect); intros ?
    | apply add_effect; by intros []
    | apply lift_effect
    | apply ask_effect
    | apply send_effect
    | apply import_effect
    | apply (effect_read never_regresses); first [apply initialize_read
                                                 | apply getRecoveryStats_read
                                                 | apply findMany_read]
    | apply cart_update_effect; by intros []
    | apply updateMany_effect; by intros []
    | match goal with
      | |- effect _ (if ?b then _ else _) => destruct b
      end ].

Section ScanPhases.
Variable env : Env.


Lemma processFollowUp_effect svc store_id :
  effect scan_effect (Cron.processFollowUp env svc store_id).
Proof. unfold Cron.processFollowUp. scan_effect_rules. Qed.

Lemma markLost_effect store_id : effect scan_effect (Cron.markLost env store_id).
Proof. unfold Cron.markLost. scan_effect_rules. Qed.



End ScanPhases.

Lemma try_catch_bind_run {S A B} (m : St S A) (k : A → St S B) (h : St S B) s a s' :
  m s = (Ret a, s') → try_catch (bind m k) h s = try_catch (k a) h s'.
Proof. intros E. unfold try_catch, bind. by rewrite E. Qed.

Lemma keeps_forall {S A X} (I : X → S → Prop) (m : St S A) :
  (∀ x, keeps (I x) m) → keeps (λ s, ∀ x, I x s) m.
Proof. intros Hm s Hs x. by apply Hm. Qed.

Lemma row_regress Q k w w' :
  (∀ c c', Q c → storeId c' = storeId c →
           (recoveryStatus c ≠ NONE → recoveryStatus c' ≠ NONE) → Q c') →
  never_regresses w w' → row_satisfies Q k w → row_satisfies Q k w'.
Proof.
  intros HQ [_ H] (c & Hc & Hq). destruct (H k c Hc) as (c' & Hc' & Hs & Hn).
  exists c'. split; [done|]. by apply (HQ c).
Qed.

Lemma alive_regress k w w' : never_regresses w w' → alive k w → alive k w'.
Proof. apply row_regress. done. Qed.

Lemma past_none_regress k w w' : never_regresses w w' → past_none k w → past_none k w'.
Proof. apply row_regress. intros c c' Hq _ Hn. by apply Hn. Qed.

#[global] Instance time_goes_on_refl : Reflexive time_goes_on.
Proof. intros s. unfold time_goes_on. lia. Qed.

#[global] Instance time_goes_on_trans : Transitive time_goes_on.
Proof. intros s1 s2 s3. unfold time_goes_on. lia. Qed.

Section ScanTime.
Variable env : Env.

Lemma lift_time {A} (m : M A) :
  (∀ w, (tick w ≤ tick (m w).2)%nat) → effect time_goes_on (Cron.lift m).
Proof.
  intros Hm s. unfold time_goes_on, Cron.lift. specialize (Hm (Cron.world s)).
  by destruct (m (Cron.world s)).
Qed.

Lemma results_time f : effect time_goes_on (Cron.update_results f).
Proof. intros s. unfold time_goes_on. simpl. lia. Qed.

Lemma ask_time {A} (f : nat → A) w : (tick w ≤ tick (ask f w).2)%nat.
Proof. simpl. lia. Qed.

Lemma send_time this k w :
  (tick w ≤ tick (CartSyncService.sendCartRecoveryMessage env this k w).2)%nat.
Proof. by destruct (sendCartRecoveryMessage_frame env this k w) as (_ & Hle & _). Qed.

Lemma updateMany_time P data w : (tick w ≤ tick (prisma.cart.updateMany P data w).2)%nat.
Proof. done. Qed.

Lemma read_time {A} (m : M A) w : (∀ w, (m w).2 = w) → (tick w ≤ tick (m w).2)%nat.
Proof. intros Hm. by rewrite Hm. Qed.

End ScanTime.

(** The ticks of the phases of the scan of a store, taken apart by the
    rules. *)
Ltac time_rules :=
  repeat first
    [ apply (effect_ret time_goes_on)
    | apply (effect_try_catch time_goes_on)
    | apply (effect_bind time_goes_on); [|intros ?]
    | apply (effect_for_each time_goes_on); intros ?
    | apply results_time
    | apply lift_time; intros ?;
      first [ apply ask_time
            | apply send_time
            | apply updateMany_time
            | apply read_time; first [apply getRecoveryStats_read | apply findMany_read] ]
    | match goal with
      | |- effect _ (if ?b then _ else _) => destruct b
      end ].

Section ScanSkips.
Variable env : Env.

Lemma never_selected_later store_id t0 t1 c :
  (t0 ≤ t1)%nat → never_selected env store_id t0 c → never_selected env store_id t1 c.
Proof. intros Hle H tk Htk. apply H. lia. Qed.

Lemma other_store_never_selected store_id t0 c :
  storeId c ≠ store_id → never_selected env store_id t0 c.
Proof.
  intros Hs tk _.
  unfold Cron.abandoned_filter, Cron.followUp_filter, Cron.lost_filter.
  by rewrite !(bool_decide_eq_false_2 (storeId c = store_id)).
Qed.

Lemma settled_never_selected store_id t0 c :
  recoveryStatus c = ABANDONED ∨ recoveryStatus c = RECOVERED →
  never_selected env store_id t0 c.
Proof.
  intros Hs tk _.
  unfold Cron.abandoned_filter, Cron.followUp_filter, Cron.lost_filter.
  destruct Hs as [-> | ->];
    rewrite !(bool_decide_eq_false_2 (_ = NONE)),
            !(bool_decide_eq_false_2 (_ = NOTIFIED_FIRST)),
            !(bool_decide_eq_false_2 (_ = NOTIFIED_FINAL)) by done;
    by rewrite !andb_false_r.
Qed.

Lemma processAbandoned_skips svc store_id k c t0 :
  never_selected env store_id t0 c →
  keeps (λ s, unchanged_since k c t0 (Cron.world s)) (Cron.processAbandoned env svc store_id).
Proof.
  intros Hnever s [Hk Ht]. unfold Cron.processAbandoned.
  run_read. run_read. run_read.
  apply keeps_for_each; [|split; [done | simpl; lia]].
  intros row Hrow. simpl in Hrow.
  assert (Hne : row.1 ≠ k).
  { eapply (selected_other _ (Cron.world s)); [exact Hk | | exact Hrow].
    by destruct (Hnever (tick (Cron.world s)) Ht). }
  apply keeps_try_catch; [|apply keeps_update_results].
  apply keeps_bind; [apply keeps_lift, ask_keeps|]. intros now.
  apply keeps_bind; [by apply keeps_lift, cart_update_keeps|]. intros _.
  destruct (JS.truthy_ostr (customerPhone row.2)); [|apply keeps_ret].
  apply keeps_bind; [by apply keeps_lift, send_keeps|]. intros sent.
  destruct sent; [apply keeps_update_results | apply keeps_ret].
Qed.

(** A row that the follow-up query does not select, at the one reading of
    the clock the query makes, goes through the follow-up phase untouched. *)
Lemma processFollowUp_passes svc store_id k c t0 s :
  unchanged_since k c t0 (Cron.world s) →
  Cron.followUp_filter store_id (clock env (tick (Cron.world s))) c = false →
  unchanged_since k c t0 (Cron.world (Cron.processFollowUp env svc store_id s).2).
Proof.
  intros [Hk Ht] Hskip. unfold Cron.processFollowUp.
  run_read. run_read. run_read.
  apply (keeps_for_each (λ s, unchanged_since k c t0 (Cron.world s)));
    [|split; [done | simpl; lia]].
  intros row Hrow. simpl in Hrow.
  assert (Hne : row.1 ≠ k).
  { eapply (selected_other _ (Cron.world s)); [exact Hk | exact Hskip | exact Hrow]. }
  apply keeps_try_catch; [|apply keeps_update_results].
  destruct (JS.truthy_ostr (customerPhone row.2)); [|apply keeps_ret].
  apply keeps_bind; [by apply keeps_lift, send_keeps|]. intros sent.
  destruct sent; [apply keeps_update_results | apply keeps_ret].
Qed.

Lemma processFollowUp_skips svc store_id k c t0 :
  never_selected env store_id t0 c →
  keeps (λ s, unchanged_since k c t0 (Cron.world s)) (Cron.processFollowUp env svc store_id).
Proof.
  intros Hnever s Hs. apply processFollowUp_passes; [done|].
  by destruct (Hnever (tick (Cron.world s)) (proj2 Hs)) as (_ & ? & _).
Qed.

Lemma markLost_skips store_id k c t0 :
  never_selected env store_id t0 c →
  keeps (λ s, unchanged_since k c t0 (Cron.world s)) (Cron.markLost env store_id).
Proof.
  intros Hnever s [Hk Ht]. rewrite markLost_run. simpl.
  split; [|simpl; lia]. unfold cart_at in *. simpl. rewrite lookup_fmap, Hk. simpl.
  destruct (Hnever (tick (Cron.world s)) Ht) as (_ & _ & Hlost). by rewrite Hlost.
Qed.

(** A row that no filter of the scan of a store selects goes through that
    scan untouched. *)
Lemma processStore_skips store_id k c t0 :
  never_selected env store_id t0 c →
  keeps (λ s, unchanged_since k c t0 (Cron.world s)) (Cron.processStore env store_id).
Proof.
  intros Hnever. unfold Cron.processStore.
  apply keeps_try_catch; [|apply keeps_update_results].
  apply keeps_bind.
  { apply keeps_read, lift_read, initialize_read. }
  intros init. destruct (negb init.1); [apply keeps_update_results|].
  apply keeps_bind;
    [apply (keeps_lift (unchanged_since k c t0)), import_keeps|]. intros n.
  apply keeps_bind; [apply keeps_update_results|]. intros _.
  apply keeps_bind; [by apply processAbandoned_skips|]. intros _.
  apply keeps_bind; [by apply processFollowUp_skips|]. intros _.
  apply keeps_bind; [by apply markLost_skips|]. intros _.
  apply keeps_bind.
  { apply keeps_read, lift_read, getRecoveryStats_read. }
  intros stats. apply keeps_update_results.
Qed.

(** X14. A cart that is already [ABANDONED], or [RECOVERED], goes through the
    scan of any store untouched: the scan selects only [NONE] carts for the
    first message, so it never sends a message to a cart that is already
    [ABANDONED], which is the status the import gives. *)
Theorem X14_scan_leaves_abandoned_and_recovered store_id s k c :
  cart_at (Cron.world s) k = Some c →
  recoveryStatus c = ABANDONED ∨ recoveryStatus c = RECOVERED →
  cart_at (Cron.world (Cron.processStore env store_id s).2) k = Some c.
Proof.
  intros Hk Hs.
  apply (processStore_skips store_id k c (tick (Cron.world s))).
  - by apply settled_never_selected.
  - by split.
Qed.

(** X15. No false-positive follow-up: a [NOTIFIED_FIRST] cart whose first
    message is not more than 24 hours old at any reading of the clock between
    the start and the end of the scan of a store gets no second message and
    is left untouched by that scan. *)
Theorem X15_no_early_follow_up store_id s k c :
  let s' := (Cron.processStore env store_id s).2 in
  cart_at (Cron.world s) k = Some c →
  recoveryStatus c = NOTIFIED_FIRST →
  (∀ t, lastNotifiedAt c = Some t →
        ∀ tk, (tick (Cron.world s) ≤ tk ≤ tick (Cron.world s'))%nat →
              clock env tk - Cron.hours 24 ≤ t) →
  cart_at (Cron.world s') k = Some c.
Proof.
  cbv zeta. intros Hk Hs Hrecent.
  destruct (shopify_configured (Cron.world s) store_id) eqn:Hconf;
    [|by rewrite processStore_unconfigured].
  set (I := λ st : Cron.State, unchanged_since k c (tick (Cron.world s)) (Cron.world st)).
  set (svc := service_of (Cron.world s) store_id).
  assert (I0 : I s) by (split; [done | lia]).
  destruct (step (Cron.lift (CartSyncService.importAbandonedCarts env svc)) I s)
    as (n & s1 & E1 & I1);
    [apply returns_lift, importAbandonedCarts_returns
    |apply (keeps_lift (unchanged_since k c (tick (Cron.world s)))), import_keeps | done |].
  destruct (step (Cron.processAbandoned env svc store_id) I
              {| Cron.world := Cron.world s1;
                 Cron.results := Cron.add_imported n (Cron.results s1) |})
    as ([] & s2 & E2 & I2);
    [apply processAbandoned_returns | apply processAbandoned_keeps; congruence | done |].
  revert Hrecent. unfold Cron.processStore.
  erewrite try_catch_bind_run by (apply lift_run, initialize_run).
  rewrite Hconf. simpl. fold svc.
  erewrite try_catch_bind_run by exact E1.
  erewrite try_catch_bind_run by reflexivity.
  erewrite try_catch_bind_run by exact E2.
  match goal with
  | |- context [try_catch ?m ?h s2] =>
      assert (Htime : effect time_goes_on (try_catch m h))
        by (unfold Cron.processFollowUp, Cron.markLost; time_rules);
      specialize (Htime s2); unfold time_goes_on in Htime
  end.
  intros Hrecent.
  assert (Hskip : Cron.followUp_filter store_id (clock env (tick (Cron.world s2))) c = false).
  { unfold Cron.followUp_filter.
    destruct (lastNotifiedAt c) as [t|] eqn:Ht; [|by rewrite andb_false_r].
    rewrite (bool_decide_eq_false_2 (t < _)); [by rewrite andb_false_r|].
    destruct I2 as [_ Hle].
    specialize (Hrecent t eq_refl (tick (Cron.world s2)) (conj Hle Htime)). lia. }
  pose proof (processFollowUp_passes svc store_id k c _ s2 I2 Hskip) as [Hk3 _].
  destruct (returns_run _ s2 (processFollowUp_returns env svc store_id)) as [[] E3].
  erewrite try_catch_bind_run by exact E3.
  erewrite try_catch_bind_run by apply markLost_run.
  erewrite try_catch_bind_run by (apply lift_run, getRecoveryStats_run).
  unfold cart_at in *. simpl. rewrite lookup_fmap, Hk3. simpl.
  unfold Cron.lost_filter. rewrite Hs.
  rewrite (bool_decide_eq_false_2 (NOTIFIED_FIRST = NOTIFIED_FINAL)) by done.
  by rewrite andb_false_r.
Qed.

(** X16. Tenant isolation: the scan of one store leaves the carts of every
    other store untouched, whatever their status and age. *)
Theorem X16_scan_store_isolation store_id s k c :
  cart_at (Cron.world s) k = Some c →
  storeId c ≠ store_id →
  cart_at (Cron.world (Cron.processStore env store_id s).2) k = Some c.
Proof.
  intros Hk Hs.
  apply (processStore_skips store_id k c (tick (Cron.world s))).
  - by apply other_store_never_selected.
  - by split.
Qed.

End ScanSkips.

Section ScanDetects.
Variable env : Env.

Lemma scan_effect_alive k s s' :
  scan_effect s s' → alive k (Cron.world s) → alive k (Cron.world s').
Proof. intros [H _]. by apply alive_regress. Qed.

Lemma scan_effect_past_none k s s' :
  scan_effect s s' → past_none k (Cron.world s) → past_none k (Cron.world s').
Proof. intros [H _]. by apply past_none_regress. Qed.

(** The detection phase moves every cart it selects out of [NONE]. *)
Lemma processAbandoned_detects svc store_id s k c :
  cart_at (Cron.world s) k = Some c →
  Cron.abandoned_filter store_id (clock env (tick (Cron.world s))) c = true →
  past_none k (Cron.world (Cron.processAbandoned env svc store_id s).2).
Proof.
  intros Hk Hsel. unfold Cron.processAbandoned.
  run_read. run_read. run_read.
  apply (for_each_reaches (λ s, alive k (Cron.world s)) (λ s, past_none k (Cron.world s))
           _ _ (k, c)).
  - apply rows_elem. by split.
  - intros row. apply returns_try_catch, returns_update_results.
  - intros row _. apply (effect_keeps scan_effect); [intros ? ? ? ?; by eapply scan_effect_alive|].
    scan_effect_rules.
  - intros row _. apply (effect_keeps scan_effect);
      [intros ? ? ? ?; by eapply scan_effect_past_none|].
    scan_effect_rules.
  - intros s0 (c0 & Hc0 & _). simpl.
    erewrite try_catch_bind_run by reflexivity.
    erewrite try_catch_bind_run by (apply lift_run; by apply (cart_update_run _ _ _ c0)).
    match goal with
    | |- past_none k (Cron.world (try_catch ?m ?h ?s1).2) =>
        assert (Hrest : effect scan_effect (try_catch m h)) by scan_effect_rules;
        apply (scan_effect_past_none k s1); [apply Hrest|]
    end.
    eexists. unfold cart_at. simpl. rewrite lookup_insert_eq. split; [done|]. done.
  - by exists c.
Qed.

(** X13. Detection: in the scan of a store whose platform credentials are
    present, with a clock that does not run backwards, every cart of the
    store that is in [NONE], has a customer phone and was last updated more
    than an hour ago leaves [NONE]: after the scan it is [ABANDONED] or
    further, never still [NONE]. *)
Theorem X13_scan_detects_abandonment store_id s k c :
  shopify_configured (Cron.world s) store_id = true →
  clock_monotone env →
  cart_at (Cron.world s) k = Some c →
  storeId c = store_id →
  recoveryStatus c = NONE →
  customerPhone c ≠ None →
  updatedAt c < clock env (tick (Cron.world s)) - Cron.hours 1 →
  ∃ c', cart_at (Cron.world (Cron.processStore env store_id s).2) k = Some c'
        ∧ recoveryStatus c' ≠ NONE.
Proof.
  intros Hconf Hmono Hk Hstore Hnone Hphone Hold.
  set (I := λ st : Cron.State, unchanged_since k c (tick (Cron.world s)) (Cron.world st)).
  set (svc := service_of (Cron.world s) store_id).
  assert (I0 : I s) by (split; [done | lia]).
  destruct (step (Cron.lift (CartSyncService.importAbandonedCarts env svc)) I s)
    as (n & s1 & E1 & [Hk1 Ht1]);
    [apply returns_lift, importAbandonedCarts_returns
    |apply (keeps_lift (unchanged_since k c (tick (Cron.world s)))), import_keeps | done |].
  assert (Hdetected :
    past_none k (Cron.world
                   (Cron.processAbandoned env svc store_id
                      {| Cron.world := Cron.world s1;
                         Cron.results := Cron.add_imported n (Cron.results s1) |}).2)).
  { apply (processAbandoned_detects _ _ _ k c); [done|]. simpl.
    unfold Cron.abandoned_filter. specialize (Hmono _ _ Ht1).
    rewrite Hnone, !bool_decide_eq_true_2; [done | done | done | lia | done]. }
  unfold Cron.processStore.
  erewrite try_catch_bind_run by (apply lift_run, initialize_run).
  rewrite Hconf. simpl. fold svc.
  erewrite try_catch_bind_run by exact E1.
  erewrite try_catch_bind_run by reflexivity.
  destruct (returns_run _ {| Cron.world := Cron.world s1;
                             Cron.results := Cron.add_imported n (Cron.results s1) |}
              (processAbandoned_returns env svc store_id)) as [[] E2].
  erewrite try_catch_bind_run by exact E2.
  match goal with
  | |- ∃ c', cart_at (Cron.world (try_catch ?m ?h ?s2).2) k = Some c' ∧ _ =>
      assert (Hrest : effect scan_effect (try_catch m h));
      [|apply (scan_effect_past_none k s2); [apply Hrest | exact Hdetected]]
  end.
  assert (Hf := processFollowUp_effect env). assert (Hl := markLost_effect env).
  repeat first [ apply Hf | apply Hl | progress scan_effect_rules ].
Qed.

End ScanDetects.

Section WholeScan.
Variable env : Env.


End WholeScan.

(* ===================================================================== *)
(** * Further properties: the routes *)
(* ===================================================================== *)

(** Closes the side conditions of an endpoint's answer: the answer exists,
    the case at hand is not the one a conjunct speaks of, or nothing moved. *)
Ltac refused :=
  first
    [ done
    | by eexists
    | by (intros ? ? Hc; eexists; split; [exact Hc | left])
    | by (intros; simplify_eq; try congruence; intuition congruence) ].

Section Routes.
Variable env : Env.

(** A synchronisation that answers a non-empty id leaves that id on the cart. *)
Lemma sync_spec_result store_id cartId w r w' id :
  sync_spec env store_id cartId w = (Ret r, w') →
  JS.or_null r = Some id →
  ∃ c', cart_at w' cartId = Some c' ∧ shopifyCartId c' = Some id.
Proof.
  unfold sync_spec.
  assert (Hcreate : ∀ cart w1,
    create_remote env store_id cartId cart w1 = (Ret r, w') →
    JS.or_null r = Some id →
    ∃ c', cart_at w' cartId = Some c' ∧ shopifyCartId c' = Some id).
  { intros cart w1. unfold create_remote, persist_remote_id.
    intros [= <- <-] Hid. rewrite Hid. unfold cart_at. simpl.
    rewrite lookup_insert_eq. by eexists. }
  destruct (cart_at w cartId) as [cart|] eqn:Hc; [|by intros [= <- <-]].
  destruct (JS.or_null (shopifyCartId cart)) as [r0|] eqn:Hr; [|apply Hcreate].
  destruct (cartLinesUpdate env _ _ _); [|apply Hcreate].
  intros [= <- <-] Hid. apply or_null_Some in Hr as [Hr _].
  apply or_null_Some in Hid as [[= <-] _].
  exists cart. done.
Qed.

(** X18. The synchronisation endpoint.  A request that does not parse, or
    lacks the cart id or the store id, or names a store without platform
    credentials, is refused and nothing is written.  When the endpoint answers
    with a remote cart id, that id is not empty and is the remote id the cart
    carries afterwards; and whatever the answer, the endpoint throws nothing
    and writes at most the remote id of the cart it was asked about. *)
Theorem X18_sync_endpoint request w :
  let run := SyncRoute.POST env request w in
  (∃ response, run.1 = Ret response)
  ∧ (request = None → run = (Ret (SyncRoute.Json 500 "Internal server error"), w))
  ∧ (∀ body,
       request = Some body →
       JS.or_null (SyncRoute.body_cartId body) = None
       ∨ JS.or_null (SyncRoute.body_storeId body) = None →
       run = (Ret (SyncRoute.Json 400 "Cart ID and Store ID are required"), w))
  ∧ (∀ body storeId,
       request = Some body →
       JS.or_null (SyncRoute.body_storeId body) = Some storeId →
       shopify_configured w storeId = false →
       db run.2 = db w)
  ∧ (∀ id,
       run.1 = Ret (SyncRoute.Synced id) →
       id ≠ ""
       ∧ ∃ body cartId c',
           request = Some body
           ∧ JS.or_null (SyncRoute.body_cartId body) = Some cartId
           ∧ cart_at run.2 cartId = Some c'
           ∧ shopifyCartId c' = Some id)
  ∧ (∀ k c, cart_at w k = Some c →
     ∃ c', cart_at run.2 k = Some c' ∧ same_but_remote c c').
Proof.
  cbv zeta. unfold SyncRoute.POST.
  destruct request as [body|]; [|split_and!; refused].
  destruct (JS.or_null (SyncRoute.body_cartId body)) as [cartId|] eqn:Hcart;
    [|split_and!; refused].
  destruct (JS.or_null (SyncRoute.body_storeId body)) as [storeId|] eqn:Hstore;
    [|split_and!; refused].
  erewrite try_catch_bind_run by apply initialize_run.
  destruct (shopify_configured w storeId) eqn:Hconf; simpl;
    [|split_and!; refused].
  destruct (sync_spec_effect env (service_of w storeId) cartId w) as (r & w' & Hs & Hw).
  assert (Hid : CartSyncService.this_storeId (service_of w storeId) = storeId).
  { unfold service_of. by destruct (stores (db w) !! storeId). }
  erewrite try_catch_bind_run
    by (rewrite syncCartToShopify_run by (by apply service_of_initialized); exact Hs).
  rewrite Hid in Hs.
  assert (Hframe : ∀ k c, cart_at w k = Some c →
                          ∃ c', cart_at w' k = Some c' ∧ same_but_remote c c').
  { intros k c Hc. destruct (decide (k = cartId)) as [->|Hne].
    - apply (remote_id_written_still _ _ _ _ Hw Hc).
    - destruct (remote_id_written_frame _ _ _ Hw) as (_ & _ & Hf).
      exists c. split; [by rewrite Hf | by left]. }
  destruct (JS.or_null r) as [id|] eqn:Hr; simpl; split_and!; try refused.
  intros id' [= <-]. split; [by apply or_null_Some in Hr as [_ ?]|].
  destruct (sync_spec_result _ _ _ _ _ _ Hs Hr) as (c' & Hc' & Hrid).
  exists body, cartId, c'. done.
Qed.

(** X19. The listing endpoint.  Without a store id it answers 400; for a store
    without platform credentials it answers 500; either way nothing happens
    and nothing is written.  Only the import action writes: the statistics
    and the default listing leave the record store as it was. *)
Theorem X19_listing_endpoint request w :
  let run := SyncRoute.GET env request w in
  (∃ response, run.1 = Ret response)
  ∧ (JS.or_null (SyncRoute.param_storeId request) = None →
     run = (Ret (SyncRoute.Json 400 "Store ID is required"), w))
  ∧ (∀ storeId,
       JS.or_null (SyncRoute.param_storeId request) = Some storeId →
       shopify_configured w storeId = false →
       run = (Ret (SyncRoute.Json 500
                     "Failed to initialize cart sync service. Shopify integration may not be configured."),
              w))
  ∧ (SyncRoute.param_action request ≠ Some "import" → db run.2 = db w)
  ∧ (∀ storeId,
       JS.or_null (SyncRoute.param_storeId request) = Some storeId →
       shopify_configured w storeId = true →
       SyncRoute.param_action request = Some "stats" →
       ∃ stats,
         run = (Ret (SyncRoute.Stats stats), w)
         ∧ CartSyncService.getRecoveryStats (service_of w storeId) w = (Ret stats, w)).
Proof.
  cbv zeta. unfold SyncRoute.GET.
  destruct (JS.or_null (SyncRoute.param_storeId request)) as [storeId|] eqn:Hstore;
    [|split_and!; refused].
  erewrite try_catch_bind_run by apply initialize_run.
  destruct (shopify_configured w storeId) eqn:Hconf; simpl;
    [|split_and!; refused].
  case_bool_decide as Himport.
  - destruct (returns_run _ w (importAbandonedCarts_returns env (service_of w storeId)))
      as [n E].
    erewrite try_catch_bind_run by exact E.
    split_and!; refused.
  - case_bool_decide as Hstats.
    + erewrite try_catch_bind_run by apply getRecoveryStats_run.
      split_and!; try refused.
      intros storeId' [= <-] _ _. eexists. split; [reflexivity|].
      apply getRecoveryStats_run.
    + erewrite try_catch_bind_run
        by (by apply getAbandonedCarts_run, service_of_initialized).
      split_and!; try refused.
Qed.

(** X20. The manual recovery endpoint refuses a request without a cart id
    (400) and a request for a cart that does not exist (404); and whenever it
    answers 400 or 404, whatever the reason, the world is exactly as it was:
    no cart is marked and no remote call was made. *)
Theorem X20_recover_endpoint_refusals request w :
  let run := Recover.GET env request w in
  (JS.or_null (Recover.param_cartId request) = None →
   run = (Ret (Recover.Json 400 "Cart ID is required"), w))
  ∧ (∀ cartId,
       JS.or_null (Recover.param_cartId request) = Some cartId →
       cart_at w cartId = None →
       run = (Ret (Recover.Json 404 "Cart not found"), w))
  ∧ (∀ status error,
       run.1 = Ret (Recover.Json status error) →
       status = 400%nat ∨ status = 404%nat →
       run.2 = w).
Proof.
  cbv zeta.
  destruct (JS.or_null (Recover.param_cartId request)) as [cartId|] eqn:Hid.
  2:{ assert (E : Recover.GET env request w
                  = (Ret (Recover.Json 400 "Cart ID is required"), w)).
      { unfold Recover.GET. by rewrite Hid. }
      rewrite E. split_and!; done. }
  destruct (cart_at w cartId) as [cart|] eqn:Hc.
  2:{ assert (E : Recover.GET env request w
                  = (Ret (Recover.Json 404 "Cart not found"), w)).
      { unfold Recover.GET. rewrite Hid.
        erewrite try_catch_bind_run by reflexivity. simpl.
        unfold cart_at in Hc. by rewrite Hc. }
      rewrite E. split_and!; done. }
  split; [done|]. split; [intros cartId' [= <-] Hn; congruence|].
  destruct (Recover.code_mismatch (Recover.param_code request) cart) eqn:Hcode.
  { assert (E : Recover.GET env request w
                = (Ret (Recover.Json 400 "Invalid discount code"), w)).
    { unfold Recover.GET. rewrite Hid.
      erewrite try_catch_bind_run by reflexivity. simpl.
      unfold cart_at in Hc. by rewrite Hc, Hcode. }
    by rewrite E. }
  destruct (shopify_configured w (storeId cart)) eqn:Hconf.
  - destruct (Recover_GET_run env request w cartId cart Hid Hc Hcode Hconf)
      as (url & _ & E).
    rewrite E. simpl. intros status error.
    destruct (JS.or_null url) as [u|]; [destruct (absoluteUrl env u); [done|]|];
      intros [= <- _] [H|H]; done.
  - assert (E : Recover.GET env request w
                = (Ret (Recover.Json 500 "Failed to initialize cart sync service"), w)).
    { unfold Recover.GET. rewrite Hid.
      erewrite try_catch_bind_run by reflexivity. simpl.
      unfold cart_at in Hc. rewrite Hc, Hcode.
      erewrite try_catch_bind_run by apply initialize_run. simpl. by rewrite Hconf. }
    by rewrite E.
Qed.

End Routes.

(* ===================================================================== *)
(** * The further properties, at the sample store *)
(* ===================================================================== *)

Lemma X1_items_to_remote_witness :
  ∃ lines,
    CartSyncService.mapMetastoreItemsToShopify Sample.service
      [Sample.unlisted; Sample.mug] Sample.world
    = (Ret lines, Sample.world)
    ∧ length lines = 1%nat
    ∧ ∃ other,
        CartSyncService.mapMetastoreItemsToShopify Sample.service [Sample.mug] Sample.world
        = (Ret other, Sample.world)
        ∧ map quantity other = [2%float].
Proof.
  destruct (X1_items_to_remote Sample.service [Sample.unlisted; Sample.mug] Sample.world)
    as (lines & E & Hspec & _).
  exists lines. split; [exact E|]. split.
  - rewrite (Forall2_length _ _ _ Hspec). reflexivity.
  - destruct (X1_items_to_remote Sample.service [Sample.mug] Sample.world)
      as (other & E' & _ & _ & Hall).
    exists other. split; [exact E'|]. apply Hall.
    repeat constructor.
Defined.

Lemma X2_items_to_local_witness :
  (∃ cartItems,
     CartSyncService.mapShopifyItemsToMetastore Sample.service
       (line_items Sample.checkout) Sample.world
     = (Ret cartItems, Sample.world)
     ∧ length cartItems = 1%nat)
  ∧ CartSyncService.mapShopifyItemsToMetastore Sample.service
      (line_items Sample.custom_checkout) Sample.world
    = (Ret [], Sample.world).
Proof.
  split.
  - destruct (X2_items_to_local Sample.service (line_items Sample.checkout) Sample.world)
      as (cartItems & E & Hnamed & _).
    exists cartItems. split; [exact E|].
    rewrite (Forall2_length _ _ _ (Hnamed ltac:(repeat constructor; by eexists))).
    reflexivity.
  - destruct (X2_items_to_local Sample.service (line_items Sample.custom_checkout)
                Sample.world) as (cartItems & E & _ & Hunnamed & _).
    rewrite E. f_equal. f_equal. apply Hunnamed.
    apply Exists_cons_tl, Exists_cons_hd. reflexivity.
Defined.

Lemma X3_mapping_round_trip_witness :
  ∃ lines cartItems,
    CartSyncService.mapMetastoreItemsToShopify Sample.service [Sample.mug] Sample.world
    = (Ret lines, Sample.world)
    ∧ CartSyncService.mapShopifyItemsToMetastore Sample.service
        (map as_line_item lines) Sample.world
      = (Ret cartItems, Sample.world)
    ∧ map (λ item, (item_id item, item_quantity item)) cartItems = [("p-1", 2%float)].
Proof.
  apply (X3_mapping_round_trip Sample.service [Sample.mug] Sample.world).
  - intros pm pm' ->%list_elem_of_singleton ->%list_elem_of_singleton _ _ _. reflexivity.
  - intros item ->%list_elem_of_singleton. split.
    + eexists. split; [apply list_elem_of_singleton; reflexivity | done].
    + by eexists.
Defined.

Lemma X4_recovery_url_needs_remote_id_witness :
  cart_at Sample.world "missing" = None
  ∧ CartSyncService.getCartRecoveryUrl Sample.env Sample.service "missing" Sample.world
    = (Ret None, Sample.world).
Proof.
  split; [reflexivity|].
  apply (X4_recovery_url_needs_remote_id Sample.env Sample.service "missing" Sample.world).
  left. reflexivity.
Defined.

Lemma X5_recovery_url_shape_witness :
  (CartSyncService.getCartRecoveryUrl Sample.env Sample.service "c1" Sample.world).1
  = Ret (Some "https://shop.example/checkout?key=1&discount=SAVE15")
  ∧ (CartSyncService.getCartRecoveryUrl Sample.env_down Sample.service "c1" Sample.world).1
    = Ret None
  ∧ CartSyncService.getCartRecoveryUrl Sample.env (CartSyncService.new "s1") "c1"
      Sample.world
    = (Ret None, Sample.world).
Proof.
  split_and!.
  - destruct (X5_recovery_url_shape Sample.env Sample.service "c1" Sample.world
                (Sample.cart "s1" ABANDONED None) "gid-1" eq_refl eq_refl)
      as [Hon _].
    destruct (Hon (ex_intro _ _ eq_refl)) as (_ & _ & _ & Hurl).
    exact (Hurl (Sample.remote_cart "gid-1") "https://shop.example/checkout?key=1"
             eq_refl eq_refl).
  - destruct (X5_recovery_url_shape Sample.env_down Sample.service "c1" Sample.world
                (Sample.cart "s1" ABANDONED None) "gid-1" eq_refl eq_refl)
      as [Hon _].
    destruct (Hon (ex_intro _ _ eq_refl)) as (_ & Hdown & _).
    exact (Hdown eq_refl).
  - destruct (X5_recovery_url_shape Sample.env (CartSyncService.new "s1") "c1" Sample.world
                (Sample.cart "s1" ABANDONED None) "gid-1" eq_refl eq_refl)
      as [_ Hoff].
    apply Hoff, new_not_initialized.
Defined.

Lemma X6_failed_send_changes_no_status_witness :
  (CartSyncService.sendCartRecoveryMessage Sample.env_down Sample.service "c1"
     Sample.world).1 = Ret false
  ∧ ∃ c',
      cart_at (CartSyncService.sendCartRecoveryMessage Sample.env_down Sample.service "c1"
                 Sample.world).2 "c1" = Some c'
      ∧ recoveryStatus c' = ABANDONED
      ∧ lastNotifiedAt c' = None.
Proof.
  split; [reflexivity|].
  destruct (X6_failed_send_changes_no_status Sample.env_down Sample.service "c1" Sample.world)
    as [_ Hfalse].
  destruct (Hfalse eq_refl) as [_ Hsame].
  destruct (Hsame (Sample.cart "s1" ABANDONED None) eq_refl) as (c' & Hc & _ & Hs & Hl).
  exists c'. done.
Defined.

Lemma X7_send_preconditions_witness :
  ∃ cart store phone r,
    cart_at Sample.world "c1" = Some cart
    ∧ JS.or_null (customerPhone cart) = Some phone
    ∧ JS.or_null (shopifyCartId cart) = Some r
    ∧ stores (db Sample.world) !! storeId cart = Some store
    ∧ messaging_configured store = true.
Proof.
  apply (X7_send_preconditions Sample.env Sample.service "c1" Sample.world).
  reflexivity.
Defined.

Lemma X13_scan_detects_abandonment_witness :
  cart_at ScanSample.world "idle" = Some (Sample.cart "s1" NONE None)
  ∧ ∃ c',
      cart_at (Cron.world (Cron.processStore Sample.env_frozen "s1" ScanSample.state).2)
        "idle" = Some c'
      ∧ recoveryStatus c' ≠ NONE.
Proof.
  split; [reflexivity|].
  apply (X13_scan_detects_abandonment Sample.env_frozen "s1" ScanSample.state "idle"
           (Sample.cart "s1" NONE None)).
  - reflexivity.
  - intros a b _. reflexivity.
  - reflexivity.
  - reflexivity.
  - reflexivity.
  - done.
  - reflexivity.
Defined.

Lemma X14_scan_leaves_abandoned_and_recovered_witness :
  cart_at (Cron.world
             (Cron.processStore Sample.env "s1"
                {| Cron.world := Sample.world; Cron.results := Cron.no_results |}).2) "c1"
  = Some (Sample.cart "s1" ABANDONED None)
  ∧ cart_at (Cron.world (Cron.processStore Sample.env "s1" ScanSample.state).2) "back"
    = Some (Sample.cart "s1" RECOVERED None).
Proof.
  split.
  - apply (X14_scan_leaves_abandoned_and_recovered Sample.env "s1"
             {| Cron.world := Sample.world; Cron.results := Cron.no_results |} "c1"
             (Sample.cart "s1" ABANDONED None)); [reflexivity | by left].
  - apply (X14_scan_leaves_abandoned_and_recovered Sample.env "s1" ScanSample.state "back"
             (Sample.cart "s1" RECOVERED None)); [reflexivity | by right].
Defined.

Lemma X15_no_early_follow_up_witness :
  clock Sample.env 1 = Sample.T0 + 1
  ∧ cart_at (Cron.world (Cron.processStore Sample.env "s1" ScanSample.state).2) "fresh"
    = Some (Sample.cart "s1" NOTIFIED_FIRST (Some Sample.T0)).
Proof.
  split; [reflexivity|].
  apply (X15_no_early_follow_up Sample.env "s1" ScanSample.state "fresh"
           (Sample.cart "s1" NOTIFIED_FIRST (Some Sample.T0))).
  - reflexivity.
  - reflexivity.
  - intros t [= <-] tk [_ Hend].
    remember (tick (Cron.world (Cron.processStore Sample.env "s1" ScanSample.state).2))
      as finish eqn:Hfinish.
    vm_compute in Hfinish. subst finish.
    change (clock Sample.env tk) with (Sample.T0 + Z.of_nat tk).
    unfold Cron.hours. lia.
Defined.

Lemma X16_scan_store_isolation_witness :
  cart_at (Cron.world (Cron.processStore Sample.env "s1" ScanSample.state).2) "other"
  = Some (Sample.cart "s2" NONE None).
Proof.
  apply (X16_scan_store_isolation Sample.env "s1" ScanSample.state "other"
           (Sample.cart "s2" NONE None)); [reflexivity | done].
Defined.

Lemma X18_sync_endpoint_witness :
  (SyncRoute.POST Sample.env
     (Some {| SyncRoute.body_cartId := Some "c1"; SyncRoute.body_storeId := Some "s1" |})
     Sample.world).1 = Ret (SyncRoute.Synced "gid-2")
  ∧ (∃ c',
       cart_at (SyncRoute.POST Sample.env
                  (Some {| SyncRoute.body_cartId := Some "c1";
                           SyncRoute.body_storeId := Some "s1" |})
                  Sample.world).2 "c1" = Some c'
       ∧ shopifyCartId c' = Some "gid-2")
  ∧ SyncRoute.POST Sample.env
      (Some {| SyncRoute.body_cartId := Some "c1"; SyncRoute.body_storeId := Some "" |})
      Sample.world
    = (Ret (SyncRoute.Json 400 "Cart ID and Store ID are required"), Sample.world).
Proof.
  split; [reflexivity|]. split.
  - destruct (X18_sync_endpoint Sample.env
                (Some {| SyncRoute.body_cartId := Some "c1";
                         SyncRoute.body_storeId := Some "s1" |}) Sample.world)
      as (_ & _ & _ & _ & Hsynced & _).
    destruct (Hsynced "gid-2" eq_refl) as (_ & body & cartId & c' & [= <-] & [= <-] & Hc & Hr).
    exists c'. done.
  - destruct (X18_sync_endpoint Sample.env
                (Some {| SyncRoute.body_cartId := Some "c1";
                         SyncRoute.body_storeId := Some "" |}) Sample.world)
      as (_ & _ & Hmissing & _).
    apply (Hmissing _ eq_refl). by right.
Defined.

Lemma X19_listing_endpoint_witness :
  SyncRoute.GET Sample.env
    {| SyncRoute.param_storeId := Some "s0"; SyncRoute.param_action := Some "import" |}
    Sample.world
  = (Ret (SyncRoute.Json 500
            "Failed to initialize cart sync service. Shopify integration may not be configured."),
     Sample.world)
  ∧ db (SyncRoute.GET Sample.env
          {| SyncRoute.param_storeId := Some "s1"; SyncRoute.param_action := None |}
          Sample.world).2
    = db Sample.world.
Proof.
  split.
  - destruct (X19_listing_endpoint Sample.env
                {| SyncRoute.param_storeId := Some "s0";
                   SyncRoute.param_action := Some "import" |} Sample.world)
      as (_ & _ & Hbare & _).
    apply (Hbare "s0"); reflexivity.
  - destruct (X19_listing_endpoint Sample.env
                {| SyncRoute.param_storeId := Some "s1"; SyncRoute.param_action := None |}
                Sample.world) as (_ & _ & _ & Hread & _).
    apply Hread. done.
Defined.

Lemma X20_recover_endpoint_refusals_witness :
  Recover.GET Sample.env
    {| Recover.param_cartId := Some "missing"; Recover.param_code := None |} Sample.world
  = (Ret (Recover.Json 404 "Cart not found"), Sample.world)
  ∧ (Recover.GET Sample.env
       {| Recover.param_cartId := Some "c1"; Recover.param_code := Some "WRONG" |}
       Sample.world).2
    = Sample.world.
Proof.
  split.
  - destruct (X20_recover_endpoint_refusals Sample.env
                {| Recover.param_cartId := Some "missing"; Recover.param_code := None |}
                Sample.world) as (_ & Hmissing & _).
    apply (Hmissing "missing"); reflexivity.
  - destruct (X20_recover_endpoint_refusals Sample.env
                {| Recover.param_cartId := Some "c1"; Recover.param_code := Some "WRONG" |}
                Sample.world) as (_ & _ & Hsame).
    apply (Hsame 400%nat "Invalid discount code"); [reflexivity | by left].
Defined.
